(** * DeferMySponza: the partitioned persistently-mapped buffer and the
      per-frame streaming pipeline of the renderer

    A shallow embedding of
    - [Rendering/Composites/PersistentMappedBuffer.hpp],
    - [Rendering/Objects/Buffer.cpp],
    - [Rendering/Renderer/Renderer.hpp] and [Renderer.cpp],
    - [Rendering/Objects/Framebuffer.cpp], [Shader.cpp] and [Program.cpp],
    - [Rendering/Renderer/Drawing/ShadowMaps.cpp],
    - [Rendering/Renderer/Uniforms/Uniforms.hpp],
    - [Rendering/Renderer/Geometry/Geometry.cpp],
    followed by the properties the design document states about them and
    by further properties of the code.

    Conventions.
    - Fixed-width integers are values of [Z]; every conversion and every
      wrap-around of the C++ types is written out with the functions of
      [Mach].
    - [assert] is the macro of <cassert>; no source file defines NDEBUG, so
      a failed assertion ends the program.  Functions that may assert return
      an [option] or an [Outcome].
    - OpenGL is outside the program: what the driver answers is an argument
      of the functions that call it, what the program asks of it is logged
      as a list of calls. *)

From Stdlib Require Import ZArith Lia List Bool.
From stdpp Require Import base numbers option list gmap sorting.
Import ListNotations.

Local Open Scope Z_scope.

(** ** Machine integers *)

Module Mach.

(** [size_t]: 64 bits, unsigned. *)
Definition size_t (z : Z) : Z := z mod 2 ^ 64.

(** [GLintptr] and [GLsizeiptr]: [ptrdiff_t], 64 bits, signed. *)
Definition ptrdiff_t (z : Z) : Z := (z + 2 ^ 63) mod 2 ^ 64 - 2 ^ 63.

(** [GLuint]: 32 bits, unsigned. *)
Definition GLuint (z : Z) : Z := z mod 2 ^ 32.

(** [GLsizei]: [int], 32 bits, signed. *)
Definition GLsizei (z : Z) : Z := (z + 2 ^ 31) mod 2 ^ 32 - 2 ^ 31.

End Mach.

(** ** Pointers and the calls made to OpenGL *)

(** A pointer is null or an offset into a block of mapped memory.  The
    arithmetic of the program never leaves the null pointer with a non-zero
    displacement (a buffer without a mapping has size zero), so adding to
    [nullptr] is only used with displacement zero. *)
Inductive Pointer : Type :=
| nullptr
| Ptr (block : Z) (offset : Z).

Definition Pointer_eqb (p q : Pointer) : bool :=
  match p, q with
  | nullptr, nullptr => true
  | Ptr b o, Ptr b' o' => (b =? b') && (o =? o')
  | _, _ => false
  end.

Definition is_null (p : Pointer) : bool :=
  match p with nullptr => true | Ptr _ _ => false end.

Definition ptr_add (p : Pointer) (d : Z) : Pointer :=
  match p with
  | nullptr => nullptr
  | Ptr b o => Ptr b (o + d)
  end.

Inductive GLCall : Type :=
| glGenBuffers (name : Z)
| glDeleteBuffers (name : Z)
| glNamedBufferStorage (name size flags : Z)
| glMapNamedBufferRange (name offset length access : Z)
| glUnmapNamedBuffer (name : Z)
| glFlushMappedNamedBufferRange (name offset length : Z).

(** What the driver answers during one call of [initialise]: the name
    [glGenBuffers] hands out (zero when it has none), whether the storage is
    allocated, and the address a mapping of that storage is given. *)
Record Driver : Type := {
  gen_name : Z;
  storage_ok : bool;
  map_address : Pointer
}.

Definition GL_MAP_READ_BIT : Z := 0x0001.
Definition GL_MAP_WRITE_BIT : Z := 0x0002.
Definition GL_MAP_FLUSH_EXPLICIT_BIT : Z := 0x0010.
Definition GL_MAP_PERSISTENT_BIT : Z := 0x0040.
Definition GL_MAP_COHERENT_BIT : Z := 0x0080.

(** ** Rendering/Objects/Buffer *)

Module Buffer.

Record t : Type := { m_buffer : Z }.

Definition default : t := {| m_buffer := 0 |}.

Definition isInitialised (self : t) : bool := negb (m_buffer self =? 0).

Definition getID (self : t) : Z := m_buffer self.

(** [Buffer::clean], Buffer.cpp. *)
Definition clean (self : t) : t * list GLCall :=
  if isInitialised self
  then ({| m_buffer := 0 |}, [glDeleteBuffers (m_buffer self)])
  else (self, []).

(** [Buffer::initialise], Buffer.cpp. *)
Definition initialise (drv : Driver) (self : t) : bool * t * list GLCall :=
  let '(self1, c) := clean self in
  let self2 := {| m_buffer := gen_name drv |} in
  (negb (m_buffer self2 =? 0), self2, c ++ [glGenBuffers (gen_name drv)]).

(** [Buffer::operator= (Buffer&&)], Buffer.cpp, for two distinct objects:
    the target is cleaned, takes the name, and the source is left empty. *)
Definition move_assign (self move : t) : t * t * list GLCall :=
  let '(_, c) := clean self in
  ({| m_buffer := m_buffer move |}, {| m_buffer := 0 |}, c).

(** The members below are declared in Buffer.hpp, which is not part of the
    sources at hand; they are the thin wrappers their callers show them to
    be.  A mapping is granted only to a buffer that has storage and for a
    positive length (OpenGL reports an error and returns null otherwise). *)
Definition allocateImmutableStorage (self : t) (size flags : Z) : list GLCall :=
  [glNamedBufferStorage (m_buffer self) size flags].

Definition mapRange (drv : Driver) (self : t) (offset length access : Z)
  : Pointer * list GLCall :=
  (if storage_ok drv && (0 <? length) then map_address drv else nullptr,
   [glMapNamedBufferRange (m_buffer self) offset length access]).

Definition unmap (self : t) : list GLCall :=
  [glUnmapNamedBuffer (m_buffer self)].

(** [immutablyFillWith (data, flags)]: allocates storage holding [data] and
    returns its size in bytes. *)
Definition immutablyFillWith (self : t) (dataSize flags : Z) : Z * list GLCall :=
  (dataSize, [glNamedBufferStorage (m_buffer self) dataSize flags]).

End Buffer.

(** ** Rendering/Composites/PersistentMappedBuffer.hpp *)

Module ModifiedRange.

(** [struct ModifiedRange]: [GLintptr offset], [GLsizeiptr length]. *)
Record t : Type := { offset : Z; length : Z }.

(** The default member initialisers. *)
Definition default : t := {| offset := 0; length := 0 |}.

(** [ModifiedRange (const GLintptr offset, const GLsizei length)]: the
    length goes through a 32-bit parameter before it is stored. *)
Definition make (offset length : Z) : t :=
  {| offset := Mach.ptrdiff_t offset; length := Mach.GLsizei length |}.

End ModifiedRange.

Module PersistentMappedBuffer.

Record t : Type := {
  m_buffer : Buffer.t;
  m_mapping : Pointer;
  m_size : Z;
  m_flushable : bool
}.

Definition default : t :=
  {| m_buffer := Buffer.default; m_mapping := nullptr; m_size := 0;
     m_flushable := false |}.

Definition isInitialised (self : t) : bool := Buffer.isInitialised (m_buffer self).

Definition getID (self : t) : Z := Buffer.getID (m_buffer self).

Definition getSize (self : t) : Z := m_size self.

(** The name a call to OpenGL is about. *)
Definition call_name (c : GLCall) : Z :=
  match c with
  | glGenBuffers n | glDeleteBuffers n | glNamedBufferStorage n _ _
  | glMapNamedBufferRange n _ _ _ | glUnmapNamedBuffer n
  | glFlushMappedNamedBufferRange n _ _ => n
  end.

(** [getAccessFlags]. *)
Definition getAccessFlags (read write coherent : bool) : Z :=
  let access := GL_MAP_PERSISTENT_BIT in
  let access := if read then Z.lor access GL_MAP_READ_BIT else access in
  let access := if write then Z.lor access GL_MAP_WRITE_BIT else access in
  if coherent then Z.lor access GL_MAP_COHERENT_BIT
  else if write then Z.lor access GL_MAP_FLUSH_EXPLICIT_BIT
  else access.

Section Partitioned.

(** The template parameter [Partitions], a [size_t]. *)
Variable Partitions : Z.

(** [partitionSize]: [m_size / Partitions], the signed size converted to
    [size_t] for the division and back to [GLsizeiptr]. *)
Definition partitionSize (self : t) : Z :=
  Mach.ptrdiff_t (Mach.size_t (m_size self) / Partitions).

(** [partitionOffset]: [index * partitionSize()] in [size_t], returned as a
    [GLintptr]. *)
Definition partitionOffset (self : t) (index : Z) : Z :=
  Mach.ptrdiff_t (Mach.size_t (index * Mach.size_t (partitionSize self))).

(** [pointer]: [None] when [assert (pointer)] fails. *)
Definition pointer (self : t) (partition : Z) : option Pointer :=
  let pointer := ptr_add (m_mapping self) (partitionOffset self partition) in
  if is_null pointer then None
  else Some (if partition <? Partitions then pointer else m_mapping self).

(** [initialise (const GLintptr size, const bool read, const bool coherent)].
    The result is the returned flag, the object after the call and the calls
    made to OpenGL.  The local [buffer] is released when the function is left
    without having been moved into the object. *)
Definition initialise_size (drv : Driver) (self : t) (size : Z) (read coherent : bool)
  : bool * t * list GLCall :=
  if size =? 0 then (false, self, [])
  else
    let '(ok, buffer, c1) := Buffer.initialise drv Buffer.default in
    if negb ok then (false, self, c1 ++ snd (Buffer.clean buffer))
    else
      let access := getAccessFlags read true coherent in
      let storageFlags := Z.land access (Z.lnot GL_MAP_FLUSH_EXPLICIT_BIT) in
      let totalSize := Mach.size_t (Mach.size_t size * Partitions) in
      let c2 := Buffer.allocateImmutableStorage buffer (Mach.ptrdiff_t totalSize) storageFlags in
      let '(pointer, c3) := Buffer.mapRange drv buffer 0 (Mach.ptrdiff_t totalSize) access in
      if is_null pointer
      then (false, self, c1 ++ c2 ++ c3 ++ snd (Buffer.clean buffer))
      else
        let c4 := if is_null (m_mapping self) then []
                  else Buffer.unmap (m_buffer self) in
        let '(m_buffer', _, c5) := Buffer.move_assign (m_buffer self) buffer in
        (true,
         {| m_buffer := m_buffer';
            m_mapping := pointer;
            m_size := Mach.ptrdiff_t totalSize;
            m_flushable := 0 <? Z.land access GL_MAP_FLUSH_EXPLICIT_BIT |},
         c1 ++ c2 ++ c3 ++ c4 ++ c5).

(** [initialise (const T& data, const bool read, const bool write,
    const bool coherent)].  [dataSize] is what [immutablyFillWith] returns,
    the byte size of [data]. *)
Definition initialise_data (drv : Driver) (self : t) (dataSize : Z)
  (read write coherent : bool) : bool * t * list GLCall :=
  if negb read && negb write then (false, self, [])
  else
    let '(ok, buffer, c1) := Buffer.initialise drv Buffer.default in
    if negb ok then (false, self, c1 ++ snd (Buffer.clean buffer))
    else
      let access := getAccessFlags read write coherent in
      let storageFlags := Z.land access (Z.lnot GL_MAP_FLUSH_EXPLICIT_BIT) in
      let '(size, c2) := Buffer.immutablyFillWith buffer dataSize storageFlags in
      if negb (Mach.size_t size mod Partitions =? 0) || (size =? 0)
      then (false, self, c1 ++ c2 ++ snd (Buffer.clean buffer))
      else
        let '(pointer, c3) := Buffer.mapRange drv buffer 0 size access in
        if is_null pointer
        then (false, self, c1 ++ c2 ++ c3 ++ snd (Buffer.clean buffer))
        else
          let c4 := if is_null (m_mapping self) then []
                    else Buffer.unmap (m_buffer self) in
          let '(m_buffer', _, c5) := Buffer.move_assign (m_buffer self) buffer in
          (true,
           {| m_buffer := m_buffer';
              m_mapping := pointer;
              m_size := size;
              m_flushable := 0 <? Z.land access GL_MAP_FLUSH_EXPLICIT_BIT |},
           c1 ++ c2 ++ c3 ++ c4 ++ c5).

(** [clean]. *)
Definition clean (self : t) : t * list GLCall :=
  if isInitialised self
  then
    let c1 := Buffer.unmap (m_buffer self) in
    let '(b, c2) := Buffer.clean (m_buffer self) in
    ({| m_buffer := b; m_mapping := nullptr; m_size := 0; m_flushable := false |},
     c1 ++ c2)
  else (self, []).

(** [notifyModifiedDataRange (const size_t partition, const ModifiedRange&)]. *)
Definition notifyModifiedDataRange_at (self : t) (partition : Z) (range : ModifiedRange.t)
  : list GLCall :=
  if m_flushable self
  then [glFlushMappedNamedBufferRange (getID self)
          (Mach.ptrdiff_t (partitionOffset self partition + ModifiedRange.offset range))
          (ModifiedRange.length range)]
  else [].

(** [notifyModifiedDataRange (ModifiedRange range)]. *)
Definition notifyModifiedDataRange (self : t) (range : ModifiedRange.t) : list GLCall :=
  if m_flushable self
  then [glFlushMappedNamedBufferRange (getID self)
          (ModifiedRange.offset range) (ModifiedRange.length range)]
  else [].

(** The bytes a list of calls asks the driver to flush. *)
Definition flushed_bytes (calls : list GLCall) : Z :=
  fold_right (fun c n =>
    match c with
    | glFlushMappedNamedBufferRange _ _ len => len + n
    | _ => n
    end) 0 calls.

End Partitioned.

(** What every constructor and member function keeps true of an object:
    it has a mapping exactly when it has a buffer, an object without one
    is in the default state, and the size is a non-negative [GLsizeiptr]. *)
Record Inv (self : t) : Prop := {
  inv_mapping : is_null (m_mapping self) = negb (isInitialised self);
  inv_size : 0 <= m_size self < 2 ^ 63;
  inv_empty : isInitialised self = false -> self = default
}.

(** A buffer as a successful call of either [initialise] leaves it, the
    requested total size being one a [GLsizeiptr] can hold. *)
Inductive initialised_by (Partitions : Z) : t -> Prop :=
| initialised_by_size drv self size read coherent self' calls :
    - 2 ^ 63 <= size * Partitions < 2 ^ 63 ->
    initialise_size Partitions drv self size read coherent = (true, self', calls) ->
    initialised_by Partitions self'
| initialised_by_data drv self dataSize read write coherent self' calls :
    0 <= dataSize < 2 ^ 63 ->
    initialise_data Partitions drv self dataSize read write coherent = (true, self', calls) ->
    initialised_by Partitions self'.

End PersistentMappedBuffer.

(** ** Renderer: the dynamic-object pass *)

Module Mesh.

(** [struct Mesh], Mesh.hpp: three [GLuint]. *)
Record t : Type := { verticesIndex : Z; elementsIndex : Z; elementCount : Z }.

End Mesh.

Module DrawCommand.

(** [MultiDrawElementsIndirectCommand]: five [GLuint], in the order the
    renderer fills them in. *)
Record t : Type := {
  elementCount : Z;
  instanceCount : Z;
  elementOffset : Z;
  vertexOffset : Z;
  baseInstance : Z
}.

End DrawCommand.

Module DynamicObjects.

Section Scene.

(** The scene library and glm are not part of the repository: instance
    identifiers, instances, model transforms and material identifiers are
    left abstract, as are the three functions the pass reads them with. *)
Context {InstanceId Instance ModelTransform MaterialID : Type}.

(** [m_scene->getInstanceById (instanceID)]. *)
Variable getInstanceById : InstanceId -> Instance.
(** [ModelTransform (util::toGLM (instance.getTransformationMatrix()))]. *)
Variable toModelTransform : Instance -> ModelTransform.
(** [m_materials[instance.getMaterialId()]]. *)
Variable materialIDOf : Instance -> MaterialID.

(** [types::multiBuffering], and the sizes of the three element types. *)
Variable multiBuffering : Z.
Variables sizeof_DrawCommand sizeof_ModelTransform sizeof_MaterialID : Z.

(** [struct MeshInstances]. *)
Record MeshInstances : Type := {
  mesh : Mesh.t;
  instances : list InstanceId
}.

(** The mapped memory of the three buffers, seen as arrays of their element
    type: the entry at [(k, i)] is element [i] counted from the pointer of
    partition [k]. *)
Record Memory : Type := {
  drawCommandBuffer : gmap (Z * Z) DrawCommand.t;
  transformBuffer : gmap (Z * Z) ModelTransform;
  materialIDBuffer : gmap (Z * Z) MaterialID
}.

(** The members of [Renderer] that [updateDynamicObjects] reads or writes. *)
Record t : Type := {
  m_dynamics : list MeshInstances;
  m_partition : Z;
  m_multiThreaded : bool;
  m_objectDrawing_buffer : PersistentMappedBuffer.t;
  m_objectDrawing_start : Z;
  m_objectDrawing_count : Z;
  m_objectTransforms : PersistentMappedBuffer.t;
  m_objectMaterialIDs : PersistentMappedBuffer.t;
  memory : Memory
}.

(** The partition whose start [pointer (partition)] returns. *)
Definition pointed_partition (partition : Z) : Z :=
  if partition <? multiBuffering then partition else 0.

(** The variables the lambdas of [updateDynamicObjects] capture by
    reference: the three buffers and the local [baseInstance]. *)
Record Locals : Type := {
  buffers : Memory;
  baseInstance : Z
}.

Section Lambdas.

(** The partition the three pointers were taken for. *)
Variable k : Z.

(** [addDrawCommand]. *)
Definition addDrawCommand (index : Z) (mesh : Mesh.t) (instances : list InstanceId)
  (s : Locals) : Locals :=
  let instanceCount := Mach.GLuint (Z.of_nat (length instances)) in
  let command :=
    {| DrawCommand.elementCount := Mesh.elementCount mesh;
       DrawCommand.instanceCount := instanceCount;
       DrawCommand.elementOffset := Mesh.elementsIndex mesh;
       DrawCommand.vertexOffset := Mesh.verticesIndex mesh;
       DrawCommand.baseInstance := baseInstance s |} in
  {| buffers :=
       {| drawCommandBuffer := <[(k, index) := command]> (drawCommandBuffer (buffers s));
          transformBuffer := transformBuffer (buffers s);
          materialIDBuffer := materialIDBuffer (buffers s) |};
     baseInstance := Mach.GLuint (baseInstance s + instanceCount) |}.

(** [addTransform]. *)
Definition addTransform (index : Z) (instance : Instance) (s : Locals) : Locals :=
  {| buffers :=
       {| drawCommandBuffer := drawCommandBuffer (buffers s);
          transformBuffer :=
            <[(k, index) := toModelTransform instance]> (transformBuffer (buffers s));
          materialIDBuffer := materialIDBuffer (buffers s) |};
     baseInstance := baseInstance s |}.

(** [addMaterialID]. *)
Definition addMaterialID (index : Z) (instance : Instance) (s : Locals) : Locals :=
  {| buffers :=
       {| drawCommandBuffer := drawCommandBuffer (buffers s);
          transformBuffer := transformBuffer (buffers s);
          materialIDBuffer :=
            <[(k, index) := materialIDOf instance]> (materialIDBuffer (buffers s)) |};
     baseInstance := baseInstance s |}.

(** [addTransformAndMaterialID]. *)
Definition addTransformAndMaterialID (index : Z) (instance : Instance) (s : Locals)
  : Locals :=
  addMaterialID index instance (addTransform index instance s).

End Lambdas.

(** [processMesh]: the functions are called in the order they were given. *)
Fixpoint processMesh {S : Type} (index : Z) (meshInstances : MeshInstances)
  (funcs : list (Z -> Mesh.t -> list InstanceId -> S -> S)) (s : S) : S :=
  match funcs with
  | [] => s
  | func :: funcs' =>
      processMesh index meshInstances funcs'
        (func index (mesh meshInstances) (instances meshInstances) s)
  end.

(** The loop of [forEachDynamicMesh], from a given value of [index]. *)
Fixpoint forEachDynamicMesh_from {S : Type} (dynamics : list MeshInstances)
  (funcs : list (Z -> Mesh.t -> list InstanceId -> S -> S)) (index : Z) (s : S) : S :=
  match dynamics with
  | [] => s
  | meshInstances :: rest =>
      forEachDynamicMesh_from rest funcs (index + 1)
        (processMesh index meshInstances funcs s)
  end.

(** [forEachDynamicMesh]. *)
Definition forEachDynamicMesh {S : Type} (dynamics : list MeshInstances)
  (funcs : list (Z -> Mesh.t -> list InstanceId -> S -> S)) (s : S) : S :=
  forEachDynamicMesh_from dynamics funcs 0 s.

(** The loop over the instances of one mesh inside
    [forEachDynamicMeshInstance]; the counter [index] it captures by
    reference travels with the state. *)
Fixpoint forEachInstance {S : Type} (func : Z -> Instance -> S -> S)
  (instances : list InstanceId) (st : Z * S) : Z * S :=
  match instances with
  | [] => st
  | instanceID :: rest =>
      forEachInstance func rest
        (st.1 + 1, func st.1 (getInstanceById instanceID) st.2)
  end.

(** [forEachDynamicMeshInstance]: the instance loop is the first function
    handed to [forEachDynamicMesh], the mesh functions follow it. *)
Definition forEachDynamicMeshInstance {S : Type} (dynamics : list MeshInstances)
  (func : Z -> Instance -> S -> S)
  (meshFuncs : list (Z -> Mesh.t -> list InstanceId -> S -> S)) (s : S) : S :=
  (forEachDynamicMesh dynamics
     ((fun _ _ instances st => forEachInstance func instances st)
        :: map (fun f index mesh instances (st : Z * S) =>
                  (st.1, f index mesh instances st.2)) meshFuncs)
     (0, s)).2.

(** One call of a lambda of [updateDynamicObjects]: the unit in which the
    threads of the multi-threaded branch interleave. *)
Inductive Op : Type :=
| AddDrawCommand (index : Z) (mesh : Mesh.t) (instances : list InstanceId)
| AddTransform (index : Z) (instance : Instance)
| AddMaterialID (index : Z) (instance : Instance).

Definition exec (k : Z) (op : Op) (s : Locals) : Locals :=
  match op with
  | AddDrawCommand index mesh instances => addDrawCommand k index mesh instances s
  | AddTransform index instance => addTransform k index instance s
  | AddMaterialID index instance => addMaterialID k index instance s
  end.

Definition run (k : Z) (ops : list Op) (s : Locals) : Locals :=
  fold_left (fun s op => exec k op s) ops s.

(** The calls a traversal makes, in order: [perInstance] for every instance
    of a mesh, then [perMesh] for the mesh. *)
Fixpoint instance_ops (perInstance : Z -> Instance -> list Op) (index : Z)
  (instances : list InstanceId) : list Op :=
  match instances with
  | [] => []
  | instanceID :: rest =>
      perInstance index (getInstanceById instanceID)
        ++ instance_ops perInstance (index + 1) rest
  end.

Fixpoint mesh_ops (perInstance : Z -> Instance -> list Op)
  (perMesh : Z -> Mesh.t -> list InstanceId -> list Op)
  (meshIndex index : Z) (dynamics : list MeshInstances) : list Op :=
  match dynamics with
  | [] => []
  | meshInstances :: rest =>
      instance_ops perInstance index (instances meshInstances)
        ++ perMesh meshIndex (mesh meshInstances) (instances meshInstances)
        ++ mesh_ops perInstance perMesh (meshIndex + 1)
             (index + Z.of_nat (length (instances meshInstances))) rest
  end.

(** The calls of the three traversals of the multi-threaded branch:
    the thread [transforms], the thread [materialIDs] and the calling
    thread. *)
Definition transform_ops (dynamics : list MeshInstances) : list Op :=
  mesh_ops (fun index instance => [AddTransform index instance])
    (fun _ _ _ => []) 0 0 dynamics.

Definition materialID_ops (dynamics : list MeshInstances) : list Op :=
  mesh_ops (fun index instance => [AddMaterialID index instance])
    (fun _ _ _ => []) 0 0 dynamics.

Definition drawCommand_ops (dynamics : list MeshInstances) : list Op :=
  mesh_ops (fun _ _ => [])
    (fun index mesh instances => [AddDrawCommand index mesh instances]) 0 0 dynamics.

(** The calls of the single-threaded branch, in the order of its one
    traversal. *)
Definition single_ops (dynamics : list MeshInstances) : list Op :=
  mesh_ops (fun index instance => [AddTransform index instance; AddMaterialID index instance])
    (fun index mesh instances => [AddDrawCommand index mesh instances]) 0 0 dynamics.

(** The buffer a call stores to. *)
Inductive Target : Type := ToDrawCommands | ToTransforms | ToMaterialIDs.

Definition target (op : Op) : Target :=
  match op with
  | AddDrawCommand _ _ _ => ToDrawCommands
  | AddTransform _ _ => ToTransforms
  | AddMaterialID _ _ => ToMaterialIDs
  end.

(** [l] is an interleaving of [l1] and [l2]. *)
Inductive interleave {A : Type} : list A -> list A -> list A -> Prop :=
| interleave_nil : interleave [] [] []
| interleave_left x l1 l2 l :
    interleave l1 l2 l -> interleave (x :: l1) l2 (x :: l)
| interleave_right x l1 l2 l :
    interleave l1 l2 l -> interleave l1 (x :: l2) (x :: l).

(** The orders in which the calls of the three threads can take place. *)
Definition schedule_of (dynamics : list MeshInstances) (schedule : list Op) : Prop :=
  exists two,
    interleave (transform_ops dynamics) (materialID_ops dynamics) two
    /\ interleave two (drawCommand_ops dynamics) schedule.

(** [struct ModifiedDynamicObjectRanges]. *)
Record ModifiedDynamicObjectRanges : Type := {
  drawCommands : ModifiedRange.t;
  transforms : ModifiedRange.t;
  materialIDs : ModifiedRange.t
}.

(** [Renderer::updateDynamicObjects] from the declaration of
    [baseInstance] on, the three pointers having been taken.  In the
    multi-threaded branch the calls of the three threads take place in the
    order [schedule] gives; the single-threaded branch does not look at it. *)
Definition writeDynamicObjects (schedule : list Op) (self : t)
  : ModifiedDynamicObjectRanges * t :=
  let k := pointed_partition (m_partition self) in
  let locals := {| buffers := memory self; baseInstance := Mach.GLuint 0 |} in
  let locals' :=
    if negb (m_multiThreaded self)
    then forEachDynamicMeshInstance (m_dynamics self)
           (addTransformAndMaterialID k) [addDrawCommand k] locals
    else run k schedule locals in
  let drawingOffset :=
    PersistentMappedBuffer.partitionOffset multiBuffering
      (m_objectDrawing_buffer self) (m_partition self) in
  let count := Mach.GLsizei (Z.of_nat (length (m_dynamics self))) in
  ({| drawCommands :=
        ModifiedRange.make drawingOffset
          (Mach.ptrdiff_t (Mach.size_t (sizeof_DrawCommand * Mach.size_t count)));
      transforms :=
        ModifiedRange.make
          (PersistentMappedBuffer.partitionOffset multiBuffering
             (m_objectTransforms self) (m_partition self))
          (Mach.ptrdiff_t (Mach.size_t (sizeof_ModelTransform * baseInstance locals')));
      materialIDs :=
        ModifiedRange.make
          (PersistentMappedBuffer.partitionOffset multiBuffering
             (m_objectMaterialIDs self) (m_partition self))
          (Mach.ptrdiff_t (Mach.size_t (sizeof_MaterialID * baseInstance locals'))) |},
   {| m_dynamics := m_dynamics self;
      m_partition := m_partition self;
      m_multiThreaded := m_multiThreaded self;
      m_objectDrawing_buffer := m_objectDrawing_buffer self;
      m_objectDrawing_start := drawingOffset;
      m_objectDrawing_count := count;
      m_objectTransforms := m_objectTransforms self;
      m_objectMaterialIDs := m_objectMaterialIDs self;
      memory := buffers locals' |}).

(** [Renderer::updateDynamicObjects]: it starts by taking the pointers of
    the current partition of the three buffers, and [pointer] asserts. *)
Definition updateDynamicObjects (schedule : list Op) (self : t)
  : option (ModifiedDynamicObjectRanges * t) :=
  match PersistentMappedBuffer.pointer multiBuffering (m_objectDrawing_buffer self)
          (m_partition self),
        PersistentMappedBuffer.pointer multiBuffering (m_objectTransforms self)
          (m_partition self),
        PersistentMappedBuffer.pointer multiBuffering (m_objectMaterialIDs self)
          (m_partition self) with
  | Some drawCommandBuffer, Some transformBuffer, Some materialIDBuffer =>
      Some (writeDynamicObjects schedule self)
  | _, _, _ => None
  end.

(** The instance counts of the meshes, the total, and the sum of the
    counts of the meshes before position [i]. *)
Definition instance_counts (dynamics : list MeshInstances) : list Z :=
  map (fun meshInstances => Z.of_nat (length (instances meshInstances))) dynamics.

Definition sum (counts : list Z) : Z := fold_right Z.add 0 counts.

Definition totalDynamicInstances (dynamics : list MeshInstances) : Z :=
  sum (instance_counts dynamics).

Definition instances_before (dynamics : list MeshInstances) (i : nat) : Z :=
  sum (take i (instance_counts dynamics)).

(** The instances of all meshes, in the order of the traversal. *)
Definition all_instances (dynamics : list MeshInstances) : list InstanceId :=
  concat (map instances dynamics).

(** Storing [f] of each instance of [ids] at consecutive indices of
    partition [k], from [index] on. *)
Fixpoint store_all {V : Type} (f : Instance -> V) (k index : Z) (ids : list InstanceId)
  (buffer : gmap (Z * Z) V) : gmap (Z * Z) V :=
  match ids with
  | [] => buffer
  | instanceID :: rest =>
      store_all f k (index + 1) rest (<[(k, index) := f (getInstanceById instanceID)]> buffer)
  end.

(** [Renderer::setThreadingMode]. *)
Definition setThreadingMode (useMultipleThreads : bool) (self : t) : t :=
  {| m_dynamics := m_dynamics self;
     m_partition := m_partition self;
     m_multiThreaded := useMultipleThreads;
     m_objectDrawing_buffer := m_objectDrawing_buffer self;
     m_objectDrawing_start := m_objectDrawing_start self;
     m_objectDrawing_count := m_objectDrawing_count self;
     m_objectTransforms := m_objectTransforms self;
     m_objectMaterialIDs := m_objectMaterialIDs self;
     memory := memory self |}.

End Scene.

End DynamicObjects.

(** ** Rendering/Objects/Sync *)

Module Sync.

(** Modelled from the spec: Rendering/Objects/Sync.hpp and Sync.cpp are not
    among the sources.  A fence is unarmed (it holds no sync object), armed
    (device work has been submitted and the device has not reached the
    fence) or signalled. *)
Inductive t : Type := Unarmed | Armed | Signalled.

(** Modelled from the spec: [Sync::isInitialised], true of a fence that
    has been armed. *)
Definition isInitialised (self : t) : bool :=
  match self with Unarmed => false | Armed | Signalled => true end.

(** Modelled from the spec: [Sync::checkIfSignalled], the non-blocking
    poll; [reached] says whether the device has reached the fence by now.
    A fence that was never armed counts as signalled. *)
Definition checkIfSignalled (reached : bool) (self : t) : bool * t :=
  match self with
  | Unarmed => (true, Unarmed)
  | Armed => if reached then (true, Signalled) else (false, Armed)
  | Signalled => (true, Signalled)
  end.

(** Modelled from the spec: [Sync::waitForSignal (flush, timeout)], the
    blocking wait; [reached] says whether the device reaches the fence
    before the timeout.  False is a timeout. *)
Definition waitForSignal (reached : bool) (flush : bool) (timeout : Z) (self : t)
  : bool * t :=
  match self with
  | Unarmed => (true, Unarmed)
  | Armed => if reached then (true, Signalled) else (false, Armed)
  | Signalled => (true, Signalled)
  end.

(** Modelled from the spec: [Sync::initialise], which arms the fence;
    [created] says whether the driver hands out a sync object.  Arming a
    fence that is armed and not signalled fails. *)
Definition initialise (created : bool) (self : t) : bool * t :=
  match self with
  | Armed => (false, Armed)
  | Unarmed | Signalled => if created then (true, Armed) else (false, Unarmed)
  end.

(** Modelled from the spec: [Sync::clean], back to unarmed. *)
Definition clean (self : t) : t := Unarmed.

End Sync.

(** ** Rendering/Renderer/Renderer *)

Module Renderer.

(** [struct Resolution]. *)
Record Resolution : Type := {
  internalWidth : Z;
  internalHeight : Z;
  displayWidth : Z;
  displayHeight : Z
}.

(** [MultiDrawCommands<types::PMB>]: the buffer and the two counters the
    renderer sets. *)
Record DrawCommands : Type := {
  buffer : PersistentMappedBuffer.t;
  capacity : Z;
  count : Z
}.

(** What the renderer asks of [scene::Context]: the numbers of distinct
    meshes with a dynamic instance, of dynamic instances, of point lights
    and of spotlights, and the dynamic instances of each mesh. *)
Record SceneContext : Type := {
  uniqueDynamicMeshes : Z;
  dynamicInstances : Z;
  pointLights : Z;
  spotLights : Z;
  dynamicMeshInstances : list (@DynamicObjects.MeshInstances Z)
}.

(** The members whose classes are not among the sources ([Programs],
    [Materials], [Geometry], [GeometryBuffer], [LightBuffer], [Uniforms]):
    of each, whether it is initialised. *)
Record Built : Type := {
  programs : bool;
  materials : bool;
  geometry : bool;
  gbuffer : bool;
  lbuffer : bool;
  uniforms : bool
}.

Definition set_programs (v : bool) (self : Built) : Built :=
  {| programs := v;
     materials := materials self;
     geometry := geometry self;
     gbuffer := gbuffer self;
     lbuffer := lbuffer self;
     uniforms := uniforms self |}.

Definition set_materials (v : bool) (self : Built) : Built :=
  {| programs := programs self;
     materials := v;
     geometry := geometry self;
     gbuffer := gbuffer self;
     lbuffer := lbuffer self;
     uniforms := uniforms self |}.

Definition set_geometry (v : bool) (self : Built) : Built :=
  {| programs := programs self;
     materials := materials self;
     geometry := v;
     gbuffer := gbuffer self;
     lbuffer := lbuffer self;
     uniforms := uniforms self |}.

Definition set_gbuffer (v : bool) (self : Built) : Built :=
  {| programs := programs self;
     materials := materials self;
     geometry := geometry self;
     gbuffer := v;
     lbuffer := lbuffer self;
     uniforms := uniforms self |}.

Definition set_lbuffer (v : bool) (self : Built) : Built :=
  {| programs := programs self;
     materials := materials self;
     geometry := geometry self;
     gbuffer := gbuffer self;
     lbuffer := v;
     uniforms := uniforms self |}.

Definition set_uniforms (v : bool) (self : Built) : Built :=
  {| programs := programs self;
     materials := materials self;
     geometry := geometry self;
     gbuffer := gbuffer self;
     lbuffer := lbuffer self;
     uniforms := v |}.

(** [class Renderer]: the members the functions below read or write. *)
Record t : Type := {
  m_scene : option SceneContext;
  m_built : Built;
  m_dynamics : list (@DynamicObjects.MeshInstances Z);
  m_objectDrawing : DrawCommands;
  m_objectMaterialIDs : PersistentMappedBuffer.t;
  m_objectTransforms : PersistentMappedBuffer.t;
  m_lightDrawing : DrawCommands;
  m_lightTransforms : PersistentMappedBuffer.t;
  m_resolution : Resolution;
  m_partition : Z;
  m_syncs : list Sync.t;
  m_deferredRender : bool;
  m_multiThreaded : bool
}.

Definition set_m_scene (v : option SceneContext) (self : t) : t :=
  {| m_scene := v;
     m_built := m_built self;
     m_dynamics := m_dynamics self;
     m_objectDrawing := m_objectDrawing self;
     m_objectMaterialIDs := m_objectMaterialIDs self;
     m_objectTransforms := m_objectTransforms self;
     m_lightDrawing := m_lightDrawing self;
     m_lightTransforms := m_lightTransforms self;
     m_resolution := m_resolution self;
     m_partition := m_partition self;
     m_syncs := m_syncs self;
     m_deferredRender := m_deferredRender self;
     m_multiThreaded := m_multiThreaded self |}.

Definition set_m_built (v : Built) (self : t) : t :=
  {| m_scene := m_scene self;
     m_built := v;
     m_dynamics := m_dynamics self;
     m_objectDrawing := m_objectDrawing self;
     m_objectMaterialIDs := m_objectMaterialIDs self;
     m_objectTransforms := m_objectTransforms self;
     m_lightDrawing := m_lightDrawing self;
     m_lightTransforms := m_lightTransforms self;
     m_resolution := m_resolution self;
     m_partition := m_partition self;
     m_syncs := m_syncs self;
     m_deferredRender := m_deferredRender self;
     m_multiThreaded := m_multiThreaded self |}.

Definition set_m_dynamics (v : list (@DynamicObjects.MeshInstances Z)) (self : t) : t :=
  {| m_scene := m_scene self;
     m_built := m_built self;
     m_dynamics := v;
     m_objectDrawing := m_objectDrawing self;
     m_objectMaterialIDs := m_objectMaterialIDs self;
     m_objectTransforms := m_objectTransforms self;
     m_lightDrawing := m_lightDrawing self;
     m_lightTransforms := m_lightTransforms self;
     m_resolution := m_resolution self;
     m_partition := m_partition self;
     m_syncs := m_syncs self;
     m_deferredRender := m_deferredRender self;
     m_multiThreaded := m_multiThreaded self |}.

Definition set_m_objectDrawing (v : DrawCommands) (self : t) : t :=
  {| m_scene := m_scene self;
     m_built := m_built self;
     m_dynamics := m_dynamics self;
     m_objectDrawing := v;
     m_objectMaterialIDs := m_objectMaterialIDs self;
     m_objectTransforms := m_objectTransforms self;
     m_lightDrawing := m_lightDrawing self;
     m_lightTransforms := m_lightTransforms self;
     m_resolution := m_resolution self;
     m_partition := m_partition self;
     m_syncs := m_syncs self;
     m_deferredRender := m_deferredRender self;
     m_multiThreaded := m_multiThreaded self |}.

Definition set_m_objectMaterialIDs (v : PersistentMappedBuffer.t) (self : t) : t :=
  {| m_scene := m_scene self;
     m_built := m_built self;
     m_dynamics := m_dynamics self;
     m_objectDrawing := m_objectDrawing self;
     m_objectMaterialIDs := v;
     m_objectTransforms := m_objectTransforms self;
     m_lightDrawing := m_lightDrawing self;
     m_lightTransforms := m_lightTransforms self;
     m_resolution := m_resolution self;
     m_partition := m_partition self;
     m_syncs := m_syncs self;
     m_deferredRender := m_deferredRender self;
     m_multiThreaded := m_multiThreaded self |}.

Definition set_m_objectTransforms (v : PersistentMappedBuffer.t) (self : t) : t :=
  {| m_scene := m_scene self;
     m_built := m_built self;
     m_dynamics := m_dynamics self;
     m_objectDrawing := m_objectDrawing self;
     m_objectMaterialIDs := m_objectMaterialIDs self;
     m_objectTransforms := v;
     m_lightDrawing := m_lightDrawing self;
     m_lightTransforms := m_lightTransforms self;
     m_resolution := m_resolution self;
     m_partition := m_partition self;
     m_syncs := m_syncs self;
     m_deferredRender := m_deferredRender self;
     m_multiThreaded := m_multiThreaded self |}.

Definition set_m_lightDrawing (v : DrawCommands) (self : t) : t :=
  {| m_scene := m_scene self;
     m_built := m_built self;
     m_dynamics := m_dynamics self;
     m_objectDrawing := m_objectDrawing self;
     m_objectMaterialIDs := m_objectMaterialIDs self;
     m_objectTransforms := m_objectTransforms self;
     m_lightDrawing := v;
     m_lightTransforms := m_lightTransforms self;
     m_resolution := m_resolution self;
     m_partition := m_partition self;
     m_syncs := m_syncs self;
     m_deferredRender := m_deferredRender self;
     m_multiThreaded := m_multiThreaded self |}.

Definition set_m_lightTransforms (v : PersistentMappedBuffer.t) (self : t) : t :=
  {| m_scene := m_scene self;
     m_built := m_built self;
     m_dynamics := m_dynamics self;
     m_objectDrawing := m_objectDrawing self;
     m_objectMaterialIDs := m_objectMaterialIDs self;
     m_objectTransforms := m_objectTransforms self;
     m_lightDrawing := m_lightDrawing self;
     m_lightTransforms := v;
     m_resolution := m_resolution self;
     m_partition := m_partition self;
     m_syncs := m_syncs self;
     m_deferredRender := m_deferredRender self;
     m_multiThreaded := m_multiThreaded self |}.

Definition set_m_resolution (v : Resolution) (self : t) : t :=
  {| m_scene := m_scene self;
     m_built := m_built self;
     m_dynamics := m_dynamics self;
     m_objectDrawing := m_objectDrawing self;
     m_objectMaterialIDs := m_objectMaterialIDs self;
     m_objectTransforms := m_objectTransforms self;
     m_lightDrawing := m_lightDrawing self;
     m_lightTransforms := m_lightTransforms self;
     m_resolution := v;
     m_partition := m_partition self;
     m_syncs := m_syncs self;
     m_deferredRender := m_deferredRender self;
     m_multiThreaded := m_multiThreaded self |}.

Definition set_m_partition (v : Z) (self : t) : t :=
  {| m_scene := m_scene self;
     m_built := m_built self;
     m_dynamics := m_dynamics self;
     m_objectDrawing := m_objectDrawing self;
     m_objectMaterialIDs := m_objectMaterialIDs self;
     m_objectTransforms := m_objectTransforms self;
     m_lightDrawing := m_lightDrawing self;
     m_lightTransforms := m_lightTransforms self;
     m_resolution := m_resolution self;
     m_partition := v;
     m_syncs := m_syncs self;
     m_deferredRender := m_deferredRender self;
     m_multiThreaded := m_multiThreaded self |}.

Definition set_m_syncs (v : list Sync.t) (self : t) : t :=
  {| m_scene := m_scene self;
     m_built := m_built self;
     m_dynamics := m_dynamics self;
     m_objectDrawing := m_objectDrawing self;
     m_objectMaterialIDs := m_objectMaterialIDs self;
     m_objectTransforms := m_objectTransforms self;
     m_lightDrawing := m_lightDrawing self;
     m_lightTransforms := m_lightTransforms self;
     m_resolution := m_resolution self;
     m_partition := m_partition self;
     m_syncs := v;
     m_deferredRender := m_deferredRender self;
     m_multiThreaded := m_multiThreaded self |}.

Definition set_m_deferredRender (v : bool) (self : t) : t :=
  {| m_scene := m_scene self;
     m_built := m_built self;
     m_dynamics := m_dynamics self;
     m_objectDrawing := m_objectDrawing self;
     m_objectMaterialIDs := m_objectMaterialIDs self;
     m_objectTransforms := m_objectTransforms self;
     m_lightDrawing := m_lightDrawing self;
     m_lightTransforms := m_lightTransforms self;
     m_resolution := m_resolution self;
     m_partition := m_partition self;
     m_syncs := m_syncs self;
     m_deferredRender := v;
     m_multiThreaded := m_multiThreaded self |}.

Definition set_m_multiThreaded (v : bool) (self : t) : t :=
  {| m_scene := m_scene self;
     m_built := m_built self;
     m_dynamics := m_dynamics self;
     m_objectDrawing := m_objectDrawing self;
     m_objectMaterialIDs := m_objectMaterialIDs self;
     m_objectTransforms := m_objectTransforms self;
     m_lightDrawing := m_lightDrawing self;
     m_lightTransforms := m_lightTransforms self;
     m_resolution := m_resolution self;
     m_partition := m_partition self;
     m_syncs := m_syncs self;
     m_deferredRender := m_deferredRender self;
     m_multiThreaded := v |}.

(** What the driver and the classes outside the sources answer while the
    renderer is built. *)
Record Builds : Type := {
  programs_ok : bool;
  materials_ok : bool;
  objectDrawing_driver : Driver;
  objectMaterialIDs_driver : Driver;
  objectTransforms_driver : Driver;
  lightDrawing_driver : Driver;
  lightTransforms_driver : Driver;
  geometry_ok : bool;
  gbuffer_ok : bool;
  lbuffer_ok : bool;
  uniforms_ok : bool
}.

(** The steps of [initialise], for the record of which were taken. *)
Inductive Step : Type :=
| BuildPrograms | BuildMaterials | BuildDynamicObjectBuffers | BuildLightBuffers
| BuildGeometry | SetResolutions | BuildFramebuffers | BuildUniforms
| FillDynamicInstances.

Section Types.

(** From Rendering/Renderer/Types.hpp, which is not among the sources:
    [types::multiBuffering], [types::lightVolumeCount] and the sizes of the
    element types. *)
Variable multiBuffering : Z.
Variable lightVolumeCount : Z.
Variables sizeof_DrawCommand sizeof_ModelTransform sizeof_MaterialID : Z.

(** A renderer as its default member initialisers leave it. *)
Definition fresh : t :=
  {| m_scene := None;
     m_built := {| programs := false; materials := false; geometry := false;
                   gbuffer := false; lbuffer := false; uniforms := false |};
     m_dynamics := [];
     m_objectDrawing := {| buffer := PersistentMappedBuffer.default; capacity := 0; count := 0 |};
     m_objectMaterialIDs := PersistentMappedBuffer.default;
     m_objectTransforms := PersistentMappedBuffer.default;
     m_lightDrawing := {| buffer := PersistentMappedBuffer.default; capacity := 0; count := 0 |};
     m_lightTransforms := PersistentMappedBuffer.default;
     m_resolution := {| internalWidth := 0; internalHeight := 0;
                        displayWidth := 0; displayHeight := 0 |};
     m_partition := 0;
     m_syncs := replicate (Z.to_nat multiBuffering) Sync.Unarmed;
     m_deferredRender := true;
     m_multiThreaded := true |}.

(** A member of a class outside the sources is initialised by a
    successful [initialise] and, as the headers say of their classes, left
    as it was by a failed one. *)
Definition built_by (ok current : bool) : bool := if ok then true else current.

(** [buildPrograms]. *)
Definition buildPrograms (b : Builds) (self : t) : bool * t :=
  (programs_ok b,
   set_m_built (set_programs (built_by (programs_ok b) (programs (m_built self)))
                  (m_built self)) self).

(** [buildMaterials]. *)
Definition buildMaterials (b : Builds) (self : t) : bool * t :=
  (materials_ok b,
   set_m_built (set_materials (built_by (materials_ok b) (materials (m_built self)))
                  (m_built self)) self).

(** [buildDynamicObjectBuffers].  [m_scene] has been set by the caller. *)
Definition buildDynamicObjectBuffers (b : Builds) (self : t) : bool * t :=
  match m_scene self with
  | None => (false, self)
  | Some scene =>
      let drawCommandSize :=
        Mach.ptrdiff_t (Mach.size_t (uniqueDynamicMeshes scene * sizeof_DrawCommand)) in
      let materialIDSize :=
        Mach.ptrdiff_t (Mach.size_t (dynamicInstances scene * sizeof_MaterialID)) in
      let transformSize :=
        Mach.ptrdiff_t (Mach.size_t (dynamicInstances scene * sizeof_ModelTransform)) in
      let '(ok1, buffer1, _) :=
        PersistentMappedBuffer.initialise_size multiBuffering (objectDrawing_driver b)
          (buffer (m_objectDrawing self)) drawCommandSize false false in
      let self1 :=
        set_m_objectDrawing
          {| buffer := buffer1; capacity := capacity (m_objectDrawing self);
             count := count (m_objectDrawing self) |} self in
      if negb ok1 then (false, self1)
      else
        let '(ok2, buffer2, _) :=
          PersistentMappedBuffer.initialise_size multiBuffering (objectMaterialIDs_driver b)
            (m_objectMaterialIDs self1) materialIDSize false false in
        let self2 := set_m_objectMaterialIDs buffer2 self1 in
        if negb ok2 then (false, self2)
        else
          let '(ok3, buffer3, _) :=
            PersistentMappedBuffer.initialise_size multiBuffering (objectTransforms_driver b)
              (m_objectTransforms self2) transformSize false false in
          let self3 := set_m_objectTransforms buffer3 self2 in
          if negb ok3 then (false, self3)
          else
            (true,
             set_m_objectDrawing
               {| buffer := buffer (m_objectDrawing self3);
                  capacity := Mach.GLuint (uniqueDynamicMeshes scene);
                  count := 0 |} self3)
  end.

(** [buildLightBuffers]. *)
Definition buildLightBuffers (b : Builds) (self : t) : bool * t :=
  match m_scene self with
  | None => (false, self)
  | Some scene =>
      let count' := Mach.size_t (Mach.size_t (pointLights scene + spotLights scene) + 1) in
      let transformSize := Mach.ptrdiff_t (Mach.size_t (count' * sizeof_ModelTransform)) in
      let drawCommandSize :=
        Mach.ptrdiff_t (Mach.size_t (lightVolumeCount * sizeof_DrawCommand)) in
      let '(ok1, buffer1, _) :=
        PersistentMappedBuffer.initialise_size multiBuffering (lightDrawing_driver b)
          (buffer (m_lightDrawing self)) drawCommandSize false false in
      let self1 :=
        set_m_lightDrawing
          {| buffer := buffer1; capacity := capacity (m_lightDrawing self);
             count := count (m_lightDrawing self) |} self in
      if negb ok1 then (false, self1)
      else
        let '(ok2, buffer2, _) :=
          PersistentMappedBuffer.initialise_size multiBuffering (lightTransforms_driver b)
            (m_lightTransforms self1) transformSize false false in
        let self2 := set_m_lightTransforms buffer2 self1 in
        if negb ok2 then (false, self2)
        else
          (true,
           set_m_lightDrawing
             {| buffer := buffer (m_lightDrawing self2);
                capacity := Mach.GLsizei count';
                count := 0 |} self2)
  end.

(** [buildGeometry]. *)
Definition buildGeometry (b : Builds) (self : t) : bool * t :=
  (geometry_ok b,
   set_m_built (set_geometry (built_by (geometry_ok b) (geometry (m_built self)))
                  (m_built self)) self).

(** [buildFramebuffers]: the light buffer is only tried after the geometry
    buffer has succeeded. *)
Definition buildFramebuffers (b : Builds) (self : t) : bool * t :=
  let self1 :=
    set_m_built (set_gbuffer (built_by (gbuffer_ok b) (gbuffer (m_built self)))
                   (m_built self)) self in
  if negb (gbuffer_ok b) then (false, self1)
  else
    (lbuffer_ok b,
     set_m_built (set_lbuffer (built_by (lbuffer_ok b) (lbuffer (m_built self1)))
                    (m_built self1)) self1).

(** [buildUniforms]. *)
Definition buildUniforms (b : Builds) (self : t) : bool * t :=
  (uniforms_ok b,
   set_m_built (set_uniforms (built_by (uniforms_ok b) (uniforms (m_built self)))
                  (m_built self)) self).

(** [fillDynamicInstances]: the meshes that have a dynamic instance. *)
Definition fillDynamicInstances (self : t) : t :=
  match m_scene self with
  | None => self
  | Some scene =>
      set_m_dynamics
        (List.filter
           (fun mi => negb (Nat.eqb (length (DynamicObjects.instances mi)) 0))
           (dynamicMeshInstances scene)) self
  end.

(** [setInternalResolution]; [b] answers for the rebuild it triggers. *)
Definition setInternalResolution (b : Builds) (resolution : Z * Z) (self : t) : t :=
  if negb (internalWidth (m_resolution self) =? resolution.1)
     || negb (internalHeight (m_resolution self) =? resolution.2)
  then
    let self1 :=
      set_m_resolution
        {| internalWidth := resolution.1; internalHeight := resolution.2;
           displayWidth := displayWidth (m_resolution self);
           displayHeight := displayHeight (m_resolution self) |} self in
    if gbuffer (m_built self1) && lbuffer (m_built self1)
    then (buildUniforms b (buildFramebuffers b self1).2).2
    else self1
  else self.

(** [setDisplayResolution]. *)
Definition setDisplayResolution (resolution : Z * Z) (self : t) : t :=
  set_m_resolution
    {| internalWidth := internalWidth (m_resolution self);
       internalHeight := internalHeight (m_resolution self);
       displayWidth := resolution.1; displayHeight := resolution.2 |} self.

(** [setThreadingMode] and [setRenderingMode]. *)
Definition setThreadingMode (useMultipleThreads : bool) (self : t) : t :=
  set_m_multiThreaded useMultipleThreads self.

Definition setRenderingMode (useDeferredRendering : bool) (self : t) : t :=
  set_m_deferredRender useDeferredRendering self.

(** [Renderer::initialise].  [b] answers for the builder steps, [resize]
    for the rebuild inside [setInternalResolution].  The result is the
    returned flag, the renderer after the call and the steps taken. *)
Definition initialise (b resize : Builds) (scene : SceneContext)
  (internalRes displayRes : Z * Z) (self : t) : bool * t * list Step :=
  let self := set_m_scene (Some scene) self in
  let '(ok, self) := buildPrograms b self in
  if negb ok then (false, self, [BuildPrograms])
  else
  let '(ok, self) := buildMaterials b self in
  if negb ok then (false, self, [BuildPrograms; BuildMaterials])
  else
  let '(ok, self) := buildDynamicObjectBuffers b self in
  if negb ok
  then (false, self, [BuildPrograms; BuildMaterials; BuildDynamicObjectBuffers])
  else
  let '(ok, self) := buildLightBuffers b self in
  if negb ok
  then (false, self,
        [BuildPrograms; BuildMaterials; BuildDynamicObjectBuffers; BuildLightBuffers])
  else
  let '(ok, self) := buildGeometry b self in
  if negb ok
  then (false, self,
        [BuildPrograms; BuildMaterials; BuildDynamicObjectBuffers; BuildLightBuffers;
         BuildGeometry])
  else
  let self := setInternalResolution resize internalRes self in
  let self := setDisplayResolution displayRes self in
  let '(ok, self) := buildFramebuffers b self in
  if negb ok
  then (false, self,
        [BuildPrograms; BuildMaterials; BuildDynamicObjectBuffers; BuildLightBuffers;
         BuildGeometry; SetResolutions; BuildFramebuffers])
  else
  let '(ok, self) := buildUniforms b self in
  if negb ok
  then (false, self,
        [BuildPrograms; BuildMaterials; BuildDynamicObjectBuffers; BuildLightBuffers;
         BuildGeometry; SetResolutions; BuildFramebuffers; BuildUniforms])
  else
  (true, fillDynamicInstances self,
   [BuildPrograms; BuildMaterials; BuildDynamicObjectBuffers; BuildLightBuffers;
    BuildGeometry; SetResolutions; BuildFramebuffers; BuildUniforms;
    FillDynamicInstances]).

(** [Renderer::clean]. *)
Definition clean (self : t) : t :=
  {| m_scene := None;
     m_built := {| programs := false; materials := false; geometry := false;
                   gbuffer := false; lbuffer := false; uniforms := false |};
     m_dynamics := [];
     m_objectDrawing :=
       {| buffer := (PersistentMappedBuffer.clean (buffer (m_objectDrawing self))).1;
          capacity := capacity (m_objectDrawing self);
          count := count (m_objectDrawing self) |};
     m_objectMaterialIDs := (PersistentMappedBuffer.clean (m_objectMaterialIDs self)).1;
     m_objectTransforms := (PersistentMappedBuffer.clean (m_objectTransforms self)).1;
     m_lightDrawing :=
       {| buffer := (PersistentMappedBuffer.clean (buffer (m_lightDrawing self))).1;
          capacity := capacity (m_lightDrawing self);
          count := count (m_lightDrawing self) |};
     m_lightTransforms := (PersistentMappedBuffer.clean (m_lightTransforms self)).1;
     m_resolution := {| internalWidth := 0; internalHeight := 0;
                        displayWidth := 0; displayHeight := 0 |};
     m_partition := m_partition self;
     m_syncs := map Sync.clean (m_syncs self);
     m_deferredRender := true;
     m_multiThreaded := m_multiThreaded self |}.

(** Whether nothing of the renderer is initialised: the state [clean]
    leaves and [initialise] starts from. *)
Definition uninitialised (self : t) : bool :=
  match m_scene self with None => true | Some _ => false end
  && negb (programs (m_built self)) && negb (materials (m_built self))
  && negb (geometry (m_built self)) && negb (gbuffer (m_built self))
  && negb (lbuffer (m_built self)) && negb (uniforms (m_built self))
  && negb (PersistentMappedBuffer.isInitialised (buffer (m_objectDrawing self)))
  && negb (PersistentMappedBuffer.isInitialised (m_objectMaterialIDs self))
  && negb (PersistentMappedBuffer.isInitialised (m_objectTransforms self))
  && negb (PersistentMappedBuffer.isInitialised (buffer (m_lightDrawing self)))
  && negb (PersistentMappedBuffer.isInitialised (m_lightTransforms self))
  && forallb (fun sync => negb (Sync.isInitialised sync)) (m_syncs self)
  && match m_dynamics self with [] => true | _ => false end.

(** *** One frame *)

(** The tasks [render] starts with [std::async]. *)
Inductive Task : Type :=
| SceneUniforms | DynamicObjects | DirectionalLights | PointLights | SpotLights
| LightDrawCommands.

Definition Task_eqb (a b : Task) : bool :=
  match a, b with
  | SceneUniforms, SceneUniforms | DynamicObjects, DynamicObjects
  | DirectionalLights, DirectionalLights | PointLights, PointLights
  | SpotLights, SpotLights | LightDrawCommands, LightDrawCommands => true
  | _, _ => false
  end.

(** [std::launch::async] and [std::launch::deferred]. *)
Inductive Policy : Type := launch_async | launch_deferred.

(** What happens during a frame, as far as the order of fence and tasks is
    concerned.  [Launch] is the call of [std::async] and [Run] the start of
    the body of a task; both record the value [m_partition] has at that
    moment and the state of the fence of that partition. *)
Inductive Event : Type :=
| CheckIfSignalled (partition : Z) (result : bool)
| WaitForSignal (partition : Z) (forceFlush : bool) (timeout : Z) (result : bool)
| AssertionFailed
| BindBlocksToPartition (partition : Z)
| Launch (task : Task) (policy : Policy) (partition : Z) (fence : Sync.t)
| Run (task : Task) (partition : Z) (fence : Sync.t)
| Get (task : Task)
| DrawStatic
| DrawDynamic (partition : Z)
| Blit
| ArmFence (partition : Z) (result : bool)
| AdvancePartition (partition : Z).

(** What the world outside answers during one frame: whether the device
    has reached the fence of the current partition when polled, whether it
    reaches it before the wait times out, whether a new fence can be
    created, and, for a task on a thread of its own, whether that thread
    starts the body before the calling thread goes on. *)
Record Device : Type := {
  reached_at_poll : bool;
  reached_in_wait : bool;
  fence_created : bool;
  starts_at_once : Task -> bool
}.

(** A function that may stop at a failed assertion. *)
Inductive Outcome (A : Type) : Type :=
| Completed (a : A)
| Aborted.
Arguments Completed {A} a.
Arguments Aborted {A}.

(** [m_syncs[partition]]. *)
Definition sync_at (self : t) (partition : Z) : Sync.t :=
  default Sync.Unarmed (m_syncs self !! Z.to_nat partition).

Definition set_sync (partition : Z) (sync : Sync.t) (self : t) : t :=
  set_m_syncs (<[Z.to_nat partition := sync]> (m_syncs self)) self.

(** One second in nanoseconds. *)
Definition oneSecond : Z := 1000000000.

(** [Renderer::syncWithGPUIfNecessary]. *)
Definition syncWithGPUIfNecessary (device : Device) (self : t)
  : Outcome t * list Event :=
  let sync := sync_at self (m_partition self) in
  if Sync.isInitialised sync
  then
    let '(signalled, sync1) := Sync.checkIfSignalled (reached_at_poll device) sync in
    let e1 := [CheckIfSignalled (m_partition self) signalled] in
    if negb signalled
    then
      let '(result, sync2) :=
        Sync.waitForSignal (reached_in_wait device) true oneSecond sync1 in
      let e2 := [WaitForSignal (m_partition self) true oneSecond result] in
      if result
      then (Completed (set_sync (m_partition self) sync2 self), e1 ++ e2)
      else (Aborted, e1 ++ e2 ++ [AssertionFailed])
    else (Completed (set_sync (m_partition self) sync1 self), e1)
  else (Completed self, []).

(** The futures of [struct ASyncActions] that are valid, each with whether
    the body of its task has run. *)
Definition ASyncActions : Type := list (Task * bool).

(** The body of a task starts: it reads [m_partition]. *)
Definition run_body (task : Task) (self : t) : Event :=
  Run task (m_partition self) (sync_at self (m_partition self)).

(** [std::async (policy, ...)].  Under the policy [deferred] the body runs
    at the first [get] or [wait].  Under the policy [async] it runs on a
    thread of its own, at some moment between the launch and the first
    [get] or [wait]; the two ends of that span are embedded, the body
    starts at once or it starts when the future is waited for. *)
Definition async (device : Device) (policy : Policy) (task : Task) (self : t)
  (actions : ASyncActions) : ASyncActions * list Event :=
  let launch := Launch task policy (m_partition self) (sync_at self (m_partition self)) in
  match policy with
  | launch_async =>
      if starts_at_once device task
      then (actions ++ [(task, true)], [launch; run_body task self])
      else (actions ++ [(task, false)], [launch])
  | launch_deferred => (actions ++ [(task, false)], [launch])
  end.

Definition has_run (task : Task) (actions : ASyncActions) : option bool :=
  snd <$> List.find (fun a => Task_eqb a.1 task) actions.

(** [future.get()]: runs a deferred body that has not run, and leaves the
    future invalid. *)
Definition get (task : Task) (self : t) (actions : ASyncActions)
  : ASyncActions * list Event :=
  match has_run task actions with
  | Some ran =>
      (List.filter (fun a => negb (Task_eqb a.1 task)) actions,
       (if ran then [] else [run_body task self]) ++ [Get task])
  | None => (actions, [])
  end.

(** [waitIfValid] of [~ASyncActions]: runs a deferred body that has not
    run. *)
Definition waitIfValid (task : Task) (self : t) (actions : ASyncActions)
  : list Event :=
  match has_run task actions with
  | Some false => [run_body task self]
  | _ => []
  end.

(** [~ASyncActions], in the order of its calls. *)
Definition destroy_actions (self : t) (actions : ASyncActions) : list Event :=
  waitIfValid SceneUniforms self actions
    ++ waitIfValid LightDrawCommands self actions
    ++ waitIfValid DirectionalLights self actions
    ++ waitIfValid DynamicObjects self actions
    ++ waitIfValid PointLights self actions
    ++ waitIfValid SpotLights self actions.

(** [Renderer::deferredRender]: an empty body. *)
Definition deferredRender (self : t) (actions : ASyncActions)
  : ASyncActions * list Event :=
  (actions, []).

(** [Renderer::forwardRender]: the four uniform tasks are joined, the
    static objects drawn, the dynamic-object task joined and the dynamic
    objects drawn. *)
Definition forwardRender (self : t) (actions : ASyncActions)
  : ASyncActions * list Event :=
  let '(actions, e1) := get SceneUniforms self actions in
  let '(actions, e2) := get DirectionalLights self actions in
  let '(actions, e3) := get PointLights self actions in
  let '(actions, e4) := get SpotLights self actions in
  let '(actions, e5) := get DynamicObjects self actions in
  (actions,
   e1 ++ e2 ++ e3 ++ e4 ++ [DrawStatic] ++ e5 ++ [DrawDynamic (m_partition self)]).

(** The tasks [render] launches, in order. *)
Definition launch_all (device : Device) (policy : Policy) (self : t)
  : ASyncActions * list Event :=
  let '(actions, e1) := async device policy SceneUniforms self [] in
  let '(actions, e2) := async device policy DynamicObjects self actions in
  let '(actions, e3) := async device policy DirectionalLights self actions in
  let '(actions, e4) := async device policy PointLights self actions in
  let '(actions, e5) := async device policy SpotLights self actions in
  if m_deferredRender self
  then
    let '(actions, e6) := async device policy LightDrawCommands self actions in
    (actions, e1 ++ e2 ++ e3 ++ e4 ++ e5 ++ e6)
  else (actions, e1 ++ e2 ++ e3 ++ e4 ++ e5).

(** [Renderer::render] after its call of [syncWithGPUIfNecessary]. *)
Definition frame (device : Device) (self : t) : Outcome t * list Event :=
  let e2 := [BindBlocksToPartition (m_partition self)] in
  let policy := if m_multiThreaded self then launch_async else launch_deferred in
  let '(actions, e3) := launch_all device policy self in
  let '(actions, e4) :=
    if m_deferredRender self
    then deferredRender self actions
    else forwardRender self actions in
  let e5 := [Blit] in
  let '(armed, sync) :=
    Sync.initialise (fence_created device) (sync_at self (m_partition self)) in
  let e6 := [ArmFence (m_partition self) armed] in
  let self := set_sync (m_partition self) sync self in
  if negb armed
  then (Aborted, e2 ++ e3 ++ e4 ++ e5 ++ e6 ++ [AssertionFailed])
  else
    let self :=
      set_m_partition
        (Mach.size_t (Mach.size_t (m_partition self + 1) mod multiBuffering)) self in
    let e7 := [AdvancePartition (m_partition self)] in
    (Completed self, e2 ++ e3 ++ e4 ++ e5 ++ e6 ++ e7 ++ destroy_actions self actions).

(** [Renderer::render]. *)
Definition render (device : Device) (self : t) : Outcome t * list Event :=
  match syncWithGPUIfNecessary device self with
  | (Aborted, e1) => (Aborted, e1)
  | (Completed self, e1) =>
      let '(outcome, e) := frame device self in
      (outcome, e1 ++ e)
  end.

(** The public member functions, as calls with their arguments and with
    what the world outside answers. *)
Inductive Call : Type :=
| CallInitialise (b resize : Builds) (scene : SceneContext) (internalRes displayRes : Z * Z)
| CallClean
| CallRender (device : Device)
| CallSetThreadingMode (useMultipleThreads : bool)
| CallSetRenderingMode (useDeferredRendering : bool)
| CallSetInternalResolution (b : Builds) (resolution : Z * Z)
| CallSetDisplayResolution (resolution : Z * Z).

Definition call (c : Call) (self : t) : Outcome t :=
  match c with
  | CallInitialise b resize scene internalRes displayRes =>
      Completed (initialise b resize scene internalRes displayRes self).1.2
  | CallClean => Completed (clean self)
  | CallRender device => (render device self).1
  | CallSetThreadingMode b => Completed (setThreadingMode b self)
  | CallSetRenderingMode b => Completed (setRenderingMode b self)
  | CallSetInternalResolution b resolution =>
      Completed (setInternalResolution b resolution self)
  | CallSetDisplayResolution resolution =>
      Completed (setDisplayResolution resolution self)
  end.

(** The renderers a program can have: a fresh one, and what calls that
    return make of it. *)
Inductive reachable : t -> Prop :=
| reachable_fresh : reachable fresh
| reachable_call c self self' :
    reachable self -> call c self = Completed self' -> reachable self'.

(** Event classes used to state the order of a frame. *)
Definition is_launch (e : Event) : bool :=
  match e with Launch _ _ _ _ => true | _ => false end.

Definition is_run (e : Event) : bool :=
  match e with Run _ _ _ => true | _ => false end.

Definition is_arm (e : Event) : bool :=
  match e with ArmFence _ _ => true | _ => false end.

Definition is_advance (e : Event) : bool :=
  match e with AdvancePartition _ => true | _ => false end.

(** What follows the arming of the fence. *)
Fixpoint after_arm (trace : list Event) : list Event :=
  match trace with
  | [] => []
  | e :: rest => if is_arm e then rest else after_arm rest
  end.

(** What the builder steps of [initialise] do not touch: the partition
    index, the fences and the scene pointer. *)
Definition frame_state (self : t) : Z * list Sync.t * option SceneContext :=
  (m_partition self, m_syncs self, m_scene self).

(** All steps of [initialise], in order. *)
Definition all_steps : list Step :=
  [BuildPrograms; BuildMaterials; BuildDynamicObjectBuffers; BuildLightBuffers;
   BuildGeometry; SetResolutions; BuildFramebuffers; BuildUniforms;
   FillDynamicInstances].

(** The partition index is one of the partitions and there is a fence
    for every partition. *)
Definition well_formed (self : t) : Prop :=
  0 <= m_partition self < multiBuffering
  /\ length (m_syncs self) = Z.to_nat multiBuffering.

(** A task is started, or its body starts, on partition [k] while the
    fence of [k] is not armed-and-unsignalled. *)
Definition safe_for (k : Z) (e : Event) : Prop :=
  match e with
  | Launch _ _ partition fence | Run _ partition fence =>
      partition = k /\ fence <> Sync.Armed
  | _ => True
  end.

End Types.

Arguments Completed {A} a.
Arguments Aborted {A}.

End Renderer.

(** ** Renderer: the light passes *)

Module Lights.

Section Scene.

(** The lights of the scene library, their uniform counterparts and the
    model transform of glm are left abstract, as are the lambdas that
    translate a light; [uniforms] takes the intensity scale, which depends
    on [m_pbs] alone. *)
Context {ScenePointLight UniformPointLight SceneSpotLight UniformSpotlight
         ModelTransform : Type}.

Variable pointUniforms : ScenePointLight -> bool -> UniformPointLight.
Variable pointTransforms : ScenePointLight -> ModelTransform.
Variable spotUniforms : SceneSpotLight -> bool -> UniformSpotlight.
Variable spotTransforms : SceneSpotLight -> ModelTransform.

(** [types::multiBuffering] and the sizes [sizeof] yields in the two
    template functions. *)
Variable multiBuffering : Z.
Variables countSize pointLightSize spotlightSize matrixSize : Z.

(** [Uniforms::Data<FullBlock<T>, Block>]: the offset of the block, and the
    memory [data] points to, a count followed by an array of lights. *)
Record Block (U : Type) : Type := {
  block_offset : Z;
  block_count : Z;
  block_objects : gmap Z U
}.
Arguments block_offset {U} _.
Arguments block_count {U} _.
Arguments block_objects {U} _.

(** The members of [Renderer] the light passes read or write; the memory of
    [m_lightTransforms] is an array of transforms per partition. *)
Record t : Type := {
  m_deferredRender : bool;
  m_pbs : bool;
  m_partition : Z;
  m_lightTransforms : PersistentMappedBuffer.t;
  lightTransformMemory : gmap (Z * Z) ModelTransform;
  pointLightBlock : Block UniformPointLight;
  spotlightBlock : Block UniformSpotlight
}.

(** [struct ModifiedLightVolumeRanges]. *)
Record ModifiedLightVolumeRanges : Type := {
  uniforms : ModifiedRange.t;
  transforms : ModifiedRange.t
}.

(** The loop of [processLightUniforms]: [objects[i] = func (lights[i],
    intensityScale)] for [i] from the given index on. *)
Fixpoint write_uniforms {L U : Type} (func : L -> bool -> U) (scale : bool) (i : Z)
  (lights : list L) (objects : gmap Z U) : gmap Z U :=
  match lights with
  | [] => objects
  | light :: rest => write_uniforms func scale (i + 1) rest (<[i := func light scale]> objects)
  end.

(** The loop of [processLightVolumes], transform part:
    [transforms[transformOffset + i] = transFunc (lights[i])]. *)
Fixpoint write_transforms {L : Type} (transFunc : L -> ModelTransform) (k : Z) (i : Z)
  (lights : list L) (memory : gmap (Z * Z) ModelTransform) : gmap (Z * Z) ModelTransform :=
  match lights with
  | [] => memory
  | light :: rest =>
      write_transforms transFunc k (i + 1) rest (<[(k, i) := transFunc light]> memory)
  end.

(** [processLightUniforms].  The loop runs over the first [count] lights,
    [count] being the 32-bit size of the vector. *)
Definition processLightUniforms {L U : Type} (pbs : bool) (uniforms : Block U)
  (lights : list L) (func : L -> bool -> U) (lightSize : Z)
  : ModifiedRange.t * Block U :=
  let count := Mach.GLuint (Z.of_nat (length lights)) in
  (ModifiedRange.make (block_offset uniforms)
     (Mach.ptrdiff_t (Mach.size_t (countSize + Mach.size_t (lightSize * count)))),
   {| block_offset := block_offset uniforms;
      block_count := count;
      block_objects :=
        write_uniforms func pbs 0 (take (Z.to_nat count) lights) (block_objects uniforms) |}).

(** [processLightVolumes]: the block as above, and the transforms in the
    partition [pointer (m_partition)] starts; [None] when [pointer]
    asserts. *)
Definition processLightVolumes {L U : Type} (self : t) (uniforms : Block U)
  (lights : list L) (transformOffset : Z) (uniFunc : L -> bool -> U)
  (transFunc : L -> ModelTransform) (lightSize : Z)
  : option (ModifiedLightVolumeRanges * Block U * gmap (Z * Z) ModelTransform) :=
  match PersistentMappedBuffer.pointer multiBuffering (m_lightTransforms self)
          (m_partition self) with
  | None => None
  | Some transforms =>
  let k := if m_partition self <? multiBuffering then m_partition self else 0 in
  let count := Mach.GLuint (Z.of_nat (length lights)) in
  let partitionOffset :=
    PersistentMappedBuffer.partitionOffset multiBuffering (m_lightTransforms self)
      (m_partition self) in
  let matrixOffset :=
    Mach.ptrdiff_t (Mach.size_t (partitionOffset + Mach.size_t (matrixSize * transformOffset))) in
  Some
  ({| uniforms :=
        ModifiedRange.make (block_offset uniforms)
          (Mach.ptrdiff_t (Mach.size_t (countSize + Mach.size_t (lightSize * count))));
      transforms :=
        ModifiedRange.make matrixOffset
          (Mach.ptrdiff_t (Mach.size_t (matrixSize * count))) |},
   {| block_offset := block_offset uniforms;
      block_count := count;
      block_objects :=
        write_uniforms uniFunc (m_pbs self) 0 (take (Z.to_nat count) lights)
          (block_objects uniforms) |},
   write_transforms transFunc k transformOffset (take (Z.to_nat count) lights)
     (lightTransformMemory self))
  end.

(** [Renderer::updatePointLights]. *)
Definition updatePointLights (lights : list ScenePointLight) (transformOffset : Z)
  (self : t) : option (ModifiedLightVolumeRanges * t) :=
  let block := pointLightBlock self in
  if m_deferredRender self
  then
    match
      processLightVolumes self block lights transformOffset pointUniforms pointTransforms
        pointLightSize
    with
    | None => None
    | Some (ranges, block', memory') =>
    Some
    (ranges,
     {| m_deferredRender := m_deferredRender self; m_pbs := m_pbs self;
        m_partition := m_partition self; m_lightTransforms := m_lightTransforms self;
        lightTransformMemory := memory';
        pointLightBlock := block'; spotlightBlock := spotlightBlock self |})
    end
  else
    let '(range, block') :=
      processLightUniforms (m_pbs self) block lights pointUniforms pointLightSize in
    Some
    ({| uniforms := range; transforms := ModifiedRange.make 0 0 |},
     {| m_deferredRender := m_deferredRender self; m_pbs := m_pbs self;
        m_partition := m_partition self; m_lightTransforms := m_lightTransforms self;
        lightTransformMemory := lightTransformMemory self;
        pointLightBlock := block'; spotlightBlock := spotlightBlock self |}).

(** [Renderer::updateSpotlights]. *)
Definition updateSpotlights (lights : list SceneSpotLight) (transformOffset : Z)
  (self : t) : option (ModifiedLightVolumeRanges * t) :=
  let block := spotlightBlock self in
  if m_deferredRender self
  then
    match
      processLightVolumes self block lights transformOffset spotUniforms spotTransforms
        spotlightSize
    with
    | None => None
    | Some (ranges, block', memory') =>
    Some
    (ranges,
     {| m_deferredRender := m_deferredRender self; m_pbs := m_pbs self;
        m_partition := m_partition self; m_lightTransforms := m_lightTransforms self;
        lightTransformMemory := memory';
        pointLightBlock := pointLightBlock self; spotlightBlock := block' |})
    end
  else
    let '(range, block') :=
      processLightUniforms (m_pbs self) block lights spotUniforms spotlightSize in
    Some
    ({| uniforms := range; transforms := ModifiedRange.make 0 0 |},
     {| m_deferredRender := m_deferredRender self; m_pbs := m_pbs self;
        m_partition := m_partition self; m_lightTransforms := m_lightTransforms self;
        lightTransformMemory := lightTransformMemory self;
        pointLightBlock := pointLightBlock self; spotlightBlock := block' |}).

End Scene.

Arguments block_offset {U} _.
Arguments block_count {U} _.
Arguments block_objects {U} _.

End Lights.

(** ** Sample inputs *)

Module Samples.

(** A driver that grants everything it is asked for. *)
Definition willing : Driver :=
  {| gen_name := 7; storage_ok := true; map_address := Ptr 1 0 |}.

(** Drivers that fail at one step each. *)
Definition no_names : Driver :=
  {| gen_name := 0; storage_ok := true; map_address := Ptr 1 0 |}.
Definition no_storage : Driver :=
  {| gen_name := 7; storage_ok := false; map_address := Ptr 1 0 |}.
Definition no_mapping : Driver :=
  {| gen_name := 7; storage_ok := true; map_address := nullptr |}.

(** A buffer of three partitions of sixteen bytes. *)
Definition triple : PersistentMappedBuffer.t :=
  (PersistentMappedBuffer.initialise_size 3 willing PersistentMappedBuffer.default
     16 false false).1.2.

(** A scene whose instances are numbered: the instance is its number, its
    transform and its material identifier are read off the number. *)
Definition getInstanceById (instanceID : nat) : nat := instanceID.
Definition toModelTransform (instance : nat) : Z := 100 + Z.of_nat instance.
Definition materialIDOf (instance : nat) : Z := Z.of_nat instance mod 4.

Definition cube : Mesh.t :=
  {| Mesh.verticesIndex := 0; Mesh.elementsIndex := 0; Mesh.elementCount := 36 |}.
Definition quad : Mesh.t :=
  {| Mesh.verticesIndex := 24; Mesh.elementsIndex := 36; Mesh.elementCount := 6 |}.

(** Two dynamic meshes, with two and with three instances. *)
Definition two_meshes : list (@DynamicObjects.MeshInstances nat) :=
  [ {| DynamicObjects.mesh := cube; DynamicObjects.instances := [10; 11]%nat |};
    {| DynamicObjects.mesh := quad; DynamicObjects.instances := [20; 21; 22]%nat |} ].

Definition buffer_of (name partitionSize : Z) : PersistentMappedBuffer.t :=
  (PersistentMappedBuffer.initialise_size 3
     {| gen_name := name; storage_ok := true; map_address := Ptr name 0 |}
     PersistentMappedBuffer.default partitionSize false false).1.2.

Definition objects (dynamics : list (@DynamicObjects.MeshInstances nat)) (partition : Z)
  : @DynamicObjects.t nat Z Z :=
  {| DynamicObjects.m_dynamics := dynamics;
     DynamicObjects.m_partition := partition;
     DynamicObjects.m_multiThreaded := true;
     DynamicObjects.m_objectDrawing_buffer := buffer_of 11 40;
     DynamicObjects.m_objectDrawing_start := 0;
     DynamicObjects.m_objectDrawing_count := 0;
     DynamicObjects.m_objectTransforms := buffer_of 12 240;
     DynamicObjects.m_objectMaterialIDs := buffer_of 13 20;
     DynamicObjects.memory :=
       {| DynamicObjects.drawCommandBuffer := ∅;
          DynamicObjects.transformBuffer := ∅;
          DynamicObjects.materialIDBuffer := ∅ |} |}.

(** The pass over the sample scene, with three partitions and elements of
    20, 48 and 4 bytes. *)
Definition updateDynamicObjects :=
  DynamicObjects.updateDynamicObjects getInstanceById toModelTransform materialIDOf
    3 20 48 4.

(** The schedule in which the calling thread is done before the two
    others start, and [materialIDs] before [transforms]. *)
Definition draw_first (dynamics : list (@DynamicObjects.MeshInstances nat))
  : list (@DynamicObjects.Op nat nat) :=
  DynamicObjects.drawCommand_ops getInstanceById dynamics
    ++ DynamicObjects.materialID_ops getInstanceById dynamics
    ++ DynamicObjects.transform_ops getInstanceById dynamics.

(** One dynamic mesh with five instances. *)
Definition one_mesh : list (@DynamicObjects.MeshInstances nat) :=
  [ {| DynamicObjects.mesh := cube;
       DynamicObjects.instances := [1; 2; 3; 4; 5]%nat |} ].

(** A scene with one dynamic mesh of five instances and no lights. *)
Definition scene : Renderer.SceneContext :=
  {| Renderer.uniqueDynamicMeshes := 1;
     Renderer.dynamicInstances := 5;
     Renderer.pointLights := 0;
     Renderer.spotLights := 0;
     Renderer.dynamicMeshInstances :=
       [ {| DynamicObjects.mesh := cube; DynamicObjects.instances := [1; 2; 3; 4; 5] |} ] |}.

Definition driver (name : Z) : Driver :=
  {| gen_name := name; storage_ok := true; map_address := Ptr name 0 |}.

(** Every builder step succeeds. *)
Definition all_ok : Renderer.Builds :=
  {| Renderer.programs_ok := true;
     Renderer.materials_ok := true;
     Renderer.objectDrawing_driver := driver 21;
     Renderer.objectMaterialIDs_driver := driver 22;
     Renderer.objectTransforms_driver := driver 23;
     Renderer.lightDrawing_driver := driver 24;
     Renderer.lightTransforms_driver := driver 25;
     Renderer.geometry_ok := true;
     Renderer.gbuffer_ok := true;
     Renderer.lbuffer_ok := true;
     Renderer.uniforms_ok := true |}.

(** The materials fail to load; everything else would succeed. *)
Definition materials_fail : Renderer.Builds :=
  {| Renderer.programs_ok := true;
     Renderer.materials_ok := false;
     Renderer.objectDrawing_driver := driver 21;
     Renderer.objectMaterialIDs_driver := driver 22;
     Renderer.objectTransforms_driver := driver 23;
     Renderer.lightDrawing_driver := driver 24;
     Renderer.lightTransforms_driver := driver 25;
     Renderer.geometry_ok := true;
     Renderer.gbuffer_ok := true;
     Renderer.lbuffer_ok := true;
     Renderer.uniforms_ok := true |}.

(** The shaders fail to compile. *)
Definition programs_fail : Renderer.Builds :=
  {| Renderer.programs_ok := false;
     Renderer.materials_ok := true;
     Renderer.objectDrawing_driver := driver 21;
     Renderer.objectMaterialIDs_driver := driver 22;
     Renderer.objectTransforms_driver := driver 23;
     Renderer.lightDrawing_driver := driver 24;
     Renderer.lightTransforms_driver := driver 25;
     Renderer.geometry_ok := true;
     Renderer.gbuffer_ok := true;
     Renderer.lbuffer_ok := true;
     Renderer.uniforms_ok := true |}.

(** Triple buffering, three kinds of light volume, elements of 20, 48 and
    4 bytes. *)
Definition initialise (b : Renderer.Builds) (self : Renderer.t)
  : bool * Renderer.t * list Renderer.Step :=
  Renderer.initialise 3 3 20 48 4 b b scene (1280, 720) (1280, 720) self.

(** A renderer built for [scene], in its default modes (deferred
    rendering, multi-threaded) and in forward mode. *)
Definition ready : Renderer.t := (initialise all_ok (Renderer.fresh 3)).1.2.

Definition ready_forward : Renderer.t := Renderer.setRenderingMode false ready.

(** The devices of a frame: one that is always done in time, one that
    never is. *)
Definition prompt : Renderer.Device :=
  {| Renderer.reached_at_poll := true; Renderer.reached_in_wait := true;
     Renderer.fence_created := true; Renderer.starts_at_once := fun _ => true |}.

Definition hung : Renderer.Device :=
  {| Renderer.reached_at_poll := false; Renderer.reached_in_wait := false;
     Renderer.fence_created := true; Renderer.starts_at_once := fun _ => true |}.

(** Not done when polled, done before the wait is over. *)
Definition slow : Renderer.Device :=
  {| Renderer.reached_at_poll := false; Renderer.reached_in_wait := true;
     Renderer.fence_created := true; Renderer.starts_at_once := fun _ => true |}.

(** The device never reaches a fence, and the threads of the tasks start
    late. *)
Definition hung_and_late : Renderer.Device :=
  {| Renderer.reached_at_poll := false; Renderer.reached_in_wait := false;
     Renderer.fence_created := true; Renderer.starts_at_once := fun _ => false |}.

(** The renderer after the given frames, if none stopped at an assertion. *)
Fixpoint frames (devices : list Renderer.Device) (self : Renderer.t)
  : Renderer.Outcome Renderer.t :=
  match devices with
  | [] => Renderer.Completed self
  | device :: rest =>
      match (Renderer.render 3 device self).1 with
      | Renderer.Completed self' => frames rest self'
      | Renderer.Aborted => Renderer.Aborted
      end
  end.

(** Single-threaded, deferred rendering: the renderer after two frames. *)
Definition after_two_frames : Renderer.t :=
  match frames [hung; hung] (Renderer.setThreadingMode false ready) with
  | Renderer.Completed self => self
  | Renderer.Aborted => Renderer.fresh 3
  end.

(** Single-threaded, forward rendering: the renderer after three frames. *)
Definition after_three_frames : Renderer.t :=
  match frames [hung; hung; hung] (Renderer.setThreadingMode false ready_forward) with
  | Renderer.Completed self => self
  | Renderer.Aborted => Renderer.fresh 3
  end.

(** Lights are numbers; the uniform entry of a light is its number paired
    with the scale flag, its transform ten times its number. *)
Definition lightUniforms (light : Z) (pbs : bool) : Z * bool := (light, pbs).
Definition lightTransforms (light : Z) : Z := 10 * light.

Definition lights (deferred : bool) : @Lights.t (Z * bool) (Z * bool) Z :=
  {| Lights.m_deferredRender := deferred;
     Lights.m_pbs := true;
     Lights.m_partition := 1;
     Lights.m_lightTransforms := buffer_of 25 144;
     Lights.lightTransformMemory := ∅;
     Lights.pointLightBlock :=
       {| Lights.block_offset := 256; Lights.block_count := 0; Lights.block_objects := ∅ |};
     Lights.spotlightBlock :=
       {| Lights.block_offset := 512; Lights.block_count := 0; Lights.block_objects := ∅ |} |}.

(** The light passes with three partitions, a count of 16 bytes, lights of
    32 and 48 bytes and matrices of 48 bytes. *)
Definition updatePointLights
  : list Z -> Z -> @Lights.t (Z * bool) (Z * bool) Z ->
    option (Lights.ModifiedLightVolumeRanges * @Lights.t (Z * bool) (Z * bool) Z) :=
  Lights.updatePointLights lightUniforms lightTransforms 3 16 32 48.
Definition updateSpotlights
  : list Z -> Z -> @Lights.t (Z * bool) (Z * bool) Z ->
    option (Lights.ModifiedLightVolumeRanges * @Lights.t (Z * bool) (Z * bool) Z) :=
  Lights.updateSpotlights lightUniforms lightTransforms 3 16 48 48.

End Samples.

(** ** The life of a persistently-mapped buffer *)

Module BufferLife.

(** The member functions of [PersistentMappedBuffer] that change the
    object, each with what the driver answers during the call. *)
Inductive Op : Type :=
| Initialise_size (drv : Driver) (size : Z) (read coherent : bool)
| Initialise_data (drv : Driver) (dataSize : Z) (read write coherent : bool)
| Clean.

Section Partitioned.

Variable Partitions : Z.

(** One call: the object after it and the calls made to OpenGL. *)
Definition step (op : Op) (self : PersistentMappedBuffer.t)
  : PersistentMappedBuffer.t * list GLCall :=
  match op with
  | Initialise_size drv size read coherent =>
      let r := PersistentMappedBuffer.initialise_size Partitions drv self size read coherent in
      (r.1.2, r.2)
  | Initialise_data drv dataSize read write coherent =>
      let r :=
        PersistentMappedBuffer.initialise_data Partitions drv self dataSize read write
          coherent in
      (r.1.2, r.2)
  | Clean => PersistentMappedBuffer.clean self
  end.

(** A sequence of calls on one object. *)
Fixpoint steps (ops : list Op) (self : PersistentMappedBuffer.t)
  : PersistentMappedBuffer.t * list GLCall :=
  match ops with
  | [] => (self, [])
  | op :: rest =>
      let '(self1, c1) := step op self in
      let '(self2, c2) := steps rest self1 in
      (self2, c1 ++ c2)
  end.

End Partitioned.

(** The byte size of the data handed to [initialise] is one a
    [GLsizeiptr] holds. *)
Definition sized (op : Op) : Prop :=
  match op with
  | Initialise_data _ dataSize _ _ _ => 0 <= dataSize < 2 ^ 63
  | _ => True
  end.

End BufferLife.

(** ** Renderer: the draw commands of the light volumes *)

Module LightDrawing.

Section Types.

(** [types::multiBuffering] and [sizeof (MultiDrawElementsIndirectCommand)]. *)
Variable multiBuffering : Z.
Variable sizeof_DrawCommand : Z.

(** The members of [Renderer] that [updateLightDrawCommands] reads or
    writes: [m_partition], [m_lightDrawing] with the memory its buffer is
    mapped to, an array of commands per partition, and the three shapes of
    [m_geometry]. *)
Record t : Type := {
  m_partition : Z;
  m_lightDrawing_buffer : PersistentMappedBuffer.t;
  m_lightDrawing_start : Z;
  m_lightDrawing_count : Z;
  quad : Mesh.t;
  sphere : Mesh.t;
  cone : Mesh.t;
  lightCommands : gmap (Z * Z) DrawCommand.t
}.

(** [Renderer::updateLightDrawCommands (const GLuint pointLights,
    const GLuint spotlights)]; [None] when [pointer] asserts. *)
Definition updateLightDrawCommands (pointLights spotlights : Z) (self : t)
  : option (ModifiedRange.t * t) :=
  let quads := Mach.GLuint 1 in
  let bufferOffset :=
    PersistentMappedBuffer.partitionOffset multiBuffering (m_lightDrawing_buffer self)
      (m_partition self) in
  match PersistentMappedBuffer.pointer multiBuffering (m_lightDrawing_buffer self)
          (m_partition self) with
  | None => None
  | Some _ =>
      let k := if m_partition self <? multiBuffering then m_partition self else 0 in
      let command0 :=
        {| DrawCommand.elementCount := Mesh.elementCount (quad self);
           DrawCommand.instanceCount := quads;
           DrawCommand.elementOffset := Mesh.elementsIndex (quad self);
           DrawCommand.vertexOffset := Mesh.verticesIndex (quad self);
           DrawCommand.baseInstance := 0 |} in
      let command1 :=
        {| DrawCommand.elementCount := Mesh.elementCount (sphere self);
           DrawCommand.instanceCount := pointLights;
           DrawCommand.elementOffset := Mesh.elementsIndex (sphere self);
           DrawCommand.vertexOffset := Mesh.verticesIndex (sphere self);
           DrawCommand.baseInstance := quads |} in
      let command2 :=
        {| DrawCommand.elementCount := Mesh.elementCount (cone self);
           DrawCommand.instanceCount := spotlights;
           DrawCommand.elementOffset := Mesh.elementsIndex (cone self);
           DrawCommand.vertexOffset := Mesh.verticesIndex (cone self);
           DrawCommand.baseInstance := Mach.GLuint (quads + pointLights) |} in
      let count := Mach.GLsizei 3 in
      Some
        (ModifiedRange.make bufferOffset
           (Mach.ptrdiff_t (Mach.size_t (sizeof_DrawCommand * Mach.size_t count))),
         {| m_partition := m_partition self;
            m_lightDrawing_buffer := m_lightDrawing_buffer self;
            m_lightDrawing_start := bufferOffset;
            m_lightDrawing_count := count;
            quad := quad self;
            sphere := sphere self;
            cone := cone self;
            lightCommands :=
              <[(k, 2) := command2]>
                (<[(k, 1) := command1]> (<[(k, 0) := command0]> (lightCommands self))) |})
  end.

End Types.

End LightDrawing.

(** ** The names OpenGL hands out *)

Module Handles.

(** The creation and the deletion of a named object. *)
Inductive Event : Type :=
| Created (name : Z)
| Deleted (name : Z).

(** Removing one occurrence of a name; [None] when it is not there. *)
Fixpoint remove_first (name : Z) (names : list Z) : option (list Z) :=
  match names with
  | [] => None
  | n :: rest =>
      if n =? name then Some rest
      else match remove_first name rest with
           | Some rest' => Some (n :: rest')
           | None => None
           end
  end.

(** The names a program holds after a run of events, from the names it
    held before.  A creation that yields zero yields no object.  [None]:
    the program deleted a name it did not hold. *)
Fixpoint held (events : list Event) (names : list Z) : option (list Z) :=
  match events with
  | [] => Some names
  | Created name :: rest => held rest (if name =? 0 then names else name :: names)
  | Deleted name :: rest =>
      match remove_first name names with
      | Some names' => held rest names'
      | None => None
      end
  end.

(** The names an object answers for: its own when it has one. *)
Definition own (initialised : bool) (name : Z) : list Z :=
  if initialised then [name] else [].

(** The buffer events among the calls of a buffer. *)
Definition of_buffer_calls (calls : list GLCall) : list Event :=
  flat_map (fun c =>
    match c with
    | glGenBuffers name => [Created name]
    | glDeleteBuffers name => [Deleted name]
    | _ => []
    end) calls.

End Handles.

(** ** Rendering/Objects/Framebuffer.cpp *)

Module Framebuffer.

Inductive Call : Type :=
| glGenFramebuffers (name : Z)
| glDeleteFramebuffers (name : Z).

Record t : Type := { m_buffer : Z }.

Definition default : t := {| m_buffer := 0 |}.

(** Declared in Framebuffer.hpp, which is not among the sources; [clean]
    shows it to be the test of the name against zero. *)
Definition isInitialised (self : t) : bool := negb (m_buffer self =? 0).

Definition getID (self : t) : Z := m_buffer self.

(** [Framebuffer::clean]. *)
Definition clean (self : t) : t * list Call :=
  if isInitialised self
  then ({| m_buffer := 0 |}, [glDeleteFramebuffers (m_buffer self)])
  else (self, []).

(** [Framebuffer::initialise]; [name] is what [glGenFramebuffers] writes
    into the local [buffer], zero when it has no name to give. *)
Definition initialise (name : Z) (self : t) : bool * t * list Call :=
  let buffer := name in
  if buffer =? 0 then (false, self, [glGenFramebuffers name])
  else
    let '(_, c) := clean self in
    (true, {| m_buffer := buffer |}, [glGenFramebuffers name] ++ c).

(** [Framebuffer::operator= (Framebuffer&&)] for two distinct objects: the
    target after the call, the source after the call, the calls. *)
Definition move_assign (self move : t) : t * t * list Call :=
  let '(_, c) := clean self in
  ({| m_buffer := m_buffer move |}, {| m_buffer := 0 |}, c).

(** The member functions that change the object. *)
Inductive Op : Type :=
| Initialise (name : Z)
| Clean.

Definition step (op : Op) (self : t) : t * list Call :=
  match op with
  | Initialise name => let r := initialise name self in (r.1.2, r.2)
  | Clean => clean self
  end.

Fixpoint steps (ops : list Op) (self : t) : t * list Call :=
  match ops with
  | [] => (self, [])
  | op :: rest =>
      let '(self1, c1) := step op self in
      let '(self2, c2) := steps rest self1 in
      (self2, c1 ++ c2)
  end.

Definition events (calls : list Call) : list Handles.Event :=
  map (fun c =>
    match c with
    | glGenFramebuffers name => Handles.Created name
    | glDeleteFramebuffers name => Handles.Deleted name
    end) calls.

End Framebuffer.

(** ** Rendering/Objects/Shader.cpp *)

Definition GL_TRUE : Z := 1.

Module Shader.

Inductive Call : Type :=
| glCreateShader (type : Z) (name : Z)
| glShaderSource (name : Z)
| glCompileShader (name : Z)
| glGetShaderiv_COMPILE_STATUS (name : Z) (status : Z)
| glGetShaderInfoLog (name : Z)
| glDeleteShader (name : Z).

Record t : Type := { m_shader : Z; m_type : Z }.

Definition default : t := {| m_shader := 0; m_type := 0 |}.

(** Declared in Shader.hpp, which is not among the sources; [clean] shows
    it to be the test of the name against zero. *)
Definition isInitialised (self : t) : bool := negb (m_shader self =? 0).

Definition getID (self : t) : Z := m_shader self.

(** What the driver answers during [initialise]: the name of the new
    shader, zero when it cannot create one, and the status of the
    compilation. *)
Record Driver : Type := {
  shader_name : Z;
  compile_status : Z
}.

(** [Shader::clean]. *)
Definition clean (self : t) : t * list Call :=
  if isInitialised self
  then ({| m_shader := 0; m_type := 0 |}, [glDeleteShader (m_shader self)])
  else (self, []).

(** [Shader::initialise].  The local [compileStatus] starts at zero and
    [glGetShaderiv] leaves it alone when the name is not that of a shader. *)
Definition initialise (drv : Driver) (type : Z) (self : t) : bool * t * list Call :=
  let shaderID := shader_name drv in
  let compileStatus := if shaderID =? 0 then 0 else compile_status drv in
  let c1 := [glCreateShader type shaderID; glShaderSource shaderID; glCompileShader shaderID;
             glGetShaderiv_COMPILE_STATUS shaderID compileStatus] in
  if negb (compileStatus =? GL_TRUE)
  then (false, self, c1 ++ [glGetShaderInfoLog shaderID])
  else
    let '(_, c2) := clean self in
    (true, {| m_shader := shaderID; m_type := type |}, c1 ++ c2).

(** [Shader::operator= (Shader&&)] for two distinct objects. *)
Definition move_assign (self move : t) : t * t * list Call :=
  let '(_, c) := clean self in
  ({| m_shader := m_shader move; m_type := m_type move |},
   {| m_shader := 0; m_type := 0 |}, c).

Inductive Op : Type :=
| Initialise (drv : Driver) (type : Z)
| Clean.

Definition step (op : Op) (self : t) : bool * t * list Call :=
  match op with
  | Initialise drv type => initialise drv type self
  | Clean => let r := clean self in (true, r.1, r.2)
  end.

(** A sequence of calls on one object: the object, the calls, and the
    names of the shaders created by the calls of [initialise] that
    returned false. *)
Fixpoint steps (ops : list Op) (self : t) : t * list Call * list Z :=
  match ops with
  | [] => (self, [], [])
  | op :: rest =>
      let '(ok, self1, c1) := step op self in
      let '(self2, c2, failed) := steps rest self1 in
      (self2, c1 ++ c2,
       match op with
       | Initialise drv _ =>
           if negb ok && negb (shader_name drv =? 0) then shader_name drv :: failed
           else failed
       | Clean => failed
       end)
  end.

Definition events (calls : list Call) : list Handles.Event :=
  flat_map (fun c =>
    match c with
    | glCreateShader _ name => [Handles.Created name]
    | glDeleteShader name => [Handles.Deleted name]
    | _ => []
    end) calls.

End Shader.

(** ** Rendering/Objects/Program.cpp *)

Module Program.

Inductive Call : Type :=
| glCreateProgram (name : Z)
| glDeleteProgram (name : Z)
| glAttachShader (program shader : Z)
| glLinkProgram (program : Z)
| glGetProgramiv_LINK_STATUS (program : Z) (status : Z)
| glGetProgramInfoLog (program : Z).

Record t : Type := { m_program : Z }.

Definition default : t := {| m_program := 0 |}.

(** Declared in Program.hpp, which is not among the sources; [clean]
    shows it to be the test of the name against zero. *)
Definition isInitialised (self : t) : bool := negb (m_program self =? 0).

Definition getID (self : t) : Z := m_program self.

(** [Program::clean]. *)
Definition clean (self : t) : t * list Call :=
  if isInitialised self
  then ({| m_program := 0 |}, [glDeleteProgram (m_program self)])
  else (self, []).

(** [Program::initialise]; [name] is what [glCreateProgram] returns. *)
Definition initialise (name : Z) (self : t) : bool * t * list Call :=
  let program := name in
  if program =? 0 then (false, self, [glCreateProgram name])
  else
    let '(_, c) := clean self in
    (true, {| m_program := program |}, [glCreateProgram name] ++ c).

(** [Program::operator= (Program&&)] for two distinct objects. *)
Definition move_assign (self move : t) : t * t * list Call :=
  let '(_, c) := clean self in
  ({| m_program := m_program move |}, {| m_program := 0 |}, c).

(** [Program::attachShader]. *)
Definition attachShader (shader : Shader.t) (self : t) : list Call :=
  if Shader.isInitialised shader
  then [glAttachShader (m_program self) (Shader.getID shader)]
  else [].

(** [Program::link]; [status] is what the driver reports of the link.
    The local [linkStatus] starts at zero and [glGetProgramiv] leaves it
    alone when the name is not that of a program. *)
Definition link (status : Z) (self : t) : bool * list Call :=
  let linkStatus := if m_program self =? 0 then 0 else status in
  let c := [glLinkProgram (m_program self);
            glGetProgramiv_LINK_STATUS (m_program self) linkStatus] in
  if negb (linkStatus =? GL_TRUE)
  then (false, c ++ [glGetProgramInfoLog (m_program self)])
  else (true, c).

Inductive Op : Type :=
| Initialise (name : Z)
| Clean.

Definition step (op : Op) (self : t) : t * list Call :=
  match op with
  | Initialise name => let r := initialise name self in (r.1.2, r.2)
  | Clean => clean self
  end.

Fixpoint steps (ops : list Op) (self : t) : t * list Call :=
  match ops with
  | [] => (self, [])
  | op :: rest =>
      let '(self1, c1) := step op self in
      let '(self2, c2) := steps rest self1 in
      (self2, c1 ++ c2)
  end.

Definition events (calls : list Call) : list Handles.Event :=
  flat_map (fun c =>
    match c with
    | glCreateProgram name => [Handles.Created name]
    | glDeleteProgram name => [Handles.Deleted name]
    | _ => []
    end) calls.

End Program.

(** ** Rendering/Renderer/Drawing/ShadowMaps.cpp *)

Module ShadowMaps.

Section Scene.

(** The spotlights of the scene library and glm are not part of the
    repository: a spotlight is left abstract, with the two members the
    class reads and the view transform [glm::lookAt] makes of its position,
    its direction and the up direction of the scene. *)
Context {SpotLight LightView : Type}.
Variable getId : SpotLight -> Z.
Variable getCastShadow : SpotLight -> bool.
Variable lookAt : SpotLight -> LightView.

(** [ShadowMaps::maxResolution], from ShadowMaps.hpp, and
    [sizeof (glm::mat4)]. *)
Variable maxResolution : Z.
Variable sizeof_mat4 : Z.

(** The framebuffer, whether the texture array [m_maps] is initialised
    (its class is not among the sources), the identifiers of the lights
    that cast shadows and the map from identifier to layer. *)
Record t : Type := {
  m_fbo : Framebuffer.t;
  m_maps : bool;
  m_lights : list Z;
  m_ids : gmap Z Z
}.

Definition default : t :=
  {| m_fbo := Framebuffer.default; m_maps := false; m_lights := []; m_ids := ∅ |}.

(** [ShadowMaps::operator[]]. *)
Definition lookup (self : t) (lightID : Z) : Z :=
  match m_ids self !! lightID with
  | Some index => index
  | None => -1
  end.

(** [ShadowMaps::isInitialised]. *)
Definition isInitialised (self : t) : bool :=
  Framebuffer.isInitialised (m_fbo self) && m_maps self.

(** What the driver answers during [initialise]: the name of the new
    framebuffer, whether the texture array can be created, and
    GL_MAX_TEXTURE_SIZE. *)
Record Driver : Type := {
  fbo_name : Z;
  maps_ok : bool;
  maxTextureResolution : Z
}.

(** The loop of [initialise] over the spotlights; [GLint] is [int], as
    [GLsizei] is. *)
Fixpoint addShadowCasters (spotlights : list SpotLight) (st : list Z * gmap Z Z)
  : list Z * gmap Z Z :=
  match spotlights with
  | [] => st
  | light :: rest =>
      addShadowCasters rest
        (if getCastShadow light
         then (st.1 ++ [getId light],
               <[getId light := Mach.GLsizei (Z.of_nat (length st.1))]> st.2)
         else st)
  end.

(** [ShadowMaps::initialise].  The result is the returned flag, the object
    after the call and the arguments of [allocateImmutableStorage]:
    resolution, resolution and depth. *)
Definition initialise (drv : Driver) (spotlights : list SpotLight) (textureUnit : Z)
  (self : t) : bool * t * option (Z * Z * Z) :=
  let '(fbo_ok, fbo, _) := Framebuffer.initialise (fbo_name drv) Framebuffer.default in
  if negb (fbo_ok && maps_ok drv) then (false, self, None)
  else
    let '(lights, ids) := addShadowCasters spotlights ([], ∅) in
    let resolution := Mach.GLsizei (Z.min (maxTextureResolution drv) maxResolution) in
    let depth := Mach.GLsizei (Z.of_nat (length lights)) in
    (true,
     {| m_fbo := fbo; m_maps := true; m_lights := lights; m_ids := ids |},
     Some (resolution, resolution, depth)).

(** [ShadowMaps::clean]. *)
Definition clean (self : t) : t :=
  {| m_fbo := (Framebuffer.clean (m_fbo self)).1; m_maps := false;
     m_lights := []; m_ids := ∅ |}.

(** The loop of [setUniforms] over the spotlights of the scene, with the
    locals [currentIndex] and [currentID] and the memory [pointer] points
    to; [None] when [m_lights] is read past its end. *)
Fixpoint writeLightViews (lights : list Z) (spotlights : list SpotLight)
  (currentIndex currentID : Z) (pointer : gmap Z LightView)
  : option (Z * gmap Z LightView) :=
  match spotlights with
  | [] => Some (currentIndex, pointer)
  | spotlight :: rest =>
      if getId spotlight =? currentID
      then
        let pointer' := <[currentIndex := lookAt spotlight]> pointer in
        let currentIndex' := Mach.size_t (currentIndex + 1) in
        if currentIndex' <? Z.of_nat (length lights)
        then
          match lights !! Z.to_nat currentIndex' with
          | Some nextID => writeLightViews lights rest currentIndex' nextID pointer'
          | None => None
          end
        else Some (currentIndex', pointer')
      else writeLightViews lights rest currentIndex currentID pointer
  end.

(** [ShadowMaps::setUniforms].  [scene] is the list of spotlights of the
    scene pointed to, [None] for a null pointer; the result is [None] when
    the assertion fails or [m_lights] is read past its end. *)
Definition setUniforms (scene : option (list SpotLight)) (pointer : gmap Z LightView)
  (start : Z) (self : t) : option (ModifiedRange.t * gmap Z LightView) :=
  match scene with
  | None => None
  | Some spotlights =>
      match m_lights self with
      | [] => Some (ModifiedRange.make 0 0, pointer)
      | currentID :: _ =>
          match writeLightViews (m_lights self) spotlights 0 currentID pointer with
          | Some (currentIndex, pointer') =>
              Some (ModifiedRange.make start
                      (Mach.GLsizei (Mach.size_t (sizeof_mat4 * currentIndex))),
                    pointer')
          | None => None
          end
      end
  end.

(** The identifiers of the spotlights that cast a shadow, in the order of
    the scene. *)
Definition casters (spotlights : list SpotLight) : list Z :=
  map getId (List.filter getCastShadow spotlights).

End Scene.

End ShadowMaps.

(** ** Rendering/Renderer/Uniforms/Uniforms.hpp *)

Module Uniforms.

(** [Uniforms::calculateAlignedSize<T>], with [size] for [sizeof (T)] and
    the static member [alignment], a [GLint] that the remainder converts
    to [size_t]; [None] for the remainder of a division by zero. *)
Definition calculateAlignedSize (alignment size : Z) : option Z :=
  let alignment' := Mach.size_t alignment in
  if alignment' =? 0 then None
  else
    let remainder := size mod alignment' in
    Some (Mach.ptrdiff_t
            (if negb (remainder =? 0)
             then Mach.size_t (Mach.size_t (size + alignment') - size mod alignment')
             else size)).

End Uniforms.

(** ** Rendering/Renderer/Geometry/Geometry.cpp *)

Module Geometry.

Section Scene.

(** The meshes and instances of the scene library, the vertices
    [util::assembleVertices] makes of a mesh, glm and [Materials] are not
    part of the sources at hand: they are left abstract, with the
    functions the two builders read them with. *)
Context {SceneMesh Vertex Element Instance MaterialID ModelTransform : Type}.

(** [sceneMesh.getId()], [util::assembleVertices (sceneMesh)] and
    [sceneMesh.getElementArray()]. *)
Variable getId : SceneMesh -> Z.
Variable assembleVertices : SceneMesh -> list Vertex.
Variable getElementArray : SceneMesh -> list Element.

(** [materials[instance.getMaterialId()]] and
    [util::toGLM (instance.getTransformationMatrix())]. *)
Variable materialOf : Instance -> MaterialID.
Variable transformOf : Instance -> ModelTransform.

(** What [buildMeshData] builds: the map [internals.sceneMeshes] and the
    two vectors the vertex and the element buffer are filled with. *)
Record MeshData : Type := {
  sceneMeshes : gmap Z Mesh.t;
  vertices : list Vertex;
  elements : list Element
}.

(** The locals of the loop of [buildMeshData]: the containers and the two
    running indices, both [GLuint]. *)
Record MeshCursor : Type := {
  data : MeshData;
  vertexIndex : Z;
  elementsIndex : Z
}.

(** One turn of the loop of [buildMeshData]. *)
Definition addMesh (st : MeshCursor) (sceneMesh : SceneMesh) : MeshCursor :=
  let meshVertices := assembleVertices sceneMesh in
  let meshElements := getElementArray sceneMesh in
  let mesh :=
    {| Mesh.verticesIndex := vertexIndex st;
       Mesh.elementsIndex := elementsIndex st;
       Mesh.elementCount := Mach.GLuint (Z.of_nat (length meshElements)) |} in
  {| data :=
       {| sceneMeshes := <[getId sceneMesh := mesh]> (sceneMeshes (data st));
          vertices := vertices (data st) ++ meshVertices;
          elements := elements (data st) ++ meshElements |};
     vertexIndex :=
       Mach.GLuint (vertexIndex st + Mach.GLuint (Z.of_nat (length meshVertices)));
     elementsIndex := Mach.GLuint (elementsIndex st + Mesh.elementCount mesh) |}.

(** The order [std::sort] is asked for: that of the identifiers. *)
Definition ordered (a b : SceneMesh) : Prop := getId a <= getId b.

(** [std::sort (std::begin (meshes), std::end (meshes), ...)].  Meshes
    with the same identifier, whose order [std::sort] leaves open, stay in
    the order they came in. *)
Definition sortMeshes (allMeshes : list SceneMesh) : list SceneMesh :=
  @merge_sort SceneMesh ordered (fun a b => Z.le_dec (getId a) (getId b)) allMeshes.

(** [Geometry::buildMeshData].  [allMeshes] is what
    [scene::GeometryBuilder().getAllMeshes()] returns, [known] the content
    of [internals.sceneMeshes] before the call. *)
Definition buildMeshData (known : gmap Z Mesh.t) (allMeshes : list SceneMesh) : MeshData :=
  let meshes := sortMeshes allMeshes in
  data (fold_left addMesh meshes
          {| data := {| sceneMeshes := known; vertices := []; elements := [] |};
             vertexIndex := Mach.GLuint 0;
             elementsIndex := Mach.GLuint 0 |}).

(** What [fillStaticBuffers] builds: the three vectors the buffers are
    filled with, and [internals.sceneMeshes], which [operator[]] extends
    when it is asked for a mesh it does not hold. *)
Record StaticData : Type := {
  commands : list DrawCommand.t;
  materialIDs : list MaterialID;
  transforms : list ModelTransform;
  meshes_after : gmap Z Mesh.t
}.

(** [Mesh { }]: the default member initialisers. *)
Definition default_mesh : Mesh.t :=
  {| Mesh.verticesIndex := 0; Mesh.elementsIndex := 0; Mesh.elementCount := 0 |}.

(** One turn of the loop of [fillStaticBuffers]. *)
Definition addStaticMesh (st : StaticData) (meshInstancePair : Z * list Instance)
  : StaticData :=
  let meshID := meshInstancePair.1 in
  let instances := meshInstancePair.2 in
  let mesh := default default_mesh (meshes_after st !! meshID) in
  {| commands :=
       commands st ++
       [{| DrawCommand.elementCount := Mesh.elementCount mesh;
           DrawCommand.instanceCount := Mach.GLuint (Z.of_nat (length instances));
           DrawCommand.elementOffset := Mesh.elementsIndex mesh;
           DrawCommand.vertexOffset := Mesh.verticesIndex mesh;
           DrawCommand.baseInstance :=
             Mach.GLuint (Z.of_nat (length (materialIDs st))) |}];
     materialIDs := materialIDs st ++ map materialOf instances;
     transforms := transforms st ++ map transformOf instances;
     meshes_after := <[meshID := mesh]> (meshes_after st) |}.

(** [Geometry::fillStaticBuffers].  [staticInstances] is the map in the
    order a [std::map] is gone through, that of the mesh identifiers.  The
    result is what the buffers are filled with and the two counters of
    [drawCommands]. *)
Definition fillStaticBuffers (known : gmap Z Mesh.t)
  (staticInstances : list (Z * list Instance)) : StaticData * Z * Z :=
  let st :=
    fold_left addStaticMesh staticInstances
      {| commands := []; materialIDs := []; transforms := []; meshes_after := known |} in
  let count := Mach.GLsizei (Z.of_nat (length (commands st))) in
  (st, count, count).

(** The number of elements of the first [i] meshes, and of vertices. *)
Definition elements_before (meshes : list SceneMesh) (i : nat) : Z :=
  Z.of_nat (length (concat (map getElementArray (take i meshes)))).

Definition vertices_before (meshes : list SceneMesh) (i : nat) : Z :=
  Z.of_nat (length (concat (map assembleVertices (take i meshes)))).

(** The number of instances of the first [i] groups. *)
Definition static_before (staticInstances : list (Z * list Instance)) (i : nat) : Z :=
  Z.of_nat (length (concat (map snd (take i staticInstances)))).

End Scene.

End Geometry.

(** ** Renderer: the instances of the scene *)

Module Instances.

Section Scene.

(** An instance of the scene library is left abstract, with the members
    the renderer reads. *)
Context {Instance : Type}.
Variable isStatic : Instance -> bool.
Variable getMeshId : Instance -> Z.

(** The loop of [buildDynamicObjectBuffers] over the instances of the
    scene: the set of the meshes that have a dynamic instance and the
    number of dynamic instances, a [size_t]. *)
Definition countDynamic (instances : list Instance) : gset Z * Z :=
  fold_left (fun (st : gset Z * Z) instance =>
    if negb (isStatic instance)
    then ({[getMeshId instance]} ∪ st.1, Mach.size_t (st.2 + 1))
    else st) instances (∅, 0).

(** The loop of [buildGeometry]: the static instances collected by mesh,
    [staticInstances[instance.getMeshId()].push_back (instance)]. *)
Definition collateStatic (instances : list Instance) : gmap Z (list Instance) :=
  fold_left (fun (staticInstances : gmap Z (list Instance)) instance =>
    if isStatic instance
    then <[getMeshId instance :=
             default [] (staticInstances !! getMeshId instance) ++ [instance]]>
           staticInstances
    else staticInstances) instances ∅.

(** [m_scene->getInstancesByMeshId] and [m_scene->getInstanceById]. *)
Context {InstanceId : Type}.
Variable getInstancesByMeshId : Z -> list InstanceId.
Variable getInstanceById : InstanceId -> Instance.

(** [Renderer::fillDynamicInstances]; [sceneMeshes] is the map of
    [m_geometry.getMeshes()] in the order the loop goes through it. *)
Definition fillDynamicInstances (sceneMeshes : list (Z * Mesh.t))
  : list (@DynamicObjects.MeshInstances InstanceId) :=
  fold_left (fun m_dynamics (pair : Z * Mesh.t) =>
    let instances := getInstancesByMeshId pair.1 in
    let dynamicIDs :=
      List.filter (fun instance => negb (isStatic (getInstanceById instance))) instances in
    if (0 <? Z.of_nat (length dynamicIDs))
    then m_dynamics
           ++ [{| DynamicObjects.mesh := pair.2; DynamicObjects.instances := dynamicIDs |}]
    else m_dynamics) sceneMeshes [].

(** The dynamic instances of a mesh, in the order the scene lists them. *)
Definition dynamicOf (meshId : Z) : list InstanceId :=
  List.filter (fun instance => negb (isStatic (getInstanceById instance)))
    (getInstancesByMeshId meshId).

End Scene.

End Instances.

(** ** The tasks of a frame *)

Module Tasks.

(** How often a task is launched and how often its body starts in a run
    of events. *)
Definition launches (task : Renderer.Task) (trace : list Renderer.Event) : nat :=
  length (List.filter (fun e =>
    match e with
    | Renderer.Launch t _ _ _ => Renderer.Task_eqb t task
    | _ => false
    end) trace).

Definition runs (task : Renderer.Task) (trace : list Renderer.Event) : nat :=
  length (List.filter (fun e =>
    match e with
    | Renderer.Run t _ _ => Renderer.Task_eqb t task
    | _ => false
    end) trace).

End Tasks.

(** ** More sample inputs *)

Module Cases.

(** A buffer that is initialised, initialised again with a driver that
    grants no mapping, cleaned and initialised from data. *)
Definition buffer_ops : list BufferLife.Op :=
  [ BufferLife.Initialise_size Samples.willing 16 false false;
    BufferLife.Initialise_data Samples.no_mapping 24 true true false;
    BufferLife.Clean;
    BufferLife.Initialise_data (Samples.driver 9) 30 false true true ].

(** The light draw buffer of a renderer at partition 2: three partitions
    of three commands of 20 bytes. *)
Definition cone : Mesh.t :=
  {| Mesh.verticesIndex := 28; Mesh.elementsIndex := 42; Mesh.elementCount := 72 |}.

(** The meshes of a geometry, in the order of their identifiers. *)
Definition scene_meshes : list (Z * Mesh.t) :=
  [(1, Samples.cube); (2, Samples.quad); (3, cone)].

Definition light_drawing : LightDrawing.t :=
  {| LightDrawing.m_partition := 2;
     LightDrawing.m_lightDrawing_buffer := Samples.buffer_of 24 60;
     LightDrawing.m_lightDrawing_start := 0;
     LightDrawing.m_lightDrawing_count := 0;
     LightDrawing.quad := Samples.quad;
     LightDrawing.sphere := Samples.cube;
     LightDrawing.cone := cone;
     LightDrawing.lightCommands := ∅ |}.

(** A scene of static instances only, with two point lights and a
    spotlight. *)
Definition static_scene : Renderer.SceneContext :=
  {| Renderer.uniqueDynamicMeshes := 0;
     Renderer.dynamicInstances := 0;
     Renderer.pointLights := 2;
     Renderer.spotLights := 1;
     Renderer.dynamicMeshInstances := [] |}.

(** Spotlights are an identifier and whether the light casts a shadow;
    the view of a light is a number made of its identifier. *)
Definition spotlights : list (Z * bool) := [(4, true); (9, false); (6, true); (2, true)].
Definition lookAt (spotlight : Z * bool) : Z := 1000 + spotlight.1.

Definition shadow_driver : ShadowMaps.Driver :=
  {| ShadowMaps.fbo_name := 3; ShadowMaps.maps_ok := true;
     ShadowMaps.maxTextureResolution := 4096 |}.

(** The shadow maps of these spotlights, with a hard-coded resolution of
    2048. *)
Definition shadow_maps : ShadowMaps.t :=
  (ShadowMaps.initialise fst snd 2048 shadow_driver spotlights 5 ShadowMaps.default).1.2.

(** Instances are the identifier of their mesh and whether they are
    static. *)
Definition instances : list (Z * bool) :=
  [(1, true); (2, false); (1, false); (2, false); (3, true)].

(** The scene of these instances: an instance is known by its position,
    and the instances of a mesh are asked for by the identifier of the
    mesh. *)
Definition instance_ids : list nat := [0; 1; 2; 3; 4]%nat.
Definition getInstanceById (id : nat) : Z * bool := nth id instances (0, true).
Definition getInstancesByMeshId (meshId : Z) : list nat :=
  List.filter (fun id => (getInstanceById id).1 =? meshId) instance_ids.

(** Meshes are an identifier, vertices and elements; they come out of
    order. *)
Definition meshes : list (Z * (list Z * list Z)) :=
  [ (5, ([50; 51; 52], [0; 1; 2]));
    (2, ([20; 21], [0; 1; 0; 1]));
    (9, ([], [])) ].

(** Static instances by mesh; mesh 4 is not a mesh of the geometry. *)
Definition static_instances : list (Z * list nat) :=
  [ (1, [10; 11]%nat); (4, [20]%nat) ].

Definition known_meshes : gmap Z Mesh.t := {[ 1 := Samples.quad ]}.

(** A device on which the threads of two tasks start late. *)
Definition mixed : Renderer.Device :=
  {| Renderer.reached_at_poll := true; Renderer.reached_in_wait := true;
     Renderer.fence_created := true;
     Renderer.starts_at_once := fun task =>
       match task with
       | Renderer.SceneUniforms | Renderer.PointLights => false
       | _ => true
       end |}.

End Cases.

(** * Properties *)

(** ** Machine integers *)

Import Mach.

Lemma size_t_id z : 0 <= z < 2 ^ 64 -> size_t z = z.
Proof. intros H. unfold size_t. apply Z.mod_small. exact H. Qed.

Lemma ptrdiff_t_id z : - 2 ^ 63 <= z < 2 ^ 63 -> ptrdiff_t z = z.
Proof. intros H. unfold ptrdiff_t. rewrite Z.mod_small; lia. Qed.

Lemma GLuint_id z : 0 <= z < 2 ^ 32 -> GLuint z = z.
Proof. intros H. unfold GLuint. apply Z.mod_small. exact H. Qed.

Lemma GLsizei_id z : - 2 ^ 31 <= z < 2 ^ 31 -> GLsizei z = z.
Proof. intros H. unfold GLsizei. rewrite Z.mod_small; lia. Qed.

Lemma GLuint_range z : 0 <= GLuint z < 2 ^ 32.
Proof. unfold GLuint. apply Z.mod_pos_bound. lia. Qed.

Lemma GLuint_add_l a b : GLuint (GLuint a + b) = GLuint (a + b).
Proof. unfold GLuint. apply Zplus_mod_idemp_l. Qed.

Lemma GLuint_add_r a b : GLuint (a + GLuint b) = GLuint (a + b).
Proof. unfold GLuint. apply Zplus_mod_idemp_r. Qed.

(** ** The partitioned buffer *)

Module PMB := PersistentMappedBuffer.

Section PartitionedBuffer.

Variable Partitions : Z.
Hypothesis Partitions_range : 0 < Partitions < 2 ^ 64.

Lemma partitionSize_eq self :
  0 <= PMB.m_size self < 2 ^ 63 ->
  PMB.partitionSize Partitions self = PMB.m_size self / Partitions.
Proof.
  intros Hs. unfold PMB.partitionSize.
  rewrite size_t_id by lia.
  apply ptrdiff_t_id.
  assert (0 <= PMB.m_size self / Partitions) by (apply Z.div_pos; lia).
  assert (PMB.m_size self / Partitions <= PMB.m_size self)
    by (apply Z.div_le_upper_bound; nia).
  lia.
Qed.

Lemma partitionOffset_eq self index :
  0 <= PMB.m_size self < 2 ^ 63 ->
  0 <= index <= Partitions ->
  PMB.partitionOffset Partitions self index
  = index * (PMB.m_size self / Partitions).
Proof.
  intros Hs Hi. unfold PMB.partitionOffset.
  rewrite partitionSize_eq by exact Hs.
  assert (0 <= PMB.m_size self / Partitions) by (apply Z.div_pos; lia).
  assert (Partitions * (PMB.m_size self / Partitions) <= PMB.m_size self)
    by (apply Z.mul_div_le; lia).
  assert (0 <= index * (PMB.m_size self / Partitions) <= PMB.m_size self) by nia.
  rewrite (size_t_id (PMB.m_size self / Partitions)) by nia.
  rewrite size_t_id by lia.
  apply ptrdiff_t_id. lia.
Qed.

(** A successful [initialise] (size overload), read backwards. *)
Lemma initialise_size_true drv self size read coherent self' calls :
  PMB.initialise_size Partitions drv self size read coherent = (true, self', calls) ->
  size <> 0 /\ gen_name drv <> 0 /\ storage_ok drv = true /\
  is_null (map_address drv) = false /\
  0 < ptrdiff_t (size_t (size_t size * Partitions)) /\
  PMB.m_buffer self' = {| Buffer.m_buffer := gen_name drv |} /\
  PMB.m_mapping self' = map_address drv /\
  PMB.m_size self' = ptrdiff_t (size_t (size_t size * Partitions)).
Proof.
  unfold PMB.initialise_size, Buffer.initialise, Buffer.mapRange, Buffer.move_assign.
  cbn [Buffer.clean Buffer.isInitialised Buffer.default Buffer.m_buffer].
  destruct (Z.eqb_spec size 0) as [->|Hsz]; [discriminate|].
  cbn. destruct (Z.eqb_spec (gen_name drv) 0) as [Hg|Hg]; cbn; [discriminate|].
  destruct (storage_ok drv); cbn; [|discriminate].
  destruct (Z.ltb_spec 0 (ptrdiff_t (size_t (size_t size * Partitions)))) as [Hl|Hl];
    [|discriminate].
  destruct (map_address drv) as [|b o] eqn:Hm; cbn; [discriminate|].
  destruct (Buffer.clean (PMB.m_buffer self)) as [b0 c0].
  intros [= <- <-]. cbn. repeat split; auto.
Qed.

(** A successful [initialise] (data overload), read backwards. *)
Lemma initialise_data_true drv self dataSize read write coherent self' calls :
  PMB.initialise_data Partitions drv self dataSize read write coherent = (true, self', calls) ->
  (read = true \/ write = true) /\ gen_name drv <> 0 /\ storage_ok drv = true /\
  is_null (map_address drv) = false /\
  0 < dataSize /\ size_t dataSize mod Partitions = 0 /\
  PMB.m_buffer self' = {| Buffer.m_buffer := gen_name drv |} /\
  PMB.m_mapping self' = map_address drv /\
  PMB.m_size self' = dataSize.
Proof.
  unfold PMB.initialise_data, Buffer.initialise, Buffer.mapRange, Buffer.move_assign,
    Buffer.immutablyFillWith.
  cbn [Buffer.clean Buffer.isInitialised Buffer.default Buffer.m_buffer].
  destruct (negb read && negb write) eqn:Hrw; [discriminate|].
  cbn. destruct (Z.eqb_spec (gen_name drv) 0) as [Hg|Hg]; cbn; [discriminate|].
  destruct (Z.eqb_spec (size_t dataSize mod Partitions) 0) as [Hd|Hd]; cbn; [|discriminate].
  destruct (Z.eqb_spec dataSize 0) as [Hz|Hz]; [discriminate|].
  destruct (storage_ok drv); cbn; [|discriminate].
  destruct (Z.ltb_spec 0 dataSize) as [Hl|Hl]; [|discriminate].
  destruct (map_address drv) as [|b o] eqn:Hm; cbn; [discriminate|].
  destruct (Buffer.clean (PMB.m_buffer self)) as [b0 c0].
  intros [= <- <-]. cbn. repeat split; auto.
  destruct read, write; auto; discriminate.
Qed.

(** The total size of a buffer that [initialise] has set up is a positive
    multiple of the partition count. *)
Lemma initialised_by_size_divisible self :
  PMB.initialised_by Partitions self ->
  0 < PMB.m_size self < 2 ^ 63 /\ (Partitions | PMB.m_size self).
Proof.
  intros [drv s0 size read coherent s' calls Hfit H
         |drv s0 dataSize read write coherent s' calls Hfit H].
  - apply initialise_size_true in H.
    destruct H as (_ & _ & _ & _ & Hpos & _ & _ & ->).
    assert (Hw : size_t (size_t size * Partitions) = size_t (size * Partitions)).
    { unfold size_t. rewrite Zmult_mod_idemp_l. reflexivity. }
    rewrite Hw in *.
    assert (Hs : ptrdiff_t (size_t (size * Partitions)) = size * Partitions).
    { unfold ptrdiff_t, size_t.
      rewrite Zplus_mod_idemp_l. rewrite Z.mod_small by lia. lia. }
    rewrite Hs in *. split; [lia|]. exists size. reflexivity.
  - apply initialise_data_true in H.
    destruct H as (_ & _ & _ & _ & Hpos & Hdiv & _ & _ & ->).
    rewrite size_t_id in Hdiv by lia.
    split; [lia|]. apply Z.mod_divide; [lia|exact Hdiv].
Qed.


(** The class invariant holds of a fresh object and is kept by both
    overloads of [initialise] and by [clean]. *)
Lemma Inv_default : PMB.Inv PMB.default.
Proof. split; cbn; [reflexivity|lia|reflexivity]. Qed.

Lemma ptrdiff_t_range z : - 2 ^ 63 <= ptrdiff_t z < 2 ^ 63.
Proof.
  unfold ptrdiff_t.
  pose proof (Z.mod_pos_bound (z + 2 ^ 63) (2 ^ 64) ltac:(lia)). lia.
Qed.

Lemma Inv_initialise_size drv self size read coherent :
  PMB.Inv self ->
  PMB.Inv (PMB.initialise_size Partitions drv self size read coherent).1.2.
Proof.
  intros HI.
  destruct (PMB.initialise_size Partitions drv self size read coherent)
    as [[[|] self'] calls] eqn:E; cbn.
  - apply initialise_size_true in E.
    destruct E as (_ & Hg & _ & Hm & Hpos & Hb & Hmap & Hsz).
    assert (Hin : PMB.isInitialised self' = true).
    { unfold PMB.isInitialised, Buffer.isInitialised. rewrite Hb. cbn.
      destruct (Z.eqb_spec (gen_name drv) 0); [contradiction|reflexivity]. }
    split.
    + rewrite Hmap, Hm, Hin. reflexivity.
    + rewrite Hsz. pose proof (ptrdiff_t_range (size_t (size_t size * Partitions))). lia.
    + rewrite Hin. discriminate.
  - revert E. unfold PMB.initialise_size, Buffer.initialise, Buffer.mapRange,
      Buffer.move_assign. cbn.
    repeat (match goal with
            | |- context [if ?b then _ else _] => destruct b
            | |- context [let '(_, _) := ?p in _] => destruct p
            end; cbn);
      intros [= <-]; exact HI.
Qed.

Lemma Inv_initialise_data drv self dataSize read write coherent :
  0 <= dataSize < 2 ^ 63 ->
  PMB.Inv self ->
  PMB.Inv (PMB.initialise_data Partitions drv self dataSize read write coherent).1.2.
Proof.
  intros Hd HI.
  destruct (PMB.initialise_data Partitions drv self dataSize read write coherent)
    as [[[|] self'] calls] eqn:E; cbn.
  - apply initialise_data_true in E.
    destruct E as (_ & Hg & _ & Hm & Hpos & _ & Hb & Hmap & Hsz).
    assert (Hin : PMB.isInitialised self' = true).
    { unfold PMB.isInitialised, Buffer.isInitialised. rewrite Hb. cbn.
      destruct (Z.eqb_spec (gen_name drv) 0); [contradiction|reflexivity]. }
    split.
    + rewrite Hmap, Hm, Hin. reflexivity.
    + rewrite Hsz. lia.
    + rewrite Hin. discriminate.
  - revert E. unfold PMB.initialise_data, Buffer.initialise, Buffer.mapRange,
      Buffer.move_assign, Buffer.immutablyFillWith. cbn.
    repeat (match goal with
            | |- context [if ?b then _ else _] => destruct b
            | |- context [let '(_, _) := ?p in _] => destruct p
            end; cbn);
      intros [= <-]; exact HI.
Qed.

Lemma Inv_clean self : PMB.Inv self -> PMB.Inv (PMB.clean self).1.
Proof.
  intros HI. unfold PMB.clean.
  destruct (PMB.isInitialised self) eqn:Hin.
  - unfold PMB.isInitialised in Hin. unfold Buffer.clean. rewrite Hin. cbn.
    apply Inv_default.
  - exact HI.
Qed.

(** [pointer] passes its assertion as soon as the buffer is mapped. *)
Lemma pointer_mapped self p :
  is_null (PMB.m_mapping self) = false -> is_Some (PMB.pointer Partitions self p).
Proof.
  intros Hm. unfold PMB.pointer.
  destruct (PMB.m_mapping self) as [|b o]; [discriminate|].
  cbn [ptr_add is_null]. eexists. reflexivity.
Qed.


(** An object that is not initialised has no mapping, and [pointer] stops
    at its assertion. *)
Lemma pointer_uninitialised self p :
  PMB.Inv self -> PMB.isInitialised self = false ->
  PMB.pointer Partitions self p = None.
Proof.
  intros [Hmap _ _] Hin. rewrite Hin in Hmap. cbn in Hmap.
  unfold PMB.pointer. destruct (PMB.m_mapping self); [reflexivity|discriminate].
Qed.

Ltac split_initialise :=
  repeat (match goal with
          | |- context [if ?b then _ else _] => destruct b eqn:?
          | |- context [let '(_, _) := ?p in _] => destruct p eqn:?
          end; cbn).

(** C6.  Both overloads of [initialise] return false on every
    configuration error and on every failure of the driver, and a call that
    returns false leaves the object as it was: size, mapping, flush flag and
    buffer are those of before, and every call made to OpenGL is about the
    name of the local buffer, none about the object's. *)
Theorem initialise_failure_keeps_object drv self :
  (forall size read coherent,
     let r := PMB.initialise_size Partitions drv self size read coherent in
     (size = 0 \/ gen_name drv = 0 \/ storage_ok drv = false
      \/ map_address drv = nullptr -> r.1.1 = false) /\
     (r.1.1 = false ->
      r.1.2 = self /\ Forall (fun c => PMB.call_name c = gen_name drv) r.2))
  /\
  (forall dataSize read write coherent,
     let r := PMB.initialise_data Partitions drv self dataSize read write coherent in
     ((read = false /\ write = false) \/ dataSize = 0
      \/ (0 <= dataSize < 2 ^ 63 /\ dataSize mod Partitions <> 0)
      \/ gen_name drv = 0 \/ storage_ok drv = false
      \/ map_address drv = nullptr -> r.1.1 = false) /\
     (r.1.1 = false ->
      r.1.2 = self /\ Forall (fun c => PMB.call_name c = gen_name drv) r.2)).
Proof.
  split.
  - intros size read coherent r. subst r. split.
    + intros Herr.
      destruct (PMB.initialise_size Partitions drv self size read coherent)
        as [[[|] self'] calls] eqn:E; [|reflexivity].
      apply initialise_size_true in E.
      destruct E as (Hs & Hg & Hst & Hm & _).
      destruct Herr as [H|[H|[H|H]]]; try contradiction; try congruence.
      rewrite H in Hm. discriminate.
    + unfold PMB.initialise_size, Buffer.initialise, Buffer.mapRange,
        Buffer.move_assign, Buffer.allocateImmutableStorage, Buffer.clean,
        Buffer.isInitialised.
      cbn. split_initialise; intros Hf; try discriminate;
        (split; [reflexivity|repeat constructor]).
  - intros dataSize read write coherent r. subst r. split.
    + intros Herr.
      destruct (PMB.initialise_data Partitions drv self dataSize read write coherent)
        as [[[|] self'] calls] eqn:E; [|reflexivity].
      apply initialise_data_true in E.
      destruct E as (Hrw & Hg & Hst & Hm & Hpos & Hdiv & _).
      destruct Herr as [[H1 H2]|[H|[[Hr H]|[H|[H|H]]]]];
        try contradiction; try congruence; try lia.
      * destruct Hrw; congruence.
      * rewrite size_t_id in Hdiv by lia. contradiction.
      * rewrite H in Hm. discriminate.
    + unfold PMB.initialise_data, Buffer.initialise, Buffer.mapRange,
        Buffer.move_assign, Buffer.immutablyFillWith, Buffer.clean,
        Buffer.isInitialised.
      cbn. split_initialise; intros Hf; try discriminate;
        (split; [reflexivity|repeat constructor]).
Qed.

End PartitionedBuffer.

Lemma triple_initialised : PMB.initialised_by 3 Samples.triple.
Proof.
  eapply PMB.initialised_by_size
    with (drv := Samples.willing) (self := PMB.default) (size := 16)
         (read := false) (coherent := false); [lia|reflexivity].
Qed.


Example triple_offsets :
  PMB.m_size Samples.triple = 48 /\
  map (PMB.partitionOffset 3 Samples.triple) [0; 1; 2] = [0; 16; 32].
Proof. split; reflexivity. Qed.

Lemma triple_Inv : PMB.Inv Samples.triple.
Proof. apply (Inv_initialise_size 3). apply Inv_default. Qed.


Example triple_pointers :
  map (PMB.pointer 3 Samples.triple) [0; 1; 2; 3; 4; 2 ^ 64 - 1]
  = [Some (Ptr 1 0); Some (Ptr 1 16); Some (Ptr 1 32);
     Some (Ptr 1 0); Some (Ptr 1 0); Some (Ptr 1 0)].
Proof. reflexivity. Qed.

(** The failures of [initialise] at work, and a success for contrast: the
    object changes only when the call returns true. *)
Example initialise_size_failures :
  PMB.initialise_size 3 Samples.willing Samples.triple 0 false false
    = (false, Samples.triple, []) /\
  (PMB.initialise_size 3 Samples.no_names Samples.triple 16 false false).1
    = (false, Samples.triple) /\
  (PMB.initialise_size 3 Samples.no_storage Samples.triple 16 false false).1
    = (false, Samples.triple) /\
  (PMB.initialise_size 3 Samples.no_mapping Samples.triple 16 false false).1
    = (false, Samples.triple).
Proof. repeat split; reflexivity. Qed.

Example initialise_data_failures :
  PMB.initialise_data 3 Samples.willing Samples.triple 48 false false false
    = (false, Samples.triple, []) /\
  (PMB.initialise_data 3 Samples.willing Samples.triple 50 true true false).1
    = (false, Samples.triple) /\
  (PMB.initialise_data 3 Samples.willing Samples.triple 0 true true false).1
    = (false, Samples.triple) /\
  (PMB.initialise_data 3 Samples.no_mapping Samples.triple 48 true true false).1
    = (false, Samples.triple).
Proof. repeat split; reflexivity. Qed.

Example initialise_data_success :
  PMB.initialise_data 3 {| gen_name := 9; storage_ok := true; map_address := Ptr 2 0 |}
    Samples.triple 96 true true false
  = (true,
     {| PMB.m_buffer := {| Buffer.m_buffer := 9 |}; PMB.m_mapping := Ptr 2 0;
        PMB.m_size := 96; PMB.m_flushable := true |},
     [glGenBuffers 9; glNamedBufferStorage 9 96 67; glMapNamedBufferRange 9 0 96 83;
      glUnmapNamedBuffer 7; glDeleteBuffers 7]).
Proof. reflexivity. Qed.

(** ** The dynamic-object pass *)

Module DO := DynamicObjects.

Section DynamicObjectPass.

Context {InstanceId Instance ModelTransform MaterialID : Type}.
Variable getInstanceById : InstanceId -> Instance.
Variable toModelTransform : Instance -> ModelTransform.
Variable materialIDOf : Instance -> MaterialID.
Variable multiBuffering : Z.
Variables sizeof_DrawCommand sizeof_ModelTransform sizeof_MaterialID : Z.

Local Abbreviation MeshInstances := (@DO.MeshInstances InstanceId).
Local Abbreviation Locals := (@DO.Locals ModelTransform MaterialID).
Local Abbreviation Op := (@DO.Op InstanceId Instance).
Local Abbreviation exec := (DO.exec toModelTransform materialIDOf).
Local Abbreviation run := (DO.run toModelTransform materialIDOf).
Local Abbreviation mesh_ops := (DO.mesh_ops getInstanceById).
Local Abbreviation instance_ops := (DO.instance_ops getInstanceById).

Implicit Types (dynamics : list MeshInstances) (op : Op).

Lemma run_app k (l1 l2 : list Op) (s : Locals) : run k (l1 ++ l2) s = run k l2 (run k l1 s).
Proof. unfold DO.run. apply fold_left_app. Qed.

Lemma run_cons k op (l : list Op) (s : Locals) :
  run k (op :: l) s = run k l (exec k op s).
Proof. reflexivity. Qed.

(** *** The traversals make the calls [mesh_ops] lists *)

Lemma forEachInstance_run {S : Type} (interp : Op -> S -> S)
  (func : Z -> Instance -> S -> S) (perInstance : Z -> Instance -> list Op) :
  (forall index instance s,
     func index instance s = fold_left (fun s op => interp op s) (perInstance index instance) s) ->
  forall (ids : list InstanceId) index s,
    DO.forEachInstance getInstanceById func ids (index, s)
    = (index + Z.of_nat (length ids),
       fold_left (fun s op => interp op s) (instance_ops perInstance index ids) s).
Proof.
  intros Hf ids. induction ids as [|id ids IH]; intros index s; cbn [DO.forEachInstance].
  - cbn. f_equal. lia.
  - cbn [fst snd DO.instance_ops length]. rewrite IH, Hf, fold_left_app.
    f_equal. lia.
Qed.

Lemma forEachDynamicMesh_from_run {S : Type} (interp : Op -> S -> S)
  (func : Z -> Instance -> S -> S) (perInstance : Z -> Instance -> list Op)
  (meshFuncs : list (Z -> Mesh.t -> list InstanceId -> S -> S))
  (perMesh : Z -> Mesh.t -> list InstanceId -> list Op) :
  (forall index instance s,
     func index instance s = fold_left (fun s op => interp op s) (perInstance index instance) s) ->
  (forall meshIndex mi (st : Z * S),
     DO.processMesh meshIndex mi
       (map (fun f index mesh instances (st : Z * S) =>
               (st.1, f index mesh instances st.2)) meshFuncs) st
     = (st.1, fold_left (fun s op => interp op s)
                (perMesh meshIndex (DO.mesh mi) (DO.instances mi)) st.2)) ->
  forall dynamics meshIndex index s,
    DO.forEachDynamicMesh_from dynamics
      ((fun _ _ instances st => DO.forEachInstance getInstanceById func instances st)
         :: map (fun f index mesh instances (st : Z * S) =>
                   (st.1, f index mesh instances st.2)) meshFuncs)
      meshIndex (index, s)
    = (index + DO.totalDynamicInstances dynamics,
       fold_left (fun s op => interp op s)
         (mesh_ops perInstance perMesh meshIndex index dynamics) s).
Proof.
  intros Hf Hm dynamics.
  induction dynamics as [|mi rest IH]; intros meshIndex index s.
  - cbn. f_equal. lia.
  - cbn [DO.forEachDynamicMesh_from DO.processMesh DO.mesh_ops].
    rewrite (forEachInstance_run interp func perInstance Hf).
    rewrite Hm. cbn [fst snd]. rewrite IH.
    rewrite !fold_left_app.
    unfold DO.totalDynamicInstances, DO.instance_counts. cbn [map DO.sum fold_right].
    f_equal.
    fold (DO.instance_counts rest). fold (DO.sum (DO.instance_counts rest)). lia.
Qed.

(** The single-threaded branch makes the calls of [single_ops]. *)
Lemma single_threaded_run k dynamics (s : Locals) :
  DO.forEachDynamicMeshInstance getInstanceById dynamics
    (DO.addTransformAndMaterialID toModelTransform materialIDOf k)
    [DO.addDrawCommand k] s
  = run k (DO.single_ops getInstanceById dynamics) s.
Proof.
  unfold DO.forEachDynamicMeshInstance, DO.forEachDynamicMesh, DO.single_ops.
  rewrite (forEachDynamicMesh_from_run (fun op s => exec k op s)
             (DO.addTransformAndMaterialID toModelTransform materialIDOf k)
             (fun index instance => [DO.AddTransform index instance; DO.AddMaterialID index instance])
             [DO.addDrawCommand k]
             (fun index mesh instances => [DO.AddDrawCommand index mesh instances]));
    reflexivity.
Qed.

(** The thread [transforms] makes the calls of [transform_ops], the thread
    [materialIDs] those of [materialID_ops]. *)
Lemma transforms_thread_run k dynamics (s : Locals) :
  DO.forEachDynamicMeshInstance getInstanceById dynamics
    (DO.addTransform toModelTransform k) [] s
  = run k (DO.transform_ops getInstanceById dynamics) s.
Proof.
  unfold DO.forEachDynamicMeshInstance, DO.forEachDynamicMesh, DO.transform_ops.
  rewrite (forEachDynamicMesh_from_run (fun op s => exec k op s)
             (DO.addTransform toModelTransform k)
             (fun index instance => [DO.AddTransform index instance])
             [] (fun _ _ _ => []));
    [reflexivity|reflexivity|intros ? ? []; reflexivity].
Qed.

Lemma materialIDs_thread_run k dynamics (s : Locals) :
  DO.forEachDynamicMeshInstance getInstanceById dynamics
    (DO.addMaterialID materialIDOf k) [] s
  = run k (DO.materialID_ops getInstanceById dynamics) s.
Proof.
  unfold DO.forEachDynamicMeshInstance, DO.forEachDynamicMesh, DO.materialID_ops.
  rewrite (forEachDynamicMesh_from_run (fun op s => exec k op s)
             (DO.addMaterialID materialIDOf k)
             (fun index instance => [DO.AddMaterialID index instance])
             [] (fun _ _ _ => []));
    [reflexivity|reflexivity|intros ? ? []; reflexivity].
Qed.

Lemma instance_ops_none index (ids : list InstanceId) :
  instance_ops (fun _ _ => []) index ids = [].
Proof. revert index. induction ids as [|id ids IH]; intros index; cbn; auto. Qed.

Lemma drawCommands_from_run k dynamics meshIndex index (s : Locals) :
  DO.forEachDynamicMesh_from dynamics [DO.addDrawCommand k] meshIndex s
  = run k (mesh_ops (fun _ _ => [])
             (fun index mesh instances => [DO.AddDrawCommand index mesh instances])
             meshIndex index dynamics) s.
Proof.
  revert s meshIndex index.
  induction dynamics as [|mi rest IH]; intros s meshIndex index; [reflexivity|].
  cbn [DO.forEachDynamicMesh_from DO.processMesh DO.mesh_ops].
  rewrite instance_ops_none. cbn [app].
  rewrite (IH _ _ (index + Z.of_nat (length (DO.instances mi)))). reflexivity.
Qed.

(** The calling thread makes the calls of [drawCommand_ops]. *)
Lemma drawCommands_thread_run k dynamics (s : Locals) :
  DO.forEachDynamicMesh dynamics [DO.addDrawCommand k] s
  = run k (DO.drawCommand_ops getInstanceById dynamics) s.
Proof. apply drawCommands_from_run. Qed.

(** *** Interleavings *)

Lemma interleave_app {A : Type} (a b c a' b' c' : list A) :
  DO.interleave a b c -> DO.interleave a' b' c' ->
  DO.interleave (a ++ a') (b ++ b') (c ++ c').
Proof.
  intros H H'. induction H; cbn; try constructor; auto.
Qed.

Lemma interleave_nil_r {A : Type} (l : list A) : DO.interleave l [] l.
Proof. induction l; constructor; auto. Qed.

Lemma interleave_nil_l {A : Type} (l : list A) : DO.interleave [] l l.
Proof. induction l; constructor; auto. Qed.

Lemma interleave_Forall {A : Type} (P : A -> Prop) (l1 l2 l : list A) :
  DO.interleave l1 l2 l -> Forall P l1 -> Forall P l2 -> Forall P l.
Proof.
  intros H. induction H; intros H1 H2; auto.
  - inversion H1; subst. constructor; auto.
  - inversion H2; subst. constructor; auto.
Qed.

(** Calls that store to different buffers can be swapped. *)
Lemma exec_commute k (a b : Op) (s : Locals) :
  DO.target a <> DO.target b ->
  exec k a (exec k b s) = exec k b (exec k a s).
Proof.
  destruct a, b; cbn; intros H; try reflexivity; contradiction H; reflexivity.
Qed.

Lemma run_commute k (a : Op) (l : list Op) (s : Locals) :
  Forall (fun b => DO.target a <> DO.target b) l ->
  run k l (exec k a s) = exec k a (run k l s).
Proof.
  revert s. induction l as [|b l IH]; intros s H; [reflexivity|].
  inversion H; subst. rewrite !run_cons, <- exec_commute by auto. apply IH. auto.
Qed.

(** Two threads whose calls store to different buffers: however the calls
    interleave, the outcome is that of one thread after the other. *)
Lemma run_interleave k (l1 l2 l : list Op) (s : Locals) :
  DO.interleave l1 l2 l ->
  Forall (fun b => Forall (fun a => DO.target b <> DO.target a) l1) l2 ->
  run k l s = run k l2 (run k l1 s).
Proof.
  intros H. revert s. induction H; intros s Hd; [reflexivity| |].
  - rewrite !run_cons. apply IHinterleave.
    eapply Forall_impl; [exact Hd|]. intros b Hb. inversion Hb; auto.
  - inversion Hd; subst. rewrite !run_cons, IHinterleave by auto.
    f_equal. apply run_commute. auto.
Qed.

(** *** The targets of the calls of each traversal *)

Lemma Forall_instance_ops (P : Op -> Prop) perInstance index (ids : list InstanceId) :
  (forall i x, Forall P (perInstance i x)) ->
  Forall P (instance_ops perInstance index ids).
Proof.
  intros H. revert index. induction ids as [|id ids IH]; intros index; cbn.
  - constructor.
  - apply Forall_app. split; auto.
Qed.

Lemma Forall_mesh_ops (P : Op -> Prop) perInstance perMesh meshIndex index dynamics :
  (forall i x, Forall P (perInstance i x)) ->
  (forall i m ids, Forall P (perMesh i m ids)) ->
  Forall P (mesh_ops perInstance perMesh meshIndex index dynamics).
Proof.
  intros HI HM. revert meshIndex index.
  induction dynamics as [|mi rest IH]; intros meshIndex index; cbn.
  - constructor.
  - apply Forall_app. split; [apply Forall_instance_ops; auto|].
    apply Forall_app. split; auto.
Qed.

Lemma transform_ops_target dynamics :
  Forall (fun op => DO.target op = DO.ToTransforms) (DO.transform_ops getInstanceById dynamics).
Proof. apply Forall_mesh_ops; intros; repeat constructor. Qed.

Lemma materialID_ops_target dynamics :
  Forall (fun op => DO.target op = DO.ToMaterialIDs) (DO.materialID_ops getInstanceById dynamics).
Proof. apply Forall_mesh_ops; intros; repeat constructor. Qed.

Lemma drawCommand_ops_target dynamics :
  Forall (fun op => DO.target op = DO.ToDrawCommands) (DO.drawCommand_ops getInstanceById dynamics).
Proof. apply Forall_mesh_ops; intros; repeat constructor. Qed.

Lemma Forall_distinct_targets (t1 t2 : DO.Target) (l1 l2 : list Op) :
  t1 <> t2 ->
  Forall (fun op => DO.target op = t1) l1 ->
  Forall (fun op => DO.target op = t2) l2 ->
  Forall (fun b => Forall (fun a => DO.target b <> DO.target a) l1) l2.
Proof.
  intros Hne H1 H2.
  eapply Forall_impl; [exact H2|]. intros b Hb.
  eapply Forall_impl; [exact H1|]. intros a Ha. cbn in *. congruence.
Qed.

(** Every schedule of the three threads ends in the state that running
    the traversals one after the other ends in. *)
Lemma run_schedule k dynamics (schedule : list Op) (s : Locals) :
  DO.schedule_of getInstanceById dynamics schedule ->
  run k schedule s
  = run k (DO.drawCommand_ops getInstanceById dynamics)
      (run k (DO.materialID_ops getInstanceById dynamics)
         (run k (DO.transform_ops getInstanceById dynamics) s)).
Proof.
  intros (two & H1 & H2).
  rewrite (run_interleave k _ _ _ s H2).
  - f_equal. apply (run_interleave k _ _ _ s H1).
    apply (Forall_distinct_targets DO.ToTransforms DO.ToMaterialIDs);
      [discriminate|apply transform_ops_target|apply materialID_ops_target].
  - assert (Htwo : Forall (fun op => DO.target op <> DO.ToDrawCommands) two).
    { apply (interleave_Forall _ _ _ _ H1).
      - eapply Forall_impl; [apply transform_ops_target|]. cbn. congruence.
      - eapply Forall_impl; [apply materialID_ops_target|]. cbn. congruence. }
    eapply Forall_impl; [apply drawCommand_ops_target|]. intros b Hb.
    eapply Forall_impl; [exact Htwo|]. intros a Ha. cbn in *. congruence.
Qed.

Lemma instance_ops_interleaving index (ids : list InstanceId) :
  DO.interleave
    (instance_ops (fun index instance => [DO.AddTransform index instance]) index ids)
    (instance_ops (fun index instance => [DO.AddMaterialID index instance]) index ids)
    (instance_ops (fun index instance => [DO.AddTransform index instance; DO.AddMaterialID index instance])
       index ids).
Proof.
  revert index. induction ids as [|id ids IH]; intros index; cbn; [constructor|].
  apply DO.interleave_left, DO.interleave_right, IH.
Qed.

Lemma single_ops_interleaving meshIndex index dynamics :
  DO.interleave
    (mesh_ops (fun index instance => [DO.AddTransform index instance]) (fun _ _ _ => [])
       meshIndex index dynamics)
    (mesh_ops (fun index instance => [DO.AddMaterialID index instance]) (fun _ _ _ => [])
       meshIndex index dynamics)
    (mesh_ops (fun index instance => [DO.AddTransform index instance; DO.AddMaterialID index instance])
       (fun _ _ _ => []) meshIndex index dynamics)
  /\ DO.interleave
       (mesh_ops (fun index instance => [DO.AddTransform index instance; DO.AddMaterialID index instance])
          (fun _ _ _ => []) meshIndex index dynamics)
       (mesh_ops (fun _ _ => [])
          (fun index mesh instances => [DO.AddDrawCommand index mesh instances])
          meshIndex index dynamics)
       (mesh_ops (fun index instance => [DO.AddTransform index instance; DO.AddMaterialID index instance])
          (fun index mesh instances => [DO.AddDrawCommand index mesh instances])
          meshIndex index dynamics).
Proof.
  revert meshIndex index.
  induction dynamics as [|mi rest IH]; intros meshIndex index.
  - split; constructor.
  - destruct (IH (meshIndex + 1) (index + Z.of_nat (length (DO.instances mi)))) as [IH1 IH2].
    cbn [DO.mesh_ops]. split.
    + apply interleave_app; [|apply interleave_app; [constructor|exact IH1]].
      apply instance_ops_interleaving.
    + rewrite instance_ops_none. cbn [app].
      apply (interleave_app _ [] _ _ _ _); [apply interleave_nil_r|].
      apply DO.interleave_right. exact IH2.
Qed.

(** The order of the single-threaded traversal is one of the schedules. *)
Lemma single_ops_schedule dynamics :
  DO.schedule_of getInstanceById dynamics (DO.single_ops getInstanceById dynamics).
Proof.
  exists (mesh_ops (fun index instance => [DO.AddTransform index instance; DO.AddMaterialID index instance])
            (fun _ _ _ => []) 0 0 dynamics).
  apply single_ops_interleaving.
Qed.

Lemma interleave_sequential {A : Type} (l1 l2 : list A) :
  DO.interleave l1 l2 (l1 ++ l2).
Proof.
  induction l1 as [|x l1 IH]; cbn; [apply interleave_nil_l|].
  constructor. exact IH.
Qed.

(** The schedule in which the threads run one after the other. *)
Lemma sequential_schedule dynamics :
  DO.schedule_of getInstanceById dynamics
    (DO.transform_ops getInstanceById dynamics
       ++ DO.materialID_ops getInstanceById dynamics
       ++ DO.drawCommand_ops getInstanceById dynamics).
Proof.
  exists (DO.transform_ops getInstanceById dynamics
            ++ DO.materialID_ops getInstanceById dynamics).
  split; [apply interleave_sequential|].
  rewrite app_assoc. apply interleave_sequential.
Qed.

(** *** What each traversal leaves in its buffer *)

Lemma run_keeps_transforms k (l : list Op) (s : Locals) :
  Forall (fun op => DO.target op <> DO.ToTransforms) l ->
  DO.transformBuffer (DO.buffers (run k l s)) = DO.transformBuffer (DO.buffers s).
Proof.
  revert s. induction l as [|op l IH]; intros s H; [reflexivity|].
  inversion H as [|? ? Hop Hl]; subst. rewrite run_cons, IH by exact Hl.
  destruct op; cbn in *; congruence.
Qed.

Lemma run_keeps_materialIDs k (l : list Op) (s : Locals) :
  Forall (fun op => DO.target op <> DO.ToMaterialIDs) l ->
  DO.materialIDBuffer (DO.buffers (run k l s)) = DO.materialIDBuffer (DO.buffers s).
Proof.
  revert s. induction l as [|op l IH]; intros s H; [reflexivity|].
  inversion H as [|? ? Hop Hl]; subst. rewrite run_cons, IH by exact Hl.
  destruct op; cbn in *; congruence.
Qed.

Lemma run_keeps_drawCommands k (l : list Op) (s : Locals) :
  Forall (fun op => DO.target op <> DO.ToDrawCommands) l ->
  DO.drawCommandBuffer (DO.buffers (run k l s)) = DO.drawCommandBuffer (DO.buffers s)
  /\ DO.baseInstance (run k l s) = DO.baseInstance s.
Proof.
  revert s. induction l as [|op l IH]; intros s H; [split; reflexivity|].
  inversion H as [|? ? Hop Hl]; subst. rewrite run_cons.
  destruct (IH (exec k op s) Hl) as [-> ->].
  destruct op; cbn in *; try congruence; split; reflexivity.
Qed.

Lemma Forall_target_ne (t1 t2 : DO.Target) (l : list Op) :
  t1 <> t2 ->
  Forall (fun op => DO.target op = t1) l ->
  Forall (fun op => DO.target op <> t2) l.
Proof.
  intros Hne H. eapply Forall_impl; [exact H|]. cbn. intros op ->. exact Hne.
Qed.

(** The thread [transforms] stores the transform of every instance, in
    traversal order, at consecutive indices. *)
Lemma run_instance_transforms k index (ids : list InstanceId) (s : Locals) :
  DO.transformBuffer (DO.buffers
    (run k (instance_ops (fun index instance => [DO.AddTransform index instance]) index ids) s))
  = DO.store_all getInstanceById toModelTransform k index ids (DO.transformBuffer (DO.buffers s)).
Proof.
  revert index s. induction ids as [|id ids IH]; intros index s; [reflexivity|].
  cbn [DO.instance_ops DO.store_all app]. rewrite run_cons, IH. reflexivity.
Qed.

Lemma store_all_app {V : Type} (f : Instance -> V) k index (l1 l2 : list InstanceId) buffer :
  DO.store_all getInstanceById f k index (l1 ++ l2) buffer
  = DO.store_all getInstanceById f k (index + Z.of_nat (length l1)) l2
      (DO.store_all getInstanceById f k index l1 buffer).
Proof.
  revert index buffer. induction l1 as [|id l1 IH]; intros index buffer; cbn.
  - f_equal. lia.
  - rewrite IH. f_equal. lia.
Qed.

Lemma run_transform_ops k meshIndex index dynamics (s : Locals) :
  DO.transformBuffer (DO.buffers
    (run k (mesh_ops (fun index instance => [DO.AddTransform index instance])
              (fun _ _ _ => []) meshIndex index dynamics) s))
  = DO.store_all getInstanceById toModelTransform k index (DO.all_instances dynamics)
      (DO.transformBuffer (DO.buffers s)).
Proof.
  revert meshIndex index s.
  induction dynamics as [|mi rest IH]; intros meshIndex index s; [reflexivity|].
  cbn [DO.mesh_ops app]. rewrite run_app, IH, run_instance_transforms.
  unfold DO.all_instances. cbn [map concat]. rewrite store_all_app. reflexivity.
Qed.

Lemma run_instance_materialIDs k index (ids : list InstanceId) (s : Locals) :
  DO.materialIDBuffer (DO.buffers
    (run k (instance_ops (fun index instance => [DO.AddMaterialID index instance]) index ids) s))
  = DO.store_all getInstanceById materialIDOf k index ids (DO.materialIDBuffer (DO.buffers s)).
Proof.
  revert index s. induction ids as [|id ids IH]; intros index s; [reflexivity|].
  cbn [DO.instance_ops DO.store_all app]. rewrite run_cons, IH. reflexivity.
Qed.

Lemma run_materialID_ops k meshIndex index dynamics (s : Locals) :
  DO.materialIDBuffer (DO.buffers
    (run k (mesh_ops (fun index instance => [DO.AddMaterialID index instance])
              (fun _ _ _ => []) meshIndex index dynamics) s))
  = DO.store_all getInstanceById materialIDOf k index (DO.all_instances dynamics)
      (DO.materialIDBuffer (DO.buffers s)).
Proof.
  revert meshIndex index s.
  induction dynamics as [|mi rest IH]; intros meshIndex index s; [reflexivity|].
  cbn [DO.mesh_ops app]. rewrite run_app, IH, run_instance_materialIDs.
  unfold DO.all_instances. cbn [map concat]. rewrite store_all_app. reflexivity.
Qed.

(** Consecutive stores do not reach below their first index, and the
    entry of the instance at position [j] ends up at [index + j]. *)
Lemma store_all_below {V : Type} (f : Instance -> V) (k index : Z) (ids : list InstanceId)
  (buffer : gmap (Z * Z) V) (k' i : Z) :
  k' <> k \/ i < index ->
  DO.store_all getInstanceById f k index ids buffer !! (k', i) = buffer !! (k', i).
Proof.
  revert index buffer. induction ids as [|id ids IH]; intros index buffer H; [reflexivity|].
  cbn [DO.store_all]. rewrite IH by lia.
  apply lookup_insert_ne. intros [= -> ->]. lia.
Qed.

Lemma store_all_lookup {V : Type} (f : Instance -> V) (k index : Z) (ids : list InstanceId)
  (buffer : gmap (Z * Z) V) (j : nat) (id : InstanceId) :
  ids !! j = Some id ->
  DO.store_all getInstanceById f k index ids buffer !! (k, index + Z.of_nat j)
  = Some (f (getInstanceById id)).
Proof.
  revert index buffer j. induction ids as [|id0 ids IH]; intros index buffer j H.
  - discriminate.
  - cbn [DO.store_all]. destruct j as [|j]; cbn in H.
    + injection H as ->. rewrite store_all_below by lia.
      replace (index + Z.of_nat 0) with index by lia. apply lookup_insert_eq.
    + replace (index + Z.of_nat (S j)) with (index + 1 + Z.of_nat j) by lia.
      apply IH. exact H.
Qed.

(** *** Sums of instance counts *)

Lemma instances_before_0 dynamics : DO.instances_before dynamics 0 = 0.
Proof. reflexivity. Qed.

Lemma instances_before_cons mi dynamics (i : nat) :
  DO.instances_before (mi :: dynamics) (S i)
  = Z.of_nat (length (DO.instances mi)) + DO.instances_before dynamics i.
Proof. reflexivity. Qed.

Lemma totalDynamicInstances_cons mi dynamics :
  DO.totalDynamicInstances (mi :: dynamics)
  = Z.of_nat (length (DO.instances mi)) + DO.totalDynamicInstances dynamics.
Proof. reflexivity. Qed.

Lemma instances_before_nonneg dynamics (i : nat) : 0 <= DO.instances_before dynamics i.
Proof.
  revert i. induction dynamics as [|mi rest IH]; intros [|i];
    try (rewrite instances_before_0; lia).
  - cbn. lia.
  - rewrite instances_before_cons. specialize (IH i). lia.
Qed.

Lemma totalDynamicInstances_nonneg dynamics : 0 <= DO.totalDynamicInstances dynamics.
Proof.
  induction dynamics as [|mi rest IH]; [cbn; lia|].
  rewrite totalDynamicInstances_cons. lia.
Qed.

Lemma instances_before_S dynamics (i : nat) mi :
  dynamics !! i = Some mi ->
  DO.instances_before dynamics (S i)
  = DO.instances_before dynamics i + Z.of_nat (length (DO.instances mi)).
Proof.
  revert i. induction dynamics as [|m0 rest IH]; intros i H; [discriminate|].
  destruct i as [|i]; cbn in H.
  - injection H as ->. rewrite instances_before_cons, !instances_before_0. lia.
  - rewrite !instances_before_cons. rewrite (IH i H). lia.
Qed.

Lemma instances_before_all dynamics :
  DO.instances_before dynamics (length dynamics) = DO.totalDynamicInstances dynamics.
Proof.
  induction dynamics as [|mi rest IH]; [reflexivity|].
  cbn [length]. rewrite instances_before_cons, totalDynamicInstances_cons, IH. reflexivity.
Qed.

Lemma instances_before_total dynamics (i : nat) mi :
  dynamics !! i = Some mi ->
  DO.instances_before dynamics i + Z.of_nat (length (DO.instances mi))
  <= DO.totalDynamicInstances dynamics.
Proof.
  revert i. induction dynamics as [|m0 rest IH]; intros i H; [discriminate|].
  rewrite totalDynamicInstances_cons.
  destruct i as [|i]; cbn in H.
  - injection H as ->. rewrite instances_before_0.
    pose proof (totalDynamicInstances_nonneg rest). lia.
  - rewrite instances_before_cons. specialize (IH i H). lia.
Qed.

(** The ranges follow one another: a later mesh starts where an earlier
    one has ended, or further on. *)
Lemma instances_before_mono dynamics (i i' : nat) mi :
  dynamics !! i = Some mi -> (i < i')%nat ->
  DO.instances_before dynamics i + Z.of_nat (length (DO.instances mi))
  <= DO.instances_before dynamics i'.
Proof.
  revert i i'. induction dynamics as [|m0 rest IH]; intros i i' H Hlt; [discriminate|].
  destruct i' as [|i']; [lia|].
  rewrite instances_before_cons.
  destruct i as [|i]; cbn in H.
  - injection H as ->. rewrite instances_before_0.
    pose proof (instances_before_nonneg rest i'). lia.
  - rewrite instances_before_cons. specialize (IH i i' H ltac:(lia)). lia.
Qed.

(** Every index below the total lies in the range of some mesh. *)
Lemma instances_before_cover dynamics x :
  0 <= x < DO.totalDynamicInstances dynamics ->
  exists (i : nat) mi,
    dynamics !! i = Some mi
    /\ DO.instances_before dynamics i <= x
       < DO.instances_before dynamics i + Z.of_nat (length (DO.instances mi)).
Proof.
  revert x. induction dynamics as [|m0 rest IH]; intros x Hx; [cbn in Hx; lia|].
  rewrite totalDynamicInstances_cons in Hx.
  destruct (Z_lt_ge_dec x (Z.of_nat (length (DO.instances m0)))) as [Hin|Hout].
  - exists 0%nat, m0. split; [reflexivity|]. rewrite instances_before_0. lia.
  - destruct (IH (x - Z.of_nat (length (DO.instances m0))) ltac:(lia)) as (i & mi & Hi & Hr).
    exists (S i), mi. split; [exact Hi|]. rewrite instances_before_cons. lia.
Qed.

(** The instance at position [j] of the mesh at position [i] is the
    instance at position [instances_before i + j] of the traversal. *)
Lemma all_instances_lookup dynamics (i j : nat) mi id :
  dynamics !! i = Some mi -> DO.instances mi !! j = Some id ->
  exists p : nat,
    Z.of_nat p = DO.instances_before dynamics i + Z.of_nat j
    /\ DO.all_instances dynamics !! p = Some id.
Proof.
  revert i. induction dynamics as [|m0 rest IH]; intros i Hi Hj; [discriminate|].
  unfold DO.all_instances. cbn [map concat].
  destruct i as [|i]; cbn in Hi.
  - injection Hi as ->. exists j. split; [rewrite instances_before_0; lia|].
    apply lookup_app_l_Some. exact Hj.
  - destruct (IH i Hi Hj) as (p & Hp & Hl).
    exists (length (DO.instances m0) + p)%nat. split.
    + rewrite instances_before_cons. lia.
    + rewrite lookup_app_r by lia.
      replace (length (DO.instances m0) + p - length (DO.instances m0))%nat with p by lia.
      exact Hl.
Qed.

(** *** The draw commands *)

Lemma run_drawCommand_ops k meshIndex index dynamics (s : Locals) :
  0 <= DO.baseInstance s < 2 ^ 32 ->
  let s' := run k (mesh_ops (fun _ _ => [])
                     (fun index mesh instances => [DO.AddDrawCommand index mesh instances])
                     meshIndex index dynamics) s in
  DO.baseInstance s' = GLuint (DO.baseInstance s + DO.totalDynamicInstances dynamics)
  /\ (forall (i : nat) mi, dynamics !! i = Some mi ->
        DO.drawCommandBuffer (DO.buffers s') !! (k, meshIndex + Z.of_nat i)
        = Some {| DrawCommand.elementCount := Mesh.elementCount (DO.mesh mi);
                  DrawCommand.instanceCount := GLuint (Z.of_nat (length (DO.instances mi)));
                  DrawCommand.elementOffset := Mesh.elementsIndex (DO.mesh mi);
                  DrawCommand.vertexOffset := Mesh.verticesIndex (DO.mesh mi);
                  DrawCommand.baseInstance :=
                    GLuint (DO.baseInstance s + DO.instances_before dynamics i) |})
  /\ (forall k' j, k' <> k \/ j < meshIndex ->
        DO.drawCommandBuffer (DO.buffers s') !! (k', j)
        = DO.drawCommandBuffer (DO.buffers s) !! (k', j)).
Proof.
  revert meshIndex index s.
  induction dynamics as [|m0 rest IH]; intros meshIndex index s Hb s'; subst s'.
  - cbn. split; [|split]; [|intros i mi H; discriminate|reflexivity].
    rewrite Z.add_0_r. symmetry. apply GLuint_id. exact Hb.
  - cbn [DO.mesh_ops]. rewrite instance_ops_none. cbn [app]. rewrite run_cons.
    set (s1 := exec k (DO.AddDrawCommand meshIndex (DO.mesh m0) (DO.instances m0)) s).
    assert (Hb1 : 0 <= DO.baseInstance s1 < 2 ^ 32) by apply GLuint_range.
    destruct (IH (meshIndex + 1) (index + Z.of_nat (length (DO.instances m0))) s1 Hb1)
      as (IHb & IHc & IHo).
    assert (Hbase : forall z, GLuint (DO.baseInstance s1 + z)
                     = GLuint (DO.baseInstance s + (Z.of_nat (length (DO.instances m0)) + z))).
    { intros z.
      change (DO.baseInstance s1)
        with (GLuint (DO.baseInstance s + GLuint (Z.of_nat (length (DO.instances m0))))).
      rewrite GLuint_add_l.
      replace (DO.baseInstance s + GLuint (Z.of_nat (length (DO.instances m0))) + z)
        with (GLuint (Z.of_nat (length (DO.instances m0))) + (DO.baseInstance s + z)) by lia.
      rewrite GLuint_add_l. f_equal. lia. }
    split; [|split].
    + rewrite IHb, Hbase, totalDynamicInstances_cons. reflexivity.
    + intros [|i] mi H; cbn in H.
      * injection H as ->. rewrite IHo by lia.
        replace (meshIndex + Z.of_nat 0) with meshIndex by lia.
        subst s1. cbn. rewrite lookup_insert_eq. do 2 f_equal.
        rewrite Z.add_0_r. symmetry. apply GLuint_id. exact Hb.
      * replace (meshIndex + Z.of_nat (S i)) with (meshIndex + 1 + Z.of_nat i) by lia.
        rewrite (IHc i mi H), Hbase, instances_before_cons. reflexivity.
    + intros k' j Hj. rewrite IHo by lia.
      subst s1. cbn. apply lookup_insert_ne. intros [= -> ->]. lia.
Qed.

Local Abbreviation updateDynamicObjects :=
  (DO.updateDynamicObjects getInstanceById toModelTransform materialIDOf multiBuffering
     sizeof_DrawCommand sizeof_ModelTransform sizeof_MaterialID).
Local Abbreviation writeDynamicObjects :=
  (DO.writeDynamicObjects getInstanceById toModelTransform materialIDOf multiBuffering
     sizeof_DrawCommand sizeof_ModelTransform sizeof_MaterialID).

(** With its three buffers mapped the pass gets its three pointers. *)
Lemma updateDynamicObjects_runs (self : DO.t) (schedule : list Op) :
  is_null (PMB.m_mapping (DO.m_objectDrawing_buffer self)) = false ->
  is_null (PMB.m_mapping (DO.m_objectTransforms self)) = false ->
  is_null (PMB.m_mapping (DO.m_objectMaterialIDs self)) = false ->
  updateDynamicObjects schedule self = Some (writeDynamicObjects schedule self).
Proof.
  intros M1 M2 M3. unfold DO.updateDynamicObjects.
  destruct (pointer_mapped multiBuffering _ (DO.m_partition self) M1) as [? ->].
  destruct (pointer_mapped multiBuffering _ (DO.m_partition self) M2) as [? ->].
  destruct (pointer_mapped multiBuffering _ (DO.m_partition self) M3) as [? ->].
  reflexivity.
Qed.

(** C2.  For one scene, one partition and one content of the buffers
    before the pass, [updateDynamicObjects] in single-threaded mode and in
    multi-threaded mode, whatever the order in which the calls of the three
    threads take place, leave the same contents in the draw-command,
    transform and material-ID buffers, the same draw count and start, and
    return the same ranges; and the one stops at an assertion of [pointer]
    exactly when the other does. *)
Theorem single_and_multi_threaded_agree (self : DO.t) (schedule ignored : list Op) :
  DO.schedule_of getInstanceById (DO.m_dynamics self) schedule ->
  match updateDynamicObjects ignored (DO.setThreadingMode false self),
        updateDynamicObjects schedule (DO.setThreadingMode true self) with
  | Some single, Some multi =>
      DO.memory multi.2 = DO.memory single.2
      /\ multi.1 = single.1
      /\ DO.m_objectDrawing_start multi.2 = DO.m_objectDrawing_start single.2
      /\ DO.m_objectDrawing_count multi.2 = DO.m_objectDrawing_count single.2
  | None, None => True
  | _, _ => False
  end.
Proof.
  intros Hs.
  unfold DO.updateDynamicObjects.
  cbn [DO.setThreadingMode DO.m_partition DO.m_objectDrawing_buffer DO.m_objectTransforms
       DO.m_objectMaterialIDs].
  destruct (PMB.pointer multiBuffering (DO.m_objectDrawing_buffer self) (DO.m_partition self));
    [|exact I].
  destruct (PMB.pointer multiBuffering (DO.m_objectTransforms self) (DO.m_partition self));
    [|exact I].
  destruct (PMB.pointer multiBuffering (DO.m_objectMaterialIDs self) (DO.m_partition self));
    [|exact I].
  unfold DO.writeDynamicObjects.
  cbn [DO.setThreadingMode DO.m_multiThreaded DO.m_dynamics DO.m_partition DO.memory
       DO.m_objectDrawing_buffer DO.m_objectTransforms DO.m_objectMaterialIDs
       negb fst snd DO.m_objectDrawing_start DO.m_objectDrawing_count].
  rewrite single_threaded_run.
  rewrite (run_schedule _ _ _ _ Hs).
  rewrite (run_schedule _ _ _ _ (single_ops_schedule (DO.m_dynamics self))).
  repeat split.
Qed.

(** In either mode the pass ends in the state the three traversals, run
    one after the other, end in. *)
Lemma writeDynamicObjects_memory (self : DO.t) (schedule : list Op) :
  (DO.m_multiThreaded self = true ->
   DO.schedule_of getInstanceById (DO.m_dynamics self) schedule) ->
  let k := DO.pointed_partition multiBuffering (DO.m_partition self) in
  DO.memory (writeDynamicObjects schedule self).2
  = DO.buffers
      (run k (DO.drawCommand_ops getInstanceById (DO.m_dynamics self))
         (run k (DO.materialID_ops getInstanceById (DO.m_dynamics self))
            (run k (DO.transform_ops getInstanceById (DO.m_dynamics self))
               {| DO.buffers := DO.memory self; DO.baseInstance := GLuint 0 |}))).
Proof.
  intros Hs k. unfold DO.writeDynamicObjects. cbn [snd DO.memory]. fold k.
  destruct (DO.m_multiThreaded self); cbn [negb].
  - rewrite (run_schedule _ _ _ _ (Hs eq_refl)). reflexivity.
  - rewrite single_threaded_run.
    rewrite (run_schedule _ _ _ _ (single_ops_schedule (DO.m_dynamics self))).
    reflexivity.
Qed.

(** C3.  A pass of [updateDynamicObjects] that gets its pointers writes
    one draw command per mesh of
    [m_dynamics], at the position of the mesh, whose base instance is the
    sum of the instance counts of the meshes before it.  The ranges
    [[baseInstance, baseInstance + instanceCount)] start at 0, follow one
    another without gap and end at the total: every index below the total
    lies in the range of exactly one mesh.  The transform and the material
    identifier of the instance at position [j] of a mesh are stored at
    index [baseInstance + j], inside the range of the mesh.  The instance
    counts are 32-bit: the total is assumed to fit. *)
Theorem dynamic_instance_ranges (self : DO.t) (schedule : list Op) result :
  (DO.m_multiThreaded self = true ->
   DO.schedule_of getInstanceById (DO.m_dynamics self) schedule) ->
  DO.totalDynamicInstances (DO.m_dynamics self) < 2 ^ 32 ->
  updateDynamicObjects schedule self = Some result ->
  let dynamics := DO.m_dynamics self in
  let k := DO.pointed_partition multiBuffering (DO.m_partition self) in
  let after := DO.memory result.2 in
  (forall (i : nat) mi, dynamics !! i = Some mi ->
     DO.drawCommandBuffer after !! (k, Z.of_nat i)
     = Some {| DrawCommand.elementCount := Mesh.elementCount (DO.mesh mi);
               DrawCommand.instanceCount := Z.of_nat (length (DO.instances mi));
               DrawCommand.elementOffset := Mesh.elementsIndex (DO.mesh mi);
               DrawCommand.vertexOffset := Mesh.verticesIndex (DO.mesh mi);
               DrawCommand.baseInstance := DO.instances_before dynamics i |})
  /\ DO.instances_before dynamics 0 = 0
  /\ (forall (i : nat) mi, dynamics !! i = Some mi ->
        DO.instances_before dynamics (S i)
        = DO.instances_before dynamics i + Z.of_nat (length (DO.instances mi)))
  /\ DO.instances_before dynamics (length dynamics) = DO.totalDynamicInstances dynamics
  /\ (forall x, 0 <= x < DO.totalDynamicInstances dynamics ->
        exists (i : nat) mi,
          dynamics !! i = Some mi
          /\ DO.instances_before dynamics i <= x
             < DO.instances_before dynamics i + Z.of_nat (length (DO.instances mi))
          /\ forall (i' : nat) mi',
               dynamics !! i' = Some mi' ->
               DO.instances_before dynamics i' <= x
               < DO.instances_before dynamics i' + Z.of_nat (length (DO.instances mi')) ->
               i' = i)
  /\ (forall (i j : nat) mi id,
        dynamics !! i = Some mi -> DO.instances mi !! j = Some id ->
        DO.instances_before dynamics i <= DO.instances_before dynamics i + Z.of_nat j
        < DO.instances_before dynamics i + Z.of_nat (length (DO.instances mi))
        /\ DO.transformBuffer after !! (k, DO.instances_before dynamics i + Z.of_nat j)
           = Some (toModelTransform (getInstanceById id))
        /\ DO.materialIDBuffer after !! (k, DO.instances_before dynamics i + Z.of_nat j)
           = Some (materialIDOf (getInstanceById id))).
Proof.
  intros Hs Hfit Hrun dynamics k after.
  change (DO.totalDynamicInstances dynamics < 2 ^ 32) in Hfit.
  assert (Hresult : result = writeDynamicObjects schedule self).
  { revert Hrun. unfold DO.updateDynamicObjects.
    repeat (match goal with
            | |- context [match ?x with Some _ => _ | None => _ end] => destruct x
            end; try discriminate).
    intros [= <-]. reflexivity. }
  assert (Hafter : after = DO.buffers
      (run k (DO.drawCommand_ops getInstanceById dynamics)
         (run k (DO.materialID_ops getInstanceById dynamics)
            (run k (DO.transform_ops getInstanceById dynamics)
               {| DO.buffers := DO.memory self; DO.baseInstance := GLuint 0 |}))))
    by (subst after; rewrite Hresult; apply writeDynamicObjects_memory; exact Hs).
  set (s0 := {| DO.buffers := DO.memory self; DO.baseInstance := GLuint 0 |}) in Hafter.
  set (s1 := run k (DO.transform_ops getInstanceById dynamics) s0) in Hafter.
  set (s2 := run k (DO.materialID_ops getInstanceById dynamics) s1) in Hafter.
  pose proof (transform_ops_target dynamics) as HT.
  pose proof (materialID_ops_target dynamics) as HM.
  pose proof (drawCommand_ops_target dynamics) as HD.
  assert (Hne12 : DO.ToTransforms <> DO.ToDrawCommands) by discriminate.
  assert (Hne13 : DO.ToTransforms <> DO.ToMaterialIDs) by discriminate.
  assert (Hne21 : DO.ToMaterialIDs <> DO.ToTransforms) by discriminate.
  assert (Hne23 : DO.ToMaterialIDs <> DO.ToDrawCommands) by discriminate.
  assert (Hne31 : DO.ToDrawCommands <> DO.ToTransforms) by discriminate.
  assert (Hne32 : DO.ToDrawCommands <> DO.ToMaterialIDs) by discriminate.
  (* the draw commands *)
  assert (Hbase2 : DO.baseInstance s2 = 0).
  { subst s2 s1.
    rewrite (proj2 (run_keeps_drawCommands k _ _ (Forall_target_ne _ _ _ Hne23 HM))).
    rewrite (proj2 (run_keeps_drawCommands k _ _ (Forall_target_ne _ _ _ Hne12 HT))).
    reflexivity. }
  assert (Hcount : forall (i : nat) mi, dynamics !! i = Some mi ->
            0 <= Z.of_nat (length (DO.instances mi))
            /\ DO.instances_before dynamics i + Z.of_nat (length (DO.instances mi)) < 2 ^ 32
            /\ 0 <= DO.instances_before dynamics i).
  { intros i mi Hi. pose proof (instances_before_total dynamics i mi Hi).
    pose proof (instances_before_nonneg dynamics i). lia. }
  split; [|split; [|split; [|split; [|split]]]].
  - intros i mi Hi.
    destruct (run_drawCommand_ops k 0 0 dynamics s2 ltac:(rewrite Hbase2; lia))
      as (_ & Hc & _).
    rewrite Hafter. unfold DO.drawCommand_ops.
    specialize (Hc i mi Hi). rewrite Z.add_0_l in Hc. rewrite Hc.
    destruct (Hcount i mi Hi) as (H0 & H1 & H2).
    rewrite Hbase2, Z.add_0_l, !GLuint_id by lia. reflexivity.
  - apply instances_before_0.
  - intros i mi Hi. apply instances_before_S. exact Hi.
  - apply instances_before_all.
  - intros x Hx.
    destruct (instances_before_cover dynamics x Hx) as (i & mi & Hi & Hr).
    exists i, mi. split; [exact Hi|]. split; [exact Hr|].
    intros i' mi' Hi' Hr'.
    destruct (Nat.lt_trichotomy i' i) as [Hlt|[Heq|Hgt]]; [|exact Heq|].
    + pose proof (instances_before_mono dynamics i' i mi' Hi' Hlt). lia.
    + pose proof (instances_before_mono dynamics i i' mi Hi Hgt). lia.
  - intros i j mi id Hi Hj.
    pose proof (lookup_lt_Some _ _ _ Hj) as Hjlt.
    split; [lia|].
    destruct (all_instances_lookup dynamics i j mi id Hi Hj) as (p & Hp & Hl).
    rewrite <- Hp. rewrite Hafter. split.
    + rewrite (run_keeps_transforms k _ _ (Forall_target_ne _ _ _ Hne31 HD)).
      subst s2.
      rewrite (run_keeps_transforms k _ _ (Forall_target_ne _ _ _ Hne21 HM)).
      subst s1. unfold DO.transform_ops. rewrite run_transform_ops.
      rewrite <- (Z.add_0_l (Z.of_nat p)). apply store_all_lookup. exact Hl.
    + rewrite (run_keeps_materialIDs k _ _ (Forall_target_ne _ _ _ Hne32 HD)).
      subst s2. unfold DO.materialID_ops. rewrite run_materialID_ops.
      rewrite <- (Z.add_0_l (Z.of_nat p)). apply store_all_lookup. exact Hl.
Qed.

End DynamicObjectPass.

Lemma draw_first_schedule dynamics :
  DO.schedule_of Samples.getInstanceById dynamics (Samples.draw_first dynamics).
Proof.
  exists (DO.materialID_ops Samples.getInstanceById dynamics
            ++ DO.transform_ops Samples.getInstanceById dynamics).
  split.
  - rewrite <- (app_nil_l (DO.transform_ops Samples.getInstanceById dynamics)) at 1.
    rewrite <- (app_nil_r (DO.materialID_ops Samples.getInstanceById dynamics)) at 1.
    apply interleave_app; [apply interleave_nil_l|apply interleave_nil_r].
  - unfold Samples.draw_first.
    rewrite <- (app_nil_l (DO.materialID_ops _ _ ++ DO.transform_ops _ _)) at 1.
    rewrite <- (app_nil_r (DO.drawCommand_ops Samples.getInstanceById dynamics)) at 1.
    apply interleave_app; [apply interleave_nil_l|apply interleave_nil_r].
Qed.

Lemma single_and_multi_threaded_agree_witness :
  exists single multi,
    Samples.updateDynamicObjects []
      (DO.setThreadingMode false (Samples.objects Samples.two_meshes 1)) = Some single
    /\ Samples.updateDynamicObjects (Samples.draw_first Samples.two_meshes)
         (DO.setThreadingMode true (Samples.objects Samples.two_meshes 1)) = Some multi
    /\ DO.memory multi.2 = DO.memory single.2
    /\ multi.1 = single.1
    /\ DO.m_objectDrawing_start multi.2 = DO.m_objectDrawing_start single.2
    /\ DO.m_objectDrawing_count multi.2 = DO.m_objectDrawing_count single.2.
Proof.
  pose proof (single_and_multi_threaded_agree Samples.getInstanceById
                Samples.toModelTransform Samples.materialIDOf 3 20 48 4
                (Samples.objects Samples.two_meshes 1)
                (Samples.draw_first Samples.two_meshes) []
                (draw_first_schedule Samples.two_meshes)) as H.
  unfold Samples.updateDynamicObjects.
  rewrite !updateDynamicObjects_runs in H |- * by (vm_compute; reflexivity).
  eexists _, _. split; [reflexivity|]. split; [reflexivity|]. exact H.
Defined.

Lemma dynamic_instance_ranges_witness :
  DO.totalDynamicInstances Samples.two_meshes < 2 ^ 32 /\
  let dynamics := Samples.two_meshes in
  let k := DO.pointed_partition 3 1 in
  exists result,
  Samples.updateDynamicObjects (Samples.draw_first Samples.two_meshes)
    (Samples.objects Samples.two_meshes 1) = Some result /\
  let after := DO.memory result.2 in
  (forall (i : nat) mi, dynamics !! i = Some mi ->
     DO.drawCommandBuffer after !! (k, Z.of_nat i)
     = Some {| DrawCommand.elementCount := Mesh.elementCount (DO.mesh mi);
               DrawCommand.instanceCount := Z.of_nat (length (DO.instances mi));
               DrawCommand.elementOffset := Mesh.elementsIndex (DO.mesh mi);
               DrawCommand.vertexOffset := Mesh.verticesIndex (DO.mesh mi);
               DrawCommand.baseInstance := DO.instances_before dynamics i |})
  /\ DO.instances_before dynamics 0 = 0
  /\ (forall (i : nat) mi, dynamics !! i = Some mi ->
        DO.instances_before dynamics (S i)
        = DO.instances_before dynamics i + Z.of_nat (length (DO.instances mi)))
  /\ DO.instances_before dynamics (length dynamics) = DO.totalDynamicInstances dynamics
  /\ (forall x, 0 <= x < DO.totalDynamicInstances dynamics ->
        exists (i : nat) mi,
          dynamics !! i = Some mi
          /\ DO.instances_before dynamics i <= x
             < DO.instances_before dynamics i + Z.of_nat (length (DO.instances mi))
          /\ forall (i' : nat) mi',
               dynamics !! i' = Some mi' ->
               DO.instances_before dynamics i' <= x
               < DO.instances_before dynamics i' + Z.of_nat (length (DO.instances mi')) ->
               i' = i)
  /\ (forall (i j : nat) mi id,
        dynamics !! i = Some mi -> DO.instances mi !! j = Some id ->
        DO.instances_before dynamics i <= DO.instances_before dynamics i + Z.of_nat j
        < DO.instances_before dynamics i + Z.of_nat (length (DO.instances mi))
        /\ DO.transformBuffer after !! (k, DO.instances_before dynamics i + Z.of_nat j)
           = Some (Samples.toModelTransform (Samples.getInstanceById id))
        /\ DO.materialIDBuffer after !! (k, DO.instances_before dynamics i + Z.of_nat j)
           = Some (Samples.materialIDOf (Samples.getInstanceById id))).
Proof.
  split; [reflexivity|].
  eexists. split.
  - apply updateDynamicObjects_runs; vm_compute; reflexivity.
  - apply (dynamic_instance_ranges Samples.getInstanceById Samples.toModelTransform
             Samples.materialIDOf 3 20 48 4 (Samples.objects Samples.two_meshes 1)
             (Samples.draw_first Samples.two_meshes)).
    + intros _. apply draw_first_schedule.
    + reflexivity.
    + apply updateDynamicObjects_runs; vm_compute; reflexivity.
Defined.

(** The pass on the sample scene, partition 1, single-threaded. *)
Example two_meshes_single_threaded :
  exists r,
  Samples.updateDynamicObjects []
             (DO.setThreadingMode false (Samples.objects Samples.two_meshes 1)) = Some r /\
  map (fun i => DO.drawCommandBuffer (DO.memory r.2) !! (1, i)) [0; 1; 2]
  = [ Some {| DrawCommand.elementCount := 36; DrawCommand.instanceCount := 2;
              DrawCommand.elementOffset := 0; DrawCommand.vertexOffset := 0;
              DrawCommand.baseInstance := 0 |};
      Some {| DrawCommand.elementCount := 6; DrawCommand.instanceCount := 3;
              DrawCommand.elementOffset := 36; DrawCommand.vertexOffset := 24;
              DrawCommand.baseInstance := 2 |};
      None ]
  /\ map (fun i => DO.transformBuffer (DO.memory r.2) !! (1, i)) [0; 1; 2; 3; 4; 5]
     = [Some 110; Some 111; Some 120; Some 121; Some 122; None]
  /\ map (fun i => DO.materialIDBuffer (DO.memory r.2) !! (1, i)) [0; 1; 2; 3; 4; 5]
     = [Some 2; Some 3; Some 0; Some 1; Some 2; None]
  /\ DO.transformBuffer (DO.memory r.2) !! (0, 0) = None
  /\ r.1 = {| DO.drawCommands := {| ModifiedRange.offset := 40; ModifiedRange.length := 40 |};
              DO.transforms := {| ModifiedRange.offset := 240; ModifiedRange.length := 240 |};
              DO.materialIDs := {| ModifiedRange.offset := 20; ModifiedRange.length := 20 |} |}.
Proof. eexists. split; [vm_compute; reflexivity|]. vm_compute. repeat split. Qed.

(** The same pass, multi-threaded, the calling thread first. *)
Example two_meshes_multi_threaded :
  exists r,
  Samples.updateDynamicObjects (Samples.draw_first Samples.two_meshes)
             (Samples.objects Samples.two_meshes 1) = Some r /\
  map (fun i => DO.drawCommandBuffer (DO.memory r.2) !! (1, i)) [0; 1; 2]
  = [ Some {| DrawCommand.elementCount := 36; DrawCommand.instanceCount := 2;
              DrawCommand.elementOffset := 0; DrawCommand.vertexOffset := 0;
              DrawCommand.baseInstance := 0 |};
      Some {| DrawCommand.elementCount := 6; DrawCommand.instanceCount := 3;
              DrawCommand.elementOffset := 36; DrawCommand.vertexOffset := 24;
              DrawCommand.baseInstance := 2 |};
      None ]
  /\ map (fun i => DO.transformBuffer (DO.memory r.2) !! (1, i)) [0; 1; 2; 3; 4; 5]
     = [Some 110; Some 111; Some 120; Some 121; Some 122; None].
Proof. eexists. split; [vm_compute; reflexivity|]. vm_compute. repeat split. Qed.

(** One mesh of 36 elements with five instances, partition 0: one command
    [(36, 5, 0, 0, 0)] and five transforms at indices 0 to 4. *)
Example one_mesh_five_instances :
  exists r,
  Samples.updateDynamicObjects []
             (DO.setThreadingMode false (Samples.objects Samples.one_mesh 0)) = Some r /\
  map (fun i => DO.drawCommandBuffer (DO.memory r.2) !! (0, i)) [0; 1]
  = [ Some {| DrawCommand.elementCount := 36; DrawCommand.instanceCount := 5;
              DrawCommand.elementOffset := 0; DrawCommand.vertexOffset := 0;
              DrawCommand.baseInstance := 0 |};
      None ]
  /\ map (fun i => DO.transformBuffer (DO.memory r.2) !! (0, i)) [0; 1; 2; 3; 4; 5]
     = [Some 101; Some 102; Some 103; Some 104; Some 105; None]
  /\ DO.m_objectDrawing_count r.2 = 1.
Proof. eexists. split; [vm_compute; reflexivity|]. vm_compute. repeat split. Qed.

(** ** The frame: fence, tasks and partition index *)

Module R := Renderer.

Section Frame.

Variable multiBuffering : Z.
Variable lightVolumeCount : Z.
Variables sizeof_DrawCommand sizeof_ModelTransform sizeof_MaterialID : Z.

Local Abbreviation initialise :=
  (R.initialise multiBuffering lightVolumeCount sizeof_DrawCommand sizeof_ModelTransform
     sizeof_MaterialID).
Local Abbreviation call :=
  (R.call multiBuffering lightVolumeCount sizeof_DrawCommand sizeof_ModelTransform
     sizeof_MaterialID).
Local Abbreviation reachable :=
  (R.reachable multiBuffering lightVolumeCount sizeof_DrawCommand sizeof_ModelTransform
     sizeof_MaterialID).
Local Abbreviation render := (R.render multiBuffering).
Local Abbreviation frame := (R.frame multiBuffering).
Local Abbreviation well_formed := (R.well_formed multiBuffering).

Lemma sync_at_set_sync k sync (self : R.t) :
  (Z.to_nat k < length (R.m_syncs self))%nat ->
  R.sync_at (R.set_sync k sync self) k = sync.
Proof.
  intros H. unfold R.sync_at, R.set_sync. cbn.
  rewrite list_lookup_insert_eq by exact H. reflexivity.
Qed.

Lemma well_formed_in_range (self : R.t) :
  well_formed self -> (Z.to_nat (R.m_partition self) < length (R.m_syncs self))%nat.
Proof. intros [Hp Hl]. rewrite Hl. lia. Qed.

(** [syncWithGPUIfNecessary] by the state of the fence of the current
    partition: what it asks of the fence, and that it returns only when the
    fence is not armed-and-unsignalled. *)
Lemma syncWithGPUIfNecessary_spec device (self : R.t) :
  well_formed self ->
  let k := R.m_partition self in
  let result := R.syncWithGPUIfNecessary device self in
  result.2
  = match R.sync_at self k with
    | Sync.Unarmed => []
    | Sync.Signalled => [R.CheckIfSignalled k true]
    | Sync.Armed =>
        R.CheckIfSignalled k (R.reached_at_poll device)
          :: (if R.reached_at_poll device then []
              else R.WaitForSignal k true R.oneSecond (R.reached_in_wait device)
                     :: (if R.reached_in_wait device then [] else [R.AssertionFailed]))
    end
  /\ match result.1 with
     | R.Completed self' =>
         R.m_partition self' = k
         /\ R.sync_at self' k <> Sync.Armed
         /\ R.m_deferredRender self' = R.m_deferredRender self
         /\ R.m_multiThreaded self' = R.m_multiThreaded self
         /\ length (R.m_syncs self') = length (R.m_syncs self)
     | R.Aborted =>
         R.sync_at self k = Sync.Armed
         /\ R.reached_at_poll device = false /\ R.reached_in_wait device = false
     end.
Proof.
  intros Hwf k result. subst result.
  pose proof (well_formed_in_range self Hwf) as Hk. fold k in Hk.
  unfold R.syncWithGPUIfNecessary. fold k.
  destruct (R.sync_at self k) eqn:Hs; cbn.
  - rewrite Hs. repeat split; discriminate.
  - destruct (R.reached_at_poll device); cbn.
    + rewrite sync_at_set_sync by exact Hk.
      repeat split; try discriminate. apply length_insert.
    + destruct (R.reached_in_wait device); cbn.
      * rewrite sync_at_set_sync by exact Hk.
        repeat split; try discriminate. apply length_insert.
      * repeat split.
  - rewrite sync_at_set_sync by exact Hk.
    repeat split; try discriminate. apply length_insert.
Qed.

(** What [render] adds to [syncWithGPUIfNecessary]. *)
Lemma render_unfold device (self : R.t) :
  render device self
  = match R.syncWithGPUIfNecessary device self with
    | (R.Aborted, e1) => (R.Aborted, e1)
    | (R.Completed self', e1) => ((frame device self').1, e1 ++ (frame device self').2)
    end.
Proof.
  unfold R.render.
  destruct (R.syncWithGPUIfNecessary device self) as [[self'|] e1]; [|reflexivity].
  destruct (R.frame multiBuffering device self') as [o e]. reflexivity.
Qed.

Ltac frame_cases device self :=
  unfold R.frame, R.launch_all, R.async, R.forwardRender, R.deferredRender,
    R.destroy_actions;
  destruct device as [polled waited created starts]; cbn [R.starts_at_once R.fence_created];
  destruct (R.m_multiThreaded self);
  destruct (starts R.SceneUniforms), (starts R.DynamicObjects),
    (starts R.DirectionalLights), (starts R.PointLights), (starts R.SpotLights),
    (starts R.LightDrawCommands);
  destruct created.

(** In forward mode, from a state in which the fence of the current
    partition is not armed-and-unsignalled: every task is launched and
    starts on that partition, and none after the fence has been armed. *)
Lemma forward_frame_safe device (self : R.t) :
  R.m_deferredRender self = false ->
  R.sync_at self (R.m_partition self) <> Sync.Armed ->
  Forall (R.safe_for (R.m_partition self)) (frame device self).2
  /\ Forall (fun e => R.is_launch e = false /\ R.is_run e = false)
       (R.after_arm (frame device self).2).
Proof.
  intros Hf Hs.
  frame_cases device self; rewrite Hf;
    destruct (R.sync_at self (R.m_partition self)) eqn:E; try contradiction;
    cbn; (split; [repeat constructor; congruence|repeat constructor]).
Qed.

(** In either rendering mode the tasks are launched after the wait, on
    the current partition, its fence not armed-and-unsignalled. *)
Lemma frame_launches_safe device (self : R.t) :
  R.sync_at self (R.m_partition self) <> Sync.Armed ->
  Forall (fun e => R.is_launch e = true -> R.safe_for (R.m_partition self) e)
    (frame device self).2.
Proof.
  intros Hs.
  frame_cases device self; destruct (R.m_deferredRender self);
    destruct (R.sync_at self (R.m_partition self)) eqn:E; try contradiction;
    cbn;
    repeat (constructor;
            try (cbn; intros; first [discriminate|split; congruence])).
Qed.

(** C1 on the forward path.  In forward-rendering mode, every frame starts
    with the check of the fence of the current partition [k]: nothing is
    asked of a fence that is unarmed; an armed fence is polled and, when the
    poll says it is not signalled, waited for with [forceFlush = true] and a
    timeout of one second; a wait that times out ends the frame at the
    assertion, with no task launched.  Everything else of the frame comes
    after: each task is launched, and the body of each task starts, on
    partition [k] while the fence of [k] is not armed-and-unsignalled, and
    no task is launched or starts once the fence has been armed again. *)
Theorem forward_frame_waits_before_writing device (self : R.t) :
  well_formed self ->
  R.m_deferredRender self = false ->
  let k := R.m_partition self in
  let result := render device self in
  let sync := (R.syncWithGPUIfNecessary device self).2 in
  exists rest,
    result.2 = sync ++ rest
    /\ sync
       = match R.sync_at self k with
         | Sync.Unarmed => []
         | Sync.Signalled => [R.CheckIfSignalled k true]
         | Sync.Armed =>
             R.CheckIfSignalled k (R.reached_at_poll device)
               :: (if R.reached_at_poll device then []
                   else R.WaitForSignal k true R.oneSecond (R.reached_in_wait device)
                          :: (if R.reached_in_wait device then []
                              else [R.AssertionFailed]))
         end
    /\ (R.sync_at self k = Sync.Armed -> R.reached_at_poll device = false ->
        R.reached_in_wait device = false -> rest = [] /\ result.1 = R.Aborted)
    /\ Forall (R.safe_for k) rest
    /\ Forall (fun e => R.is_launch e = false /\ R.is_run e = false) (R.after_arm rest).
Proof.
  intros Hwf Hf k result sync. subst result sync.
  destruct (syncWithGPUIfNecessary_spec device self Hwf) as [Htrace Hres].
  fold k in Htrace, Hres.
  rewrite render_unfold.
  destruct (R.syncWithGPUIfNecessary device self) as [[self'|] e1] eqn:E; cbn in *.
  - destruct Hres as (Hk & Hs & Hd & _ & _).
    exists (frame device self').2. split; [reflexivity|]. split; [exact Htrace|].
    rewrite <- Hk in Hs. rewrite <- Hd in Hf.
    destruct (forward_frame_safe device self' Hf Hs) as [H1 H2].
    rewrite Hk in H1. split; [|split; assumption].
    intros Ha Hp Hw. exfalso. revert E. unfold R.syncWithGPUIfNecessary.
    fold k. rewrite Ha. cbn. rewrite Hp. cbn. rewrite Hw. cbn. discriminate.
  - exists []. rewrite app_nil_r. split; [reflexivity|]. split; [exact Htrace|].
    split; [intros; split; reflexivity|]. split; constructor.
Qed.

(** In either rendering mode: the launches follow the check, and at each
    launch the fence of the current partition is not armed-and-unsignalled. *)
Lemma launches_follow_the_check device (self : R.t) :
  well_formed self ->
  Forall (fun e => R.is_launch e = true -> R.safe_for (R.m_partition self) e)
    (render device self).2.
Proof.
  intros Hwf.
  destruct (syncWithGPUIfNecessary_spec device self Hwf) as [Htrace Hres].
  rewrite render_unfold.
  destruct (R.syncWithGPUIfNecessary device self) as [[self'|] e1] eqn:E; cbn in *.
  - destruct Hres as (Hk & Hs & _).
    apply Forall_app. split.
    + rewrite Htrace.
      destruct (R.sync_at self (R.m_partition self)), (R.reached_at_poll device),
        (R.reached_in_wait device);
        repeat (constructor; try (cbn; intros; discriminate)).
    + rewrite <- Hk in Hs |- *. apply frame_launches_safe. exact Hs.
  - rewrite Htrace. destruct Hres as (-> & -> & ->).
    repeat (constructor; try (cbn; intros; discriminate)).
Qed.

(** C7.  When the fence of the current partition is armed, the poll says
    it is not signalled and the wait times out, [render] stops at the
    assertion that follows the wait: one wait, no retry, no task launched,
    no partition written, in every mode. *)
Theorem fence_timeout_is_fatal device (self : R.t) :
  R.sync_at self (R.m_partition self) = Sync.Armed ->
  R.reached_at_poll device = false ->
  R.reached_in_wait device = false ->
  render device self
  = (R.Aborted,
     [R.CheckIfSignalled (R.m_partition self) false;
      R.WaitForSignal (R.m_partition self) true R.oneSecond false;
      R.AssertionFailed]).
Proof.
  intros Ha Hp Hw. unfold R.render, R.syncWithGPUIfNecessary.
  rewrite Ha. cbn. rewrite Hp. cbn. rewrite Hw. reflexivity.
Qed.

(** *** The partition index *)

Ltac split_matches :=
  repeat (match goal with
          | |- context [match ?x with _ => _ end] => destruct x
          end; cbn).

Lemma buildDynamicObjectBuffers_keeps b (self : R.t) :
  R.frame_state (R.buildDynamicObjectBuffers multiBuffering sizeof_DrawCommand
                   sizeof_ModelTransform sizeof_MaterialID b self).2
  = R.frame_state self.
Proof.
  unfold R.buildDynamicObjectBuffers.
  destruct (R.m_scene self) eqn:E; cbn; [|reflexivity].
  repeat (match goal with
          | |- context [PMB.initialise_size ?a ?b ?c ?d ?e ?f] =>
              destruct (PMB.initialise_size a b c d e f) as [[[|] ?] ?]
          end; cbn); reflexivity.
Qed.

Lemma buildLightBuffers_keeps b (self : R.t) :
  R.frame_state (R.buildLightBuffers multiBuffering lightVolumeCount sizeof_DrawCommand
                   sizeof_ModelTransform b self).2
  = R.frame_state self.
Proof.
  unfold R.buildLightBuffers.
  destruct (R.m_scene self) eqn:E; cbn; [|reflexivity].
  repeat (match goal with
          | |- context [PMB.initialise_size ?a ?b ?c ?d ?e ?f] =>
              destruct (PMB.initialise_size a b c d e f) as [[[|] ?] ?]
          end; cbn); reflexivity.
Qed.

Lemma buildFramebuffers_keeps b (self : R.t) :
  R.frame_state (R.buildFramebuffers b self).2 = R.frame_state self.
Proof. unfold R.buildFramebuffers. destruct (R.gbuffer_ok b); reflexivity. Qed.

Lemma setInternalResolution_keeps b resolution (self : R.t) :
  R.frame_state (R.setInternalResolution b resolution self) = R.frame_state self.
Proof.
  unfold R.setInternalResolution, R.buildUniforms, R.buildFramebuffers.
  split_matches; reflexivity.
Qed.

Lemma fillDynamicInstances_keeps (self : R.t) :
  R.frame_state (R.fillDynamicInstances self) = R.frame_state self.
Proof. unfold R.fillDynamicInstances. destruct (R.m_scene self); reflexivity. Qed.

(** [initialise] leaves the partition index and the fences alone, and
    keeps the scene it was given, whatever it returns. *)
Lemma initialise_keeps b resize scene internalRes displayRes (self : R.t) :
  R.frame_state (initialise b resize scene internalRes displayRes self).1.2
  = (R.m_partition self, R.m_syncs self, Some scene).
Proof.
  unfold R.initialise.
  destruct (R.buildPrograms b _) as [ok s1] eqn:E1.
  assert (K1 : R.frame_state s1 = (R.m_partition self, R.m_syncs self, Some scene))
    by (apply (f_equal snd) in E1; cbn in E1; subst s1; reflexivity).
  destruct ok; cbn [negb]; [|exact K1].
  destruct (R.buildMaterials b s1) as [ok s2] eqn:E2.
  assert (K2 : R.frame_state s2 = R.frame_state s1)
    by (apply (f_equal snd) in E2; cbn in E2; subst s2; reflexivity).
  destruct ok; cbn [negb]; [|cbn; congruence].
  pose proof (buildDynamicObjectBuffers_keeps b s2) as K3.
  destruct (R.buildDynamicObjectBuffers _ _ _ _ b s2) as [ok s3].
  destruct ok; cbn [negb]; [|cbn in *; congruence].
  pose proof (buildLightBuffers_keeps b s3) as K4.
  destruct (R.buildLightBuffers _ _ _ _ b s3) as [ok s4].
  destruct ok; cbn [negb]; [|cbn in *; congruence].
  destruct (R.buildGeometry b s4) as [ok s5] eqn:E5.
  assert (K5 : R.frame_state s5 = R.frame_state s4)
    by (apply (f_equal snd) in E5; cbn in E5; subst s5; reflexivity).
  destruct ok; cbn [negb]; [|cbn in *; congruence].
  pose proof (setInternalResolution_keeps resize internalRes s5) as K6.
  set (s6 := R.setInternalResolution resize internalRes s5) in *.
  assert (K7 : R.frame_state (R.setDisplayResolution displayRes s6) = R.frame_state s6)
    by reflexivity.
  set (s7 := R.setDisplayResolution displayRes s6) in *.
  pose proof (buildFramebuffers_keeps b s7) as K8.
  destruct (R.buildFramebuffers b s7) as [ok s8].
  destruct ok; cbn [negb]; [|cbn in *; congruence].
  destruct (R.buildUniforms b s8) as [ok s9] eqn:E9.
  assert (K9 : R.frame_state s9 = R.frame_state s8)
    by (apply (f_equal snd) in E9; cbn in E9; subst s9; reflexivity).
  destruct ok; cbn [negb]; [|cbn in *; congruence].
  cbn [fst snd]. rewrite fillDynamicInstances_keeps. cbn in *. congruence.
Qed.

Lemma frame_completes device (self self' : R.t) :
  (frame device self).1 = R.Completed self' ->
  R.m_partition self' = size_t (size_t (R.m_partition self + 1) mod multiBuffering)
  /\ length (R.m_syncs self') = length (R.m_syncs self)
  /\ List.filter R.is_advance (frame device self).2
     = [R.AdvancePartition (R.m_partition self')].
Proof.
  frame_cases device self; destruct (R.m_deferredRender self);
    destruct (R.sync_at self (R.m_partition self)) eqn:E;
    cbn; intros [= <-]; cbn; rewrite ?length_insert; auto.
Qed.

(** *** Initialisation *)

(** [initialise] returns true after all its steps; when it returns false
    it has stopped after the step that failed. *)
Lemma initialise_steps b resize scene internalRes displayRes (self : R.t) :
  let r := initialise b resize scene internalRes displayRes self in
  (r.1.1 = true -> r.2 = R.all_steps)
  /\ (r.1.1 = false -> exists n : nat, (1 <= n <= 8)%nat /\ r.2 = take n R.all_steps).
Proof.
  unfold R.initialise.
  repeat (match goal with
          | |- context [match ?x with (_, _) => _ end] => destruct x as [[|] ?]
          end; cbn [negb]);
    cbn [fst snd]; (split; [intros H; try discriminate; reflexivity|]);
    intros H; try discriminate.
  - exists 8%nat. split; [lia|reflexivity].
  - exists 7%nat. split; [lia|reflexivity].
  - exists 5%nat. split; [lia|reflexivity].
  - exists 4%nat. split; [lia|reflexivity].
  - exists 3%nat. split; [lia|reflexivity].
  - exists 2%nat. split; [lia|reflexivity].
  - exists 1%nat. split; [lia|reflexivity].
Qed.

(** [initialise] never leaves the renderer uninitialised: whatever the
    outcome, the scene pointer stays set, and no path calls [clean]. *)
Lemma initialise_never_uninitialised b resize scene internalRes displayRes (self : R.t) :
  R.uninitialised (initialise b resize scene internalRes displayRes self).1.2 = false.
Proof.
  pose proof (initialise_keeps b resize scene internalRes displayRes self) as K.
  injection K as _ _ Hs. unfold R.uninitialised. rewrite Hs. reflexivity.
Qed.

Hypothesis multiBuffering_range : 0 < multiBuffering < 2 ^ 64.

Lemma advance_in_range k :
  0 <= k < multiBuffering ->
  size_t (size_t (k + 1) mod multiBuffering) = (k + 1) mod multiBuffering
  /\ 0 <= (k + 1) mod multiBuffering < multiBuffering.
Proof.
  intros Hk.
  pose proof (Z.mod_pos_bound (k + 1) multiBuffering ltac:(lia)) as Hm.
  rewrite (size_t_id (k + 1)) by lia.
  rewrite size_t_id by lia. split; [reflexivity|exact Hm].
Qed.

Lemma render_completes device (self self' : R.t) :
  well_formed self ->
  (render device self).1 = R.Completed self' ->
  well_formed self'
  /\ R.m_partition self' = (R.m_partition self + 1) mod multiBuffering
  /\ List.filter R.is_advance (render device self).2
     = [R.AdvancePartition ((R.m_partition self + 1) mod multiBuffering)].
Proof.
  intros Hwf.
  destruct (syncWithGPUIfNecessary_spec device self Hwf) as [Htrace Hres].
  rewrite render_unfold.
  destruct (R.syncWithGPUIfNecessary device self) as [[self1|] e1]; cbn in *;
    [|discriminate].
  destruct Hres as (Hk & _ & _ & _ & Hl).
  intros Hc. destruct (frame_completes device self1 self' Hc) as (Hp & Hl' & Hadv).
  rewrite Hk in Hp.
  destruct Hwf as [Hr Hlen].
  destruct (advance_in_range _ Hr) as [Heq Hin].
  rewrite Heq in Hp.
  split; [|split].
  - split; [rewrite Hp; exact Hin|congruence].
  - exact Hp.
  - rewrite List.filter_app, Hadv, Hp.
    replace (List.filter R.is_advance e1) with (@nil R.Event); [reflexivity|].
    rewrite Htrace.
    destruct (R.sync_at self (R.m_partition self)), (R.reached_at_poll device),
      (R.reached_in_wait device); reflexivity.
Qed.

Lemma call_completes c (self self' : R.t) :
  well_formed self ->
  call c self = R.Completed self' ->
  well_formed self'
  /\ R.m_partition self'
     = match c with
       | R.CallRender _ => (R.m_partition self + 1) mod multiBuffering
       | _ => R.m_partition self
       end.
Proof.
  intros Hwf.
  destruct c as [b rs scene internalRes displayRes| |device|mode|mode|b resolution|resolution];
    cbn [R.call].
  - intros [= <-].
    pose proof (initialise_keeps b rs scene internalRes displayRes self) as K.
    injection K as Kp Ks _. unfold R.well_formed. rewrite Kp, Ks.
    split; [exact Hwf|reflexivity].
  - intros [= <-]. unfold R.well_formed. cbn. rewrite length_map.
    split; [exact Hwf|reflexivity].
  - intros Hc. destruct (render_completes device self self' Hwf Hc) as (H1 & H2 & _).
    split; assumption.
  - intros [= <-]. split; [exact Hwf|reflexivity].
  - intros [= <-]. split; [exact Hwf|reflexivity].
  - intros [= <-].
    pose proof (setInternalResolution_keeps b resolution self) as K.
    injection K as Kp Ks _. unfold R.well_formed. rewrite Kp, Ks.
    split; [exact Hwf|reflexivity].
  - intros [= <-]. split; [exact Hwf|reflexivity].
Qed.

Lemma reachable_well_formed (self : R.t) : reachable self -> well_formed self.
Proof.
  induction 1 as [|c self self' _ IH Hc].
  - split; cbn; [lia|]. apply length_replicate.
  - exact (proj1 (call_completes c self self' IH Hc)).
Qed.

(** C4.  In every state the renderer can reach, the partition index is in
    [[0, multiBuffering)].  A call of [render] that returns leaves it at
    [(m_partition + 1) mod multiBuffering], having advanced it once; every
    other member function, [clean] and [initialise] among them, leaves it
    as it is. *)
Theorem partition_index_advances (self : R.t) :
  reachable self ->
  0 <= R.m_partition self < multiBuffering
  /\ (forall c self', call c self = R.Completed self' ->
        R.m_partition self'
        = match c with
          | R.CallRender _ => (R.m_partition self + 1) mod multiBuffering
          | _ => R.m_partition self
          end)
  /\ (forall device self', (render device self).1 = R.Completed self' ->
        List.filter R.is_advance (render device self).2
        = [R.AdvancePartition ((R.m_partition self + 1) mod multiBuffering)]).
Proof.
  intros Hr. pose proof (reachable_well_formed self Hr) as Hwf.
  split; [exact (proj1 Hwf)|]. split.
  - intros c self' Hc. exact (proj2 (call_completes c self self' Hwf Hc)).
  - intros device self' Hc.
    exact (proj2 (proj2 (render_completes device self self' Hwf Hc))).
Qed.

End Frame.

Lemma ready_reachable : R.reachable 3 3 20 48 4 Samples.ready.
Proof.
  apply (R.reachable_call 3 3 20 48 4
           (R.CallInitialise Samples.all_ok Samples.all_ok Samples.scene
              (1280, 720) (1280, 720))
           (R.fresh 3) Samples.ready (R.reachable_fresh 3 3 20 48 4)).
  vm_compute. reflexivity.
Qed.

Lemma partition_index_advances_witness :
  0 <= R.m_partition Samples.ready < 3
  /\ (forall c self', R.call 3 3 20 48 4 c Samples.ready = R.Completed self' ->
        R.m_partition self'
        = match c with
          | R.CallRender _ => (R.m_partition Samples.ready + 1) mod 3
          | _ => R.m_partition Samples.ready
          end)
  /\ (forall device self', (R.render 3 device Samples.ready).1 = R.Completed self' ->
        List.filter R.is_advance (R.render 3 device Samples.ready).2
        = [R.AdvancePartition ((R.m_partition Samples.ready + 1) mod 3)]).
Proof.
  apply (partition_index_advances 3 3 20 48 4); [lia|exact ready_reachable].
Defined.

(** Six frames of a prompt device: the index goes 1, 2, 0, 1, 2, 0. *)
Example six_frames :
  map (fun n =>
         match Samples.frames (replicate n Samples.prompt) Samples.ready_forward with
         | R.Completed self => Some (R.m_partition self)
         | R.Aborted => None
         end) [1; 2; 3; 4; 5; 6]%nat
  = [Some 1; Some 2; Some 0; Some 1; Some 2; Some 0].
Proof. vm_compute. reflexivity. Qed.

(** [clean] and [initialise] leave the index where the frames left it. *)
Example clean_keeps_partition :
  match Samples.frames [Samples.prompt; Samples.prompt] Samples.ready_forward with
  | R.Completed self =>
      (R.m_partition self, R.m_partition (R.clean self),
       R.m_partition (Samples.initialise Samples.all_ok (R.clean self)).1.2)
  | R.Aborted => (0, 0, 0)
  end = (2, 2, 2).
Proof. vm_compute. reflexivity. Qed.

Lemma after_three_frames_well_formed : R.well_formed 3 Samples.after_three_frames.
Proof.
  split; [|vm_compute; reflexivity].
  assert (R.m_partition Samples.after_three_frames = 0) as -> by (vm_compute; reflexivity).
  lia.
Qed.

(** Forward rendering, fourth frame: the fence of partition 0, armed in the
    first frame, is not signalled when polled and is waited for. *)
Example fourth_frame_waits :
  (R.render 3 Samples.slow Samples.after_three_frames).2
  = [ R.CheckIfSignalled 0 false; R.WaitForSignal 0 true 1000000000 true;
      R.BindBlocksToPartition 0;
      R.Launch R.SceneUniforms R.launch_deferred 0 Sync.Signalled;
      R.Launch R.DynamicObjects R.launch_deferred 0 Sync.Signalled;
      R.Launch R.DirectionalLights R.launch_deferred 0 Sync.Signalled;
      R.Launch R.PointLights R.launch_deferred 0 Sync.Signalled;
      R.Launch R.SpotLights R.launch_deferred 0 Sync.Signalled;
      R.Run R.SceneUniforms 0 Sync.Signalled; R.Get R.SceneUniforms;
      R.Run R.DirectionalLights 0 Sync.Signalled; R.Get R.DirectionalLights;
      R.Run R.PointLights 0 Sync.Signalled; R.Get R.PointLights;
      R.Run R.SpotLights 0 Sync.Signalled; R.Get R.SpotLights;
      R.DrawStatic;
      R.Run R.DynamicObjects 0 Sync.Signalled; R.Get R.DynamicObjects;
      R.DrawDynamic 0; R.Blit; R.ArmFence 0 true; R.AdvancePartition 1 ].
Proof. vm_compute. reflexivity. Qed.

Lemma forward_frame_waits_before_writing_witness :
  let self := Samples.after_three_frames in
  let device := Samples.slow in
  let k := R.m_partition self in
  let result := R.render 3 device self in
  let sync := (R.syncWithGPUIfNecessary device self).2 in
  exists rest,
    result.2 = sync ++ rest
    /\ sync
       = match R.sync_at self k with
         | Sync.Unarmed => []
         | Sync.Signalled => [R.CheckIfSignalled k true]
         | Sync.Armed =>
             R.CheckIfSignalled k (R.reached_at_poll device)
               :: (if R.reached_at_poll device then []
                   else R.WaitForSignal k true R.oneSecond (R.reached_in_wait device)
                          :: (if R.reached_in_wait device then []
                              else [R.AssertionFailed]))
         end
    /\ (R.sync_at self k = Sync.Armed -> R.reached_at_poll device = false ->
        R.reached_in_wait device = false -> rest = [] /\ result.1 = R.Aborted)
    /\ Forall (R.safe_for k) rest
    /\ Forall (fun e => R.is_launch e = false /\ R.is_run e = false) (R.after_arm rest).
Proof.
  apply (forward_frame_waits_before_writing 3 Samples.slow Samples.after_three_frames);
    [exact after_three_frames_well_formed|vm_compute; reflexivity].
Defined.

Lemma fence_timeout_is_fatal_witness :
  R.render 3 Samples.hung Samples.after_three_frames
  = (R.Aborted,
     [R.CheckIfSignalled (R.m_partition Samples.after_three_frames) false;
      R.WaitForSignal (R.m_partition Samples.after_three_frames) true R.oneSecond false;
      R.AssertionFailed]).
Proof.
  apply (fence_timeout_is_fatal 3 Samples.hung Samples.after_three_frames);
    vm_compute; reflexivity.
Defined.

(** The same timeout in the default modes, deferred rendering and
    multi-threaded. *)
Example fence_timeout_default_modes :
  match Samples.frames [Samples.hung; Samples.hung; Samples.hung] Samples.ready with
  | R.Completed self => Some (R.render 3 Samples.hung self)
  | R.Aborted => None
  end
  = Some (R.Aborted,
          [R.CheckIfSignalled 0 false; R.WaitForSignal 0 true 1000000000 false;
           R.AssertionFailed]).
Proof. vm_compute. reflexivity. Qed.

Lemma frames_reachable (devices : list R.Device) (self self' : R.t) :
  R.reachable 3 3 20 48 4 self ->
  Samples.frames devices self = R.Completed self' ->
  R.reachable 3 3 20 48 4 self'.
Proof.
  revert self. induction devices as [|device rest IH]; intros self Hr; cbn [Samples.frames].
  - intros [= <-]. exact Hr.
  - destruct (R.render 3 device self).1 as [self1|] eqn:E; [|discriminate].
    apply IH. exact (R.reachable_call 3 3 20 48 4 (R.CallRender device) self self1 Hr E).
Qed.

Lemma after_two_frames_reachable : R.reachable 3 3 20 48 4 Samples.after_two_frames.
Proof.
  apply (frames_reachable [Samples.hung; Samples.hung]
           (R.setThreadingMode false Samples.ready)).
  - exact (R.reachable_call 3 3 20 48 4 (R.CallSetThreadingMode false) _ _
             ready_reachable eq_refl).
  - vm_compute. reflexivity.
Qed.

(** C1 on the deferred path.  Deferred rendering (the default), single
    threaded: [deferredRender] joins no task, so the bodies of the tasks
    run when [actions] is destroyed at the end of [render], after the fence
    of the frame's partition has been armed and [m_partition] advanced.  In
    the third frame they start on partition 0, whose fence, armed in the
    first frame, is armed and not signalled and was never asked. *)
Lemma deferred_frame_runs_after_arm :
  R.m_deferredRender Samples.after_two_frames = true
  /\ R.m_multiThreaded Samples.after_two_frames = false
  /\ R.m_partition Samples.after_two_frames = 2
  /\ R.sync_at Samples.after_two_frames 0 = Sync.Armed
  /\ (R.render 3 Samples.hung Samples.after_two_frames).2
     = [ R.BindBlocksToPartition 2;
         R.Launch R.SceneUniforms R.launch_deferred 2 Sync.Unarmed;
         R.Launch R.DynamicObjects R.launch_deferred 2 Sync.Unarmed;
         R.Launch R.DirectionalLights R.launch_deferred 2 Sync.Unarmed;
         R.Launch R.PointLights R.launch_deferred 2 Sync.Unarmed;
         R.Launch R.SpotLights R.launch_deferred 2 Sync.Unarmed;
         R.Launch R.LightDrawCommands R.launch_deferred 2 Sync.Unarmed;
         R.Blit; R.ArmFence 2 true; R.AdvancePartition 0;
         R.Run R.SceneUniforms 0 Sync.Armed;
         R.Run R.LightDrawCommands 0 Sync.Armed;
         R.Run R.DirectionalLights 0 Sync.Armed;
         R.Run R.DynamicObjects 0 Sync.Armed;
         R.Run R.PointLights 0 Sync.Armed;
         R.Run R.SpotLights 0 Sync.Armed ].
Proof. vm_compute. repeat split. Qed.

(** The same in the default modes, when the threads of the tasks get to
    start only after the calling thread has left the frame. *)
Example deferred_frame_late_threads :
  match Samples.frames [Samples.hung_and_late; Samples.hung_and_late] Samples.ready with
  | R.Completed self =>
      List.filter R.is_run (R.render 3 Samples.hung_and_late self).2
  | R.Aborted => []
  end
  = [ R.Run R.SceneUniforms 0 Sync.Armed; R.Run R.LightDrawCommands 0 Sync.Armed;
      R.Run R.DirectionalLights 0 Sync.Armed; R.Run R.DynamicObjects 0 Sync.Armed;
      R.Run R.PointLights 0 Sync.Armed; R.Run R.SpotLights 0 Sync.Armed ].
Proof. vm_compute. reflexivity. Qed.

(** C8, at a scene whose materials fail to load, on a fresh renderer:
    [initialise] returns false and stops after [buildMaterials], but the
    renderer is not cleaned: the scene pointer stays set and the programs
    stay built.  Renderer.hpp promises that "upon failure the object will
    clean itself to an uninitialised state"; no path of [initialise] calls
    [clean]. *)
Lemma initialise_failure_is_not_cleaned :
  let r := Samples.initialise Samples.materials_fail (R.fresh 3) in
  r.1.1 = false
  /\ r.2 = [R.BuildPrograms; R.BuildMaterials]
  /\ R.m_scene r.1.2 = Some Samples.scene
  /\ R.programs (R.m_built r.1.2) = true
  /\ R.uninitialised r.1.2 = false
  /\ R.uninitialised (R.fresh 3) = true
  /\ R.uninitialised (R.clean r.1.2) = true.
Proof. vm_compute. repeat split. Qed.

(** Already the first step leaves a trace: the scene pointer is set before
    any builder runs. *)
Example initialise_programs_fail :
  let r := Samples.initialise Samples.programs_fail (R.fresh 3) in
  r.1.1 = false /\ r.2 = [R.BuildPrograms]
  /\ R.m_scene r.1.2 = Some Samples.scene /\ R.uninitialised r.1.2 = false.
Proof. vm_compute. repeat split. Qed.

Example initialise_all_ok :
  let r := Samples.initialise Samples.all_ok (R.fresh 3) in
  r.1.1 = true /\ r.2 = R.all_steps
  /\ R.m_dynamics r.1.2 = R.dynamicMeshInstances Samples.scene.
Proof. vm_compute. repeat split. Qed.

(** ** The light passes *)

Section LightPasses.

Context {ScenePointLight UniformPointLight SceneSpotLight UniformSpotlight
         ModelTransform : Type}.
Variable pointUniforms : ScenePointLight -> bool -> UniformPointLight.
Variable pointTransforms : ScenePointLight -> ModelTransform.
Variable spotUniforms : SceneSpotLight -> bool -> UniformSpotlight.
Variable spotTransforms : SceneSpotLight -> ModelTransform.
Variable multiBuffering : Z.
Variables countSize pointLightSize spotlightSize matrixSize : Z.

Local Abbreviation updatePointLights :=
  (Lights.updatePointLights pointUniforms pointTransforms multiBuffering countSize
     pointLightSize matrixSize).
Local Abbreviation updateSpotlights :=
  (Lights.updateSpotlights spotUniforms spotTransforms multiBuffering countSize
     spotlightSize matrixSize).

Lemma write_uniforms_below {L U : Type} (func : L -> bool -> U) scale (i : Z)
  (lights : list L) (objects : gmap Z U) (j : Z) :
  j < i -> Lights.write_uniforms func scale i lights objects !! j = objects !! j.
Proof.
  revert i objects. induction lights as [|light rest IH]; intros i objects H; [reflexivity|].
  cbn [Lights.write_uniforms]. rewrite IH by lia. apply lookup_insert_ne. lia.
Qed.

Lemma write_uniforms_lookup {L U : Type} (func : L -> bool -> U) scale (i : Z)
  (lights : list L) (objects : gmap Z U) (n : nat) light :
  lights !! n = Some light ->
  Lights.write_uniforms func scale i lights objects !! (i + Z.of_nat n)
  = Some (func light scale).
Proof.
  revert i objects n. induction lights as [|l0 rest IH]; intros i objects n H; [discriminate|].
  cbn [Lights.write_uniforms]. destruct n as [|n]; cbn in H.
  - injection H as ->. rewrite write_uniforms_below by lia.
    replace (i + Z.of_nat 0) with i by lia. apply lookup_insert_eq.
  - replace (i + Z.of_nat (S n)) with (i + 1 + Z.of_nat n) by lia. apply IH. exact H.
Qed.

Lemma processLightUniforms_block {L U : Type} pbs (block : Lights.Block U)
  (lights : list L) (func : L -> bool -> U) lightSize :
  let block' := (Lights.processLightUniforms countSize pbs block lights func lightSize).2 in
  Lights.block_count block' = GLuint (Z.of_nat (length lights))
  /\ forall (n : nat) light,
       Z.of_nat n < GLuint (Z.of_nat (length lights)) -> lights !! n = Some light ->
       Lights.block_objects block' !! Z.of_nat n = Some (func light pbs).
Proof.
  cbn. split; [reflexivity|]. intros n light Hn Hl.
  rewrite <- (Z.add_0_l (Z.of_nat n)). apply write_uniforms_lookup.
  rewrite lookup_take_lt by lia. exact Hl.
Qed.

(** C10.  With forward rendering selected, [updatePointLights] and
    [updateSpotlights] write the uniform block of their lights, the count
    and one entry per light, and nothing else: the memory of the light
    transforms is as before, the transforms range they return is offset 0,
    length 0, and a flush notification over it asks for zero bytes.  No
    assertion stands in their way: [pointer] is not called. *)
Theorem forward_lights_write_no_transforms (self : Lights.t)
  (pointLights : list ScenePointLight) (spotLights : list SceneSpotLight)
  (transformOffset : Z) :
  Lights.m_deferredRender self = false ->
  exists point spot,
  updatePointLights pointLights transformOffset self = Some point /\
  updateSpotlights spotLights transformOffset self = Some spot /\
  (Lights.lightTransformMemory point.2 = Lights.lightTransformMemory self
   /\ Lights.transforms point.1 = {| ModifiedRange.offset := 0; ModifiedRange.length := 0 |}
   /\ PMB.flushed_bytes
        (PMB.notifyModifiedDataRange (Lights.m_lightTransforms point.2)
           (Lights.transforms point.1)) = 0
   /\ Lights.spotlightBlock point.2 = Lights.spotlightBlock self
   /\ Lights.block_count (Lights.pointLightBlock point.2)
      = GLuint (Z.of_nat (length pointLights))
   /\ forall (n : nat) light,
        Z.of_nat n < GLuint (Z.of_nat (length pointLights)) ->
        pointLights !! n = Some light ->
        Lights.block_objects (Lights.pointLightBlock point.2) !! Z.of_nat n
        = Some (pointUniforms light (Lights.m_pbs self)))
  /\
  (Lights.lightTransformMemory spot.2 = Lights.lightTransformMemory self
   /\ Lights.transforms spot.1 = {| ModifiedRange.offset := 0; ModifiedRange.length := 0 |}
   /\ PMB.flushed_bytes
        (PMB.notifyModifiedDataRange (Lights.m_lightTransforms spot.2)
           (Lights.transforms spot.1)) = 0
   /\ Lights.pointLightBlock spot.2 = Lights.pointLightBlock self
   /\ Lights.block_count (Lights.spotlightBlock spot.2)
      = GLuint (Z.of_nat (length spotLights))
   /\ forall (n : nat) light,
        Z.of_nat n < GLuint (Z.of_nat (length spotLights)) ->
        spotLights !! n = Some light ->
        Lights.block_objects (Lights.spotlightBlock spot.2) !! Z.of_nat n
        = Some (spotUniforms light (Lights.m_pbs self))).
Proof.
  intros Hf.
  unfold Lights.updatePointLights, Lights.updateSpotlights. rewrite Hf.
  destruct (processLightUniforms_block (Lights.m_pbs self) (Lights.pointLightBlock self)
              pointLights pointUniforms pointLightSize) as [Hc Ho].
  destruct (processLightUniforms_block (Lights.m_pbs self) (Lights.spotlightBlock self)
              spotLights spotUniforms spotlightSize) as [Hc' Ho'].
  destruct (Lights.processLightUniforms countSize (Lights.m_pbs self)
              (Lights.pointLightBlock self) pointLights pointUniforms pointLightSize)
    as [range block'].
  destruct (Lights.processLightUniforms countSize (Lights.m_pbs self)
              (Lights.spotlightBlock self) spotLights spotUniforms spotlightSize)
    as [range' block''].
  eexists _, _. split; [reflexivity|]. split; [reflexivity|].
  cbn [fst snd Lights.lightTransformMemory Lights.transforms Lights.m_lightTransforms
       Lights.spotlightBlock Lights.pointLightBlock] in *.
  split.
  - repeat split; try assumption.
    unfold PMB.notifyModifiedDataRange.
    destruct (PMB.m_flushable (Lights.m_lightTransforms self)); reflexivity.
  - repeat split; try assumption.
    unfold PMB.notifyModifiedDataRange.
    destruct (PMB.m_flushable (Lights.m_lightTransforms self)); reflexivity.
Qed.

End LightPasses.

Lemma forward_lights_write_no_transforms_witness :
  let self := Samples.lights false in
  exists point spot,
  Samples.updatePointLights [7; 8] 1 self = Some point /\
  Samples.updateSpotlights [9] 1 self = Some spot /\
  (Lights.lightTransformMemory point.2 = Lights.lightTransformMemory self
   /\ Lights.transforms point.1 = {| ModifiedRange.offset := 0; ModifiedRange.length := 0 |}
   /\ PMB.flushed_bytes
        (PMB.notifyModifiedDataRange (Lights.m_lightTransforms point.2)
           (Lights.transforms point.1)) = 0
   /\ Lights.spotlightBlock point.2 = Lights.spotlightBlock self
   /\ Lights.block_count (Lights.pointLightBlock point.2)
      = GLuint (Z.of_nat (length [7; 8]))
   /\ forall (n : nat) light,
        Z.of_nat n < GLuint (Z.of_nat (length [7; 8])) ->
        [7; 8] !! n = Some light ->
        Lights.block_objects (Lights.pointLightBlock point.2) !! Z.of_nat n
        = Some (Samples.lightUniforms light (Lights.m_pbs self)))
  /\
  (Lights.lightTransformMemory spot.2 = Lights.lightTransformMemory self
   /\ Lights.transforms spot.1 = {| ModifiedRange.offset := 0; ModifiedRange.length := 0 |}
   /\ PMB.flushed_bytes
        (PMB.notifyModifiedDataRange (Lights.m_lightTransforms spot.2)
           (Lights.transforms spot.1)) = 0
   /\ Lights.pointLightBlock spot.2 = Lights.pointLightBlock self
   /\ Lights.block_count (Lights.spotlightBlock spot.2)
      = GLuint (Z.of_nat (length [9]))
   /\ forall (n : nat) light,
        Z.of_nat n < GLuint (Z.of_nat (length [9])) ->
        [9] !! n = Some light ->
        Lights.block_objects (Lights.spotlightBlock spot.2) !! Z.of_nat n
        = Some (Samples.lightUniforms light (Lights.m_pbs self))).
Proof.
  apply (forward_lights_write_no_transforms Samples.lightUniforms Samples.lightTransforms
           Samples.lightUniforms Samples.lightTransforms 3 16 32 48 48
           (Samples.lights false) [7; 8] [9] 1).
  reflexivity.
Defined.

(** Two point lights in forward mode: the block holds them, the transform
    memory is untouched, the transforms range is empty. *)
Example forward_point_lights :
  exists r,
  Samples.updatePointLights [7; 8] 1 (Samples.lights false) = Some r /\
  r.1 = {| Lights.uniforms := {| ModifiedRange.offset := 256; ModifiedRange.length := 80 |};
           Lights.transforms := {| ModifiedRange.offset := 0; ModifiedRange.length := 0 |} |}
  /\ Lights.block_count (Lights.pointLightBlock r.2) = 2
  /\ map (fun i => Lights.block_objects (Lights.pointLightBlock r.2) !! i) [0; 1; 2]
     = [Some (7, true); Some (8, true); None]
  /\ map (fun i => Lights.lightTransformMemory r.2 !! (1, i)) [0; 1; 2; 3] = [None; None; None; None]
  /\ PMB.notifyModifiedDataRange (Lights.m_lightTransforms r.2) (Lights.transforms r.1)
     = [glFlushMappedNamedBufferRange 25 0 0].
Proof. eexists. split; [vm_compute; reflexivity|]. vm_compute. repeat split. Qed.

(** The same lights in deferred mode, for contrast: a transform per light
    after the slot of the full-screen quad, and a transforms range of two
    matrices. *)
Example deferred_point_lights :
  exists r,
  Samples.updatePointLights [7; 8] 1 (Samples.lights true) = Some r /\
  Lights.transforms r.1 = {| ModifiedRange.offset := 192; ModifiedRange.length := 96 |}
  /\ map (fun i => Lights.lightTransformMemory r.2 !! (1, i)) [0; 1; 2; 3]
     = [None; Some 70; Some 80; None].
Proof. eexists. split; [vm_compute; reflexivity|]. vm_compute. repeat split. Qed.

Section BufferUse.

Variable Partitions : Z.
Hypothesis Partitions_range : 0 < Partitions < 2 ^ 64.

Lemma getAccessFlags_bits read write coherent :
  let access := PMB.getAccessFlags read write coherent in
  Z.land access GL_MAP_PERSISTENT_BIT = GL_MAP_PERSISTENT_BIT
  /\ Z.land access GL_MAP_READ_BIT = (if read then GL_MAP_READ_BIT else 0)
  /\ Z.land access GL_MAP_WRITE_BIT = (if write then GL_MAP_WRITE_BIT else 0)
  /\ Z.land access GL_MAP_COHERENT_BIT = (if coherent then GL_MAP_COHERENT_BIT else 0)
  /\ Z.land access GL_MAP_FLUSH_EXPLICIT_BIT
     = (if write && negb coherent then GL_MAP_FLUSH_EXPLICIT_BIT else 0)
  /\ Z.land (Z.land access (Z.lnot GL_MAP_FLUSH_EXPLICIT_BIT)) GL_MAP_FLUSH_EXPLICIT_BIT = 0.
Proof. destruct read, write, coherent; vm_compute; repeat split. Qed.

(** The calls of a successful [initialise], size overload. *)
Lemma initialise_size_calls drv self size read coherent self' calls :
  PMB.initialise_size Partitions drv self size read coherent = (true, self', calls) ->
  let access := PMB.getAccessFlags read true coherent in
  let total := ptrdiff_t (size_t (size_t size * Partitions)) in
  self' = {| PMB.m_buffer := {| Buffer.m_buffer := gen_name drv |};
             PMB.m_mapping := map_address drv;
             PMB.m_size := total;
             PMB.m_flushable := 0 <? Z.land access GL_MAP_FLUSH_EXPLICIT_BIT |}
  /\ calls
     = [glGenBuffers (gen_name drv);
        glNamedBufferStorage (gen_name drv) total
          (Z.land access (Z.lnot GL_MAP_FLUSH_EXPLICIT_BIT));
        glMapNamedBufferRange (gen_name drv) 0 total access]
       ++ (if is_null (PMB.m_mapping self) then []
           else [glUnmapNamedBuffer (PMB.getID self)])
       ++ (if PMB.isInitialised self then [glDeleteBuffers (PMB.getID self)] else []).
Proof.
  unfold PMB.initialise_size, Buffer.initialise, Buffer.mapRange, Buffer.move_assign,
    Buffer.allocateImmutableStorage, Buffer.unmap, Buffer.clean, Buffer.default,
    PMB.isInitialised, PMB.getID, Buffer.getID, Buffer.isInitialised.
  cbn.
  destruct (size =? 0); [discriminate|].
  destruct (gen_name drv =? 0); cbn; [discriminate|].
  destruct (storage_ok drv); cbn; [|discriminate].
  destruct (0 <? ptrdiff_t (size_t (size_t size * Partitions))); cbn; [|discriminate].
  destruct (map_address drv) eqn:Hm; cbn; [discriminate|].
  destruct (is_null (PMB.m_mapping self)),
    (Buffer.m_buffer (PMB.m_buffer self) =? 0); cbn; intros [= <- <-]; split; reflexivity.
Qed.

(** The calls of a successful [initialise], data overload. *)
Lemma initialise_data_calls drv self dataSize read write coherent self' calls :
  PMB.initialise_data Partitions drv self dataSize read write coherent = (true, self', calls) ->
  let access := PMB.getAccessFlags read write coherent in
  self' = {| PMB.m_buffer := {| Buffer.m_buffer := gen_name drv |};
             PMB.m_mapping := map_address drv;
             PMB.m_size := dataSize;
             PMB.m_flushable := 0 <? Z.land access GL_MAP_FLUSH_EXPLICIT_BIT |}
  /\ calls
     = [glGenBuffers (gen_name drv);
        glNamedBufferStorage (gen_name drv) dataSize
          (Z.land access (Z.lnot GL_MAP_FLUSH_EXPLICIT_BIT));
        glMapNamedBufferRange (gen_name drv) 0 dataSize access]
       ++ (if is_null (PMB.m_mapping self) then []
           else [glUnmapNamedBuffer (PMB.getID self)])
       ++ (if PMB.isInitialised self then [glDeleteBuffers (PMB.getID self)] else []).
Proof.
  unfold PMB.initialise_data, Buffer.initialise, Buffer.mapRange, Buffer.move_assign,
    Buffer.immutablyFillWith, Buffer.unmap, Buffer.clean, Buffer.default,
    PMB.isInitialised, PMB.getID, Buffer.getID, Buffer.isInitialised.
  cbn.
  destruct (negb read && negb write); [discriminate|].
  destruct (gen_name drv =? 0); cbn; [discriminate|].
  destruct (negb (size_t dataSize mod Partitions =? 0) || (dataSize =? 0)); cbn;
    [discriminate|].
  destruct (storage_ok drv); cbn; [|discriminate].
  destruct (0 <? dataSize); cbn; [|discriminate].
  destruct (map_address drv) eqn:Hm; cbn; [discriminate|].
  destruct (is_null (PMB.m_mapping self)),
    (Buffer.m_buffer (PMB.m_buffer self) =? 0); cbn; intros [= <- <-]; split; reflexivity.
Qed.

(** X1.  A buffer is flushable exactly when it was mapped for writing
    without coherency: the size overload of [initialise], which always maps
    for writing, leaves [m_flushable] equal to [!coherent], the data
    overload to [write && !coherent].  The storage is never allocated with
    GL_MAP_FLUSH_EXPLICIT_BIT, the mapping always asks for
    GL_MAP_PERSISTENT_BIT, and [notifyModifiedDataRange] calls
    [glFlushMappedNamedBufferRange] once on a flushable buffer and makes no
    call on any other. *)
Theorem flushable_iff_written_incoherently drv self :
  (forall size read coherent self' calls range,
     PMB.initialise_size Partitions drv self size read coherent = (true, self', calls) ->
     PMB.m_flushable self' = negb coherent
     /\ (forall name sz flags, In (glNamedBufferStorage name sz flags) calls ->
           Z.land flags GL_MAP_FLUSH_EXPLICIT_BIT = 0)
     /\ (forall name o l access, In (glMapNamedBufferRange name o l access) calls ->
           Z.land access GL_MAP_PERSISTENT_BIT = GL_MAP_PERSISTENT_BIT
           /\ Z.land access GL_MAP_WRITE_BIT = GL_MAP_WRITE_BIT)
     /\ PMB.notifyModifiedDataRange self' range
        = (if coherent then []
           else [glFlushMappedNamedBufferRange (gen_name drv)
                   (ModifiedRange.offset range) (ModifiedRange.length range)]))
  /\
  (forall dataSize read write coherent self' calls range,
     PMB.initialise_data Partitions drv self dataSize read write coherent
     = (true, self', calls) ->
     PMB.m_flushable self' = write && negb coherent
     /\ (forall name sz flags, In (glNamedBufferStorage name sz flags) calls ->
           Z.land flags GL_MAP_FLUSH_EXPLICIT_BIT = 0)
     /\ (forall name o l access, In (glMapNamedBufferRange name o l access) calls ->
           Z.land access GL_MAP_PERSISTENT_BIT = GL_MAP_PERSISTENT_BIT)
     /\ PMB.notifyModifiedDataRange self' range
        = (if write && negb coherent
           then [glFlushMappedNamedBufferRange (gen_name drv)
                   (ModifiedRange.offset range) (ModifiedRange.length range)]
           else [])).
Proof.
  split.
  - intros size read coherent self' calls range H.
    apply initialise_size_calls in H. destruct H as [-> ->].
    destruct (getAccessFlags_bits read true coherent) as (Hp & _ & Hw & _ & Hf & Hs).
    cbn zeta in *.
    assert (Hfl : (0 <? Z.land (PMB.getAccessFlags read true coherent)
                          GL_MAP_FLUSH_EXPLICIT_BIT) = negb coherent).
    { rewrite Hf. destruct coherent; reflexivity. }
    split; [exact Hfl|]. split; [|split].
    + intros name sz flags Hin. rewrite !in_app_iff in Hin. cbn in Hin.
      destruct Hin as [[Hin|[Hin|[Hin|[]]]]|[Hin|Hin]];
        try discriminate Hin.
      * injection Hin as <- <- <-. exact Hs.
      * destruct (is_null (PMB.m_mapping self)); cbn in Hin;
          [destruct Hin|destruct Hin as [Hin|[]]; discriminate Hin].
      * destruct (PMB.isInitialised self); cbn in Hin;
          [destruct Hin as [Hin|[]]; discriminate Hin|destruct Hin].
    + intros name o l access Hin. rewrite !in_app_iff in Hin. cbn in Hin.
      destruct Hin as [[Hin|[Hin|[Hin|[]]]]|[Hin|Hin]];
        try discriminate Hin.
      * injection Hin as <- <- <- <-. split; assumption.
      * destruct (is_null (PMB.m_mapping self)); cbn in Hin;
          [destruct Hin|destruct Hin as [Hin|[]]; discriminate Hin].
      * destruct (PMB.isInitialised self); cbn in Hin;
          [destruct Hin as [Hin|[]]; discriminate Hin|destruct Hin].
    + unfold PMB.notifyModifiedDataRange. cbn [PMB.m_flushable]. rewrite Hfl.
      destruct coherent; reflexivity.
  - intros dataSize read write coherent self' calls range H.
    apply initialise_data_calls in H. destruct H as [-> ->].
    destruct (getAccessFlags_bits read write coherent) as (Hp & _ & Hw & _ & Hf & Hs).
    cbn zeta in *.
    assert (Hfl : (0 <? Z.land (PMB.getAccessFlags read write coherent)
                          GL_MAP_FLUSH_EXPLICIT_BIT) = write && negb coherent).
    { rewrite Hf. destruct (write && negb coherent); reflexivity. }
    split; [exact Hfl|]. split; [|split].
    + intros name sz flags Hin. rewrite !in_app_iff in Hin. cbn in Hin.
      destruct Hin as [[Hin|[Hin|[Hin|[]]]]|[Hin|Hin]];
        try discriminate Hin.
      * injection Hin as <- <- <-. exact Hs.
      * destruct (is_null (PMB.m_mapping self)); cbn in Hin;
          [destruct Hin|destruct Hin as [Hin|[]]; discriminate Hin].
      * destruct (PMB.isInitialised self); cbn in Hin;
          [destruct Hin as [Hin|[]]; discriminate Hin|destruct Hin].
    + intros name o l access Hin. rewrite !in_app_iff in Hin. cbn in Hin.
      destruct Hin as [[Hin|[Hin|[Hin|[]]]]|[Hin|Hin]];
        try discriminate Hin.
      * injection Hin as <- <- <- <-. assumption.
      * destruct (is_null (PMB.m_mapping self)); cbn in Hin;
          [destruct Hin|destruct Hin as [Hin|[]]; discriminate Hin].
      * destruct (PMB.isInitialised self); cbn in Hin;
          [destruct Hin as [Hin|[]]; discriminate Hin|destruct Hin].
    + unfold PMB.notifyModifiedDataRange. cbn [PMB.m_flushable]. rewrite Hfl.
      destruct (write && negb coherent); reflexivity.
Qed.

(** X2.  [clean] puts the object back into the state of a
    default-constructed one.  On an initialised object it unmaps the buffer
    and then deletes it, on any other it makes no call; a second [clean]
    does nothing, and [pointer] stops at its assertion afterwards. *)
Theorem clean_restores_default self :
  PMB.Inv self ->
  PMB.clean self
  = (PMB.default,
     if PMB.isInitialised self
     then [glUnmapNamedBuffer (PMB.getID self); glDeleteBuffers (PMB.getID self)]
     else [])
  /\ PMB.clean (PMB.clean self).1 = (PMB.default, [])
  /\ forall p, PMB.pointer Partitions (PMB.clean self).1 p = None.
Proof.
  intros [Hmap Hsize Hempty].
  assert (H : PMB.clean self
              = (PMB.default,
                 if PMB.isInitialised self
                 then [glUnmapNamedBuffer (PMB.getID self); glDeleteBuffers (PMB.getID self)]
                 else [])).
  { unfold PMB.clean, Buffer.clean, Buffer.unmap.
    destruct (PMB.isInitialised self) eqn:Hin.
    - unfold PMB.isInitialised in Hin. rewrite Hin. reflexivity.
    - rewrite (Hempty eq_refl). reflexivity. }
  rewrite H. cbn [fst]. repeat split.
Qed.

(** X3.  A successful [initialise] releases what the object held only
    after the new buffer has been created, given storage and mapped: the
    calls are those three on the new name, followed, when the object was
    initialised, by the unmapping and the deletion of the old buffer, each
    once. *)
Theorem reinitialise_releases_old_buffer drv self :
  PMB.Inv self ->
  let released :=
    if PMB.isInitialised self
    then [glUnmapNamedBuffer (PMB.getID self); glDeleteBuffers (PMB.getID self)]
    else [] in
  (forall size read coherent self' calls,
     PMB.initialise_size Partitions drv self size read coherent = (true, self', calls) ->
     PMB.getID self' = gen_name drv
     /\ exists total flags access,
          calls = [glGenBuffers (gen_name drv);
                   glNamedBufferStorage (gen_name drv) total flags;
                   glMapNamedBufferRange (gen_name drv) 0 total access] ++ released
          /\ PMB.m_size self' = total)
  /\
  (forall dataSize read write coherent self' calls,
     PMB.initialise_data Partitions drv self dataSize read write coherent
     = (true, self', calls) ->
     PMB.getID self' = gen_name drv
     /\ exists flags access,
          calls = [glGenBuffers (gen_name drv);
                   glNamedBufferStorage (gen_name drv) dataSize flags;
                   glMapNamedBufferRange (gen_name drv) 0 dataSize access] ++ released
          /\ PMB.m_size self' = dataSize).
Proof.
  intros [Hmap _ _] released. subst released. split.
  - intros size read coherent self' calls H.
    apply initialise_size_calls in H. destruct H as [-> ->]. cbn zeta.
    split; [reflexivity|]. eexists _, _, _. split; [|reflexivity].
    rewrite Hmap. destruct (PMB.isInitialised self); reflexivity.
  - intros dataSize read write coherent self' calls H.
    apply initialise_data_calls in H. destruct H as [-> ->]. cbn zeta.
    split; [reflexivity|]. eexists _, _. split; [|reflexivity].
    rewrite Hmap. destruct (PMB.isInitialised self); reflexivity.
Qed.

(** The invariant goes through every call. *)
Lemma Inv_step op self :
  BufferLife.sized op -> PMB.Inv self -> PMB.Inv (BufferLife.step Partitions op self).1.
Proof.
  intros Hop HI. destruct op as [drv size read coherent|drv dataSize read write coherent|];
    cbn [BufferLife.step fst snd].
  - apply Inv_initialise_size. exact HI.
  - apply Inv_initialise_data; assumption.
  - apply Inv_clean. exact HI.
Qed.

Lemma Inv_steps ops self :
  Forall BufferLife.sized ops -> PMB.Inv self ->
  PMB.Inv (BufferLife.steps Partitions ops self).1.
Proof.
  revert self. induction ops as [|op ops IH]; intros self Hops HI; [exact HI|].
  inversion Hops as [|? ? Hop Hrest]; subst.
  cbn [BufferLife.steps].
  pose proof (Inv_step op self Hop HI) as H1.
  destruct (BufferLife.step Partitions op self) as [self1 c1].
  specialize (IH self1 Hrest H1).
  destruct (BufferLife.steps Partitions ops self1) as [self2 c2]. exact IH.
Qed.


(** X5.  On a buffer that [initialise] has set up, a notification
    relative to partition [p] of a range that lies inside one partition
    flushes bytes of partition [p] only: it is the notification of the
    same range moved by the offset of the partition, which starts at or
    after the start of partition [p] and ends at or before its end, inside
    the buffer. *)
Theorem partition_flush_stays_inside self p range :
  PMB.initialised_by Partitions self ->
  0 <= p < Partitions ->
  0 <= ModifiedRange.offset range ->
  0 <= ModifiedRange.length range ->
  ModifiedRange.offset range + ModifiedRange.length range
  <= PMB.partitionSize Partitions self ->
  let start := PMB.partitionOffset Partitions self p in
  let moved :=
    {| ModifiedRange.offset := start + ModifiedRange.offset range;
       ModifiedRange.length := ModifiedRange.length range |} in
  PMB.notifyModifiedDataRange_at Partitions self p range
  = PMB.notifyModifiedDataRange self moved
  /\ start <= ModifiedRange.offset moved
  /\ ModifiedRange.offset moved + ModifiedRange.length moved
     <= start + PMB.partitionSize Partitions self
  /\ start + PMB.partitionSize Partitions self <= PMB.m_size self.
Proof.
  intros Hinit Hp Ho Hl Hfit start moved.
  destruct (initialised_by_size_divisible Partitions Partitions_range self Hinit)
    as [Hsize [q Hq]].
  pose proof (partitionSize_eq Partitions Partitions_range self ltac:(lia)) as Hps.
  pose proof (partitionOffset_eq Partitions Partitions_range self p ltac:(lia) ltac:(lia))
    as Hpo.
  assert (Hdiv : PMB.m_size self / Partitions = q).
  { rewrite Hq. apply Z.div_mul. lia. }
  fold start in Hpo. rewrite Hdiv in Hps, Hpo.
  assert (Hqpos : 0 < q) by nia.
  assert (Hend : start + q <= PMB.m_size self) by nia.
  assert (Hstart : 0 <= start) by nia.
  rewrite Hps in *. subst moved. cbn [ModifiedRange.offset ModifiedRange.length].
  split; [|lia].
  unfold PMB.notifyModifiedDataRange_at, PMB.notifyModifiedDataRange.
  cbn [ModifiedRange.offset ModifiedRange.length].
  fold start. rewrite ptrdiff_t_id by lia. reflexivity.
Qed.

End BufferUse.

(** A closed bound on sample data, by evaluation. *)
Ltac evaluate_bounds :=
  vm_compute; repeat split; first [reflexivity | discriminate].

(** The buffer of three partitions of sixteen bytes, cleaned. *)
Lemma clean_restores_default_witness :
  PMB.Inv Samples.triple
  /\ PMB.clean Samples.triple
     = (PMB.default, [glUnmapNamedBuffer 7; glDeleteBuffers 7])
  /\ PMB.clean (PMB.clean Samples.triple).1 = (PMB.default, [])
  /\ forall p, PMB.pointer 3 (PMB.clean Samples.triple).1 p = None.
Proof.
  split; [exact triple_Inv|].
  exact (clean_restores_default 3 Samples.triple triple_Inv).
Defined.

(** The same buffer, initialised again with partitions of 32 bytes. *)
Lemma reinitialise_releases_old_buffer_witness :
  PMB.Inv Samples.triple
  /\ exists self' calls flags access,
       PMB.initialise_size 3 (Samples.driver 9) Samples.triple 32 false false
       = (true, self', calls)
       /\ PMB.getID self' = 9
       /\ calls = [glGenBuffers 9; glNamedBufferStorage 9 96 flags;
                   glMapNamedBufferRange 9 0 96 access;
                   glUnmapNamedBuffer 7; glDeleteBuffers 7].
Proof.
  split; [exact triple_Inv|].
  destruct (reinitialise_releases_old_buffer 3 (Samples.driver 9) Samples.triple triple_Inv)
    as [Hsize _].
  destruct (Hsize 32 false false _ _ eq_refl) as (Hid & total & flags & access & Hcalls & Htotal).
  eexists _, _, flags, access. split; [reflexivity|]. split; [exact Hid|].
  rewrite Hcalls, <- Htotal. reflexivity.
Defined.


(** Eight bytes from the fifth byte of the second partition. *)
Lemma partition_flush_stays_inside_witness :
  let range := {| ModifiedRange.offset := 4; ModifiedRange.length := 8 |} in
  let moved := {| ModifiedRange.offset := 16 + 4; ModifiedRange.length := 8 |} in
  PMB.notifyModifiedDataRange_at 3 Samples.triple 1 range
  = PMB.notifyModifiedDataRange Samples.triple moved
  /\ 16 <= ModifiedRange.offset moved
  /\ ModifiedRange.offset moved + ModifiedRange.length moved <= 16 + 16
  /\ 16 + 16 <= PMB.m_size Samples.triple.
Proof.
  apply (partition_flush_stays_inside 3 ltac:(lia) Samples.triple 1
           {| ModifiedRange.offset := 4; ModifiedRange.length := 8 |} triple_initialised);
    first [lia | evaluate_bounds].
Defined.

(** ** The ranges and the reach of the dynamic-object pass *)

Section DynamicObjectRanges.

Context {InstanceId Instance ModelTransform MaterialID : Type}.
Variable getInstanceById : InstanceId -> Instance.
Variable toModelTransform : Instance -> ModelTransform.
Variable materialIDOf : Instance -> MaterialID.
Variable multiBuffering : Z.
Variables sizeof_DrawCommand sizeof_ModelTransform sizeof_MaterialID : Z.

Local Abbreviation MeshInstances := (@DO.MeshInstances InstanceId).
Local Abbreviation Locals := (@DO.Locals ModelTransform MaterialID).
Local Abbreviation Op := (@DO.Op InstanceId Instance).
Local Abbreviation run := (DO.run toModelTransform materialIDOf).
Local Abbreviation mesh_ops := (DO.mesh_ops getInstanceById).
Local Abbreviation updateDynamicObjects :=
  (DO.updateDynamicObjects getInstanceById toModelTransform materialIDOf multiBuffering
     sizeof_DrawCommand sizeof_ModelTransform sizeof_MaterialID).
Local Abbreviation writeDynamicObjects :=
  (DO.writeDynamicObjects getInstanceById toModelTransform materialIDOf multiBuffering
     sizeof_DrawCommand sizeof_ModelTransform sizeof_MaterialID).

Implicit Types (dynamics : list MeshInstances) (op : Op).

Lemma ptrdiff_t_idemp z : ptrdiff_t (ptrdiff_t z) = ptrdiff_t z.
Proof. apply ptrdiff_t_id. apply ptrdiff_t_range. Qed.

Lemma partitionOffset_ptrdiff_t Partitions self p :
  ptrdiff_t (PMB.partitionOffset Partitions self p) = PMB.partitionOffset Partitions self p.
Proof. unfold PMB.partitionOffset. apply ptrdiff_t_idemp. Qed.

(** The variables of the lambdas when the pass is over, in either mode. *)
Lemma writeDynamicObjects_locals (self : DO.t) (schedule : list Op) :
  (DO.m_multiThreaded self = true ->
   DO.schedule_of getInstanceById (DO.m_dynamics self) schedule) ->
  let k := DO.pointed_partition multiBuffering (DO.m_partition self) in
  let s0 := {| DO.buffers := DO.memory self; DO.baseInstance := GLuint 0 |} in
  (if negb (DO.m_multiThreaded self)
   then DO.forEachDynamicMeshInstance getInstanceById (DO.m_dynamics self)
          (DO.addTransformAndMaterialID toModelTransform materialIDOf k)
          [DO.addDrawCommand k] s0
   else run k schedule s0)
  = run k (DO.drawCommand_ops getInstanceById (DO.m_dynamics self))
      (run k (DO.materialID_ops getInstanceById (DO.m_dynamics self))
         (run k (DO.transform_ops getInstanceById (DO.m_dynamics self)) s0)).
Proof.
  intros Hs k s0.
  destruct (DO.m_multiThreaded self); cbn [negb].
  - apply run_schedule. exact (Hs eq_refl).
  - rewrite single_threaded_run.
    apply run_schedule. apply single_ops_schedule.
Qed.

Lemma updateDynamicObjects_Some (self : DO.t) (schedule : list Op) result :
  updateDynamicObjects schedule self = Some result ->
  result = writeDynamicObjects schedule self.
Proof.
  unfold DO.updateDynamicObjects.
  repeat (match goal with
          | |- context [match ?x with Some _ => _ | None => _ end] => destruct x
          end; try discriminate).
  intros [= <-]. reflexivity.
Qed.

(** The base instance the three traversals end with. *)
Lemma final_baseInstance k dynamics (buffers : DO.Memory) :
  DO.baseInstance
    (run k (DO.drawCommand_ops getInstanceById dynamics)
       (run k (DO.materialID_ops getInstanceById dynamics)
          (run k (DO.transform_ops getInstanceById dynamics)
             {| DO.buffers := buffers; DO.baseInstance := GLuint 0 |})))
  = GLuint (DO.totalDynamicInstances dynamics).
Proof.
  set (s0 := {| DO.buffers := buffers; DO.baseInstance := GLuint 0 |}).
  set (s1 := run k (DO.transform_ops getInstanceById dynamics) s0).
  set (s2 := run k (DO.materialID_ops getInstanceById dynamics) s1).
  assert (Hbase2 : DO.baseInstance s2 = 0).
  { subst s2 s1.
    rewrite (proj2 (run_keeps_drawCommands _ _ k _ _
                      (Forall_target_ne DO.ToMaterialIDs DO.ToDrawCommands _
                         ltac:(discriminate) (materialID_ops_target getInstanceById dynamics)))).
    rewrite (proj2 (run_keeps_drawCommands _ _ k _ _
                      (Forall_target_ne DO.ToTransforms DO.ToDrawCommands _
                         ltac:(discriminate) (transform_ops_target getInstanceById dynamics)))).
    reflexivity. }
  destruct (run_drawCommand_ops getInstanceById toModelTransform materialIDOf
              k 0 0 dynamics s2 ltac:(rewrite Hbase2; lia)) as (Hb & _ & _).
  unfold DO.drawCommand_ops. rewrite Hb, Hbase2. reflexivity.
Qed.

Lemma store_all_outside {V : Type} (f : Instance -> V) (k index : Z) (ids : list InstanceId)
  (buffer : gmap (Z * Z) V) (k' i : Z) :
  k' <> k \/ i < index \/ index + Z.of_nat (length ids) <= i ->
  DO.store_all getInstanceById f k index ids buffer !! (k', i) = buffer !! (k', i).
Proof.
  revert index buffer. induction ids as [|id ids IH]; intros index buffer H; [reflexivity|].
  cbn [DO.store_all]. rewrite IH by (cbn [length] in H; lia).
  apply lookup_insert_ne. intros [= -> ->]. cbn [length] in H. lia.
Qed.

Lemma drawCommands_outside k meshIndex index dynamics (s : Locals) (k' j : Z) :
  k' <> k \/ j < meshIndex \/ meshIndex + Z.of_nat (length dynamics) <= j ->
  DO.drawCommandBuffer (DO.buffers
    (run k (mesh_ops (fun _ _ => [])
              (fun index mesh instances => [DO.AddDrawCommand index mesh instances])
              meshIndex index dynamics) s)) !! (k', j)
  = DO.drawCommandBuffer (DO.buffers s) !! (k', j).
Proof.
  revert meshIndex index s. induction dynamics as [|mi dynamics IH];
    intros meshIndex index s H; [reflexivity|].
  cbn [DO.mesh_ops]. rewrite instance_ops_none. cbn [app].
  rewrite run_cons. rewrite IH by (cbn [length] in H; lia).
  cbn. apply lookup_insert_ne. intros [= -> ->]. cbn [length] in H. lia.
Qed.

Lemma length_all_instances dynamics :
  Z.of_nat (length (DO.all_instances dynamics)) = DO.totalDynamicInstances dynamics.
Proof.
  induction dynamics as [|mi dynamics IH]; [reflexivity|].
  unfold DO.all_instances in *. cbn [map concat].
  rewrite length_app, Nat2Z.inj_add, IH, totalDynamicInstances_cons. reflexivity.
Qed.

(** X6.  The three ranges [updateDynamicObjects] returns are the bytes
    it wrote: each starts at the offset of the current partition in its
    buffer; the draw-command range is as long as one command per mesh of
    [m_dynamics], the transform and the material-ID range as long as one
    element per dynamic instance.  The draw state is set to match: [start]
    is the partition offset and [count] the number of meshes.  The lengths
    go through a [GLsizei]; they are assumed to fit. *)
Theorem dynamic_ranges_cover_the_writes (self : DO.t) (schedule : list Op) result :
  (DO.m_multiThreaded self = true ->
   DO.schedule_of getInstanceById (DO.m_dynamics self) schedule) ->
  updateDynamicObjects schedule self = Some result ->
  let meshes := Z.of_nat (length (DO.m_dynamics self)) in
  let total := DO.totalDynamicInstances (DO.m_dynamics self) in
  0 <= sizeof_DrawCommand -> 0 <= sizeof_ModelTransform -> 0 <= sizeof_MaterialID ->
  meshes < 2 ^ 31 -> total < 2 ^ 32 ->
  sizeof_DrawCommand * meshes < 2 ^ 31 ->
  sizeof_ModelTransform * total < 2 ^ 31 ->
  sizeof_MaterialID * total < 2 ^ 31 ->
  result.1
  = {| DO.drawCommands :=
         {| ModifiedRange.offset :=
              PMB.partitionOffset multiBuffering (DO.m_objectDrawing_buffer self)
                (DO.m_partition self);
            ModifiedRange.length := sizeof_DrawCommand * meshes |};
       DO.transforms :=
         {| ModifiedRange.offset :=
              PMB.partitionOffset multiBuffering (DO.m_objectTransforms self)
                (DO.m_partition self);
            ModifiedRange.length := sizeof_ModelTransform * total |};
       DO.materialIDs :=
         {| ModifiedRange.offset :=
              PMB.partitionOffset multiBuffering (DO.m_objectMaterialIDs self)
                (DO.m_partition self);
            ModifiedRange.length := sizeof_MaterialID * total |} |}
  /\ DO.m_objectDrawing_start result.2
     = PMB.partitionOffset multiBuffering (DO.m_objectDrawing_buffer self)
         (DO.m_partition self)
  /\ DO.m_objectDrawing_count result.2 = meshes.
Proof.
  intros Hs Hrun meshes total HDC HMT HMI Hm Ht HDCm HMTt HMIt.
  apply updateDynamicObjects_Some in Hrun. subst result.
  unfold DO.writeDynamicObjects. cbn [fst snd DO.m_objectDrawing_start DO.m_objectDrawing_count].
  rewrite (writeDynamicObjects_locals self schedule Hs).
  rewrite final_baseInstance. fold total. fold meshes.
  pose proof (totalDynamicInstances_nonneg (DO.m_dynamics self)) as Hpos. fold total in Hpos.
  assert (Hmpos : 0 <= meshes) by (subst meshes; lia).
  rewrite (GLuint_id total) by lia.
  rewrite (GLsizei_id meshes) by lia.
  rewrite (size_t_id meshes) by lia.
  unfold ModifiedRange.make. rewrite !partitionOffset_ptrdiff_t.
  assert (Hlen : forall v, 0 <= v < 2 ^ 31 -> GLsizei (ptrdiff_t (size_t v)) = v).
  { intros v Hv. rewrite size_t_id, ptrdiff_t_id, GLsizei_id by lia. reflexivity. }
  rewrite !Hlen by nia.
  repeat split.
Qed.


(** X8.  [updateDynamicObjects] stops at the assertion of [pointer]
    exactly when one of the three buffers it writes to has no mapping. *)
Theorem dynamic_pass_asserts_iff_unmapped (self : DO.t) (schedule : list Op) :
  updateDynamicObjects schedule self = None
  <-> (PMB.m_mapping (DO.m_objectDrawing_buffer self) = nullptr
       \/ PMB.m_mapping (DO.m_objectTransforms self) = nullptr
       \/ PMB.m_mapping (DO.m_objectMaterialIDs self) = nullptr).
Proof.
  unfold DO.updateDynamicObjects, PMB.pointer.
  destruct (PMB.m_mapping (DO.m_objectDrawing_buffer self)),
    (PMB.m_mapping (DO.m_objectTransforms self)),
    (PMB.m_mapping (DO.m_objectMaterialIDs self)); cbn;
    split; intros H; try discriminate; try reflexivity; auto;
    destruct H as [H|[H|H]]; discriminate.
Qed.

End DynamicObjectRanges.

(** Two meshes with two and three instances, written to partition 1. *)
Lemma dynamic_ranges_cover_the_writes_witness :
  let self := Samples.objects Samples.two_meshes 1 in
  exists result,
    Samples.updateDynamicObjects (Samples.draw_first Samples.two_meshes) self = Some result
    /\ result.1
       = {| DO.drawCommands := {| ModifiedRange.offset := 40; ModifiedRange.length := 40 |};
            DO.transforms := {| ModifiedRange.offset := 240; ModifiedRange.length := 240 |};
            DO.materialIDs := {| ModifiedRange.offset := 20; ModifiedRange.length := 20 |} |}
    /\ DO.m_objectDrawing_start result.2 = 40
    /\ DO.m_objectDrawing_count result.2 = 2.
Proof.
  intros self. eexists. split.
  - apply updateDynamicObjects_runs; vm_compute; reflexivity.
  - apply (dynamic_ranges_cover_the_writes Samples.getInstanceById Samples.toModelTransform
             Samples.materialIDOf 3 20 48 4 self (Samples.draw_first Samples.two_meshes)).
    + intros _. apply draw_first_schedule.
    + apply updateDynamicObjects_runs; vm_compute; reflexivity.
    + lia.
    + lia.
    + lia.
    + reflexivity.
    + reflexivity.
    + reflexivity.
    + reflexivity.
    + reflexivity.
Defined.


(** ** The light volumes of the deferred path *)

Section LightVolumes.

Context {ScenePointLight UniformPointLight SceneSpotLight UniformSpotlight
         ModelTransform : Type}.
Variable pointUniforms : ScenePointLight -> bool -> UniformPointLight.
Variable pointTransforms : ScenePointLight -> ModelTransform.
Variable spotUniforms : SceneSpotLight -> bool -> UniformSpotlight.
Variable spotTransforms : SceneSpotLight -> ModelTransform.
Variable multiBuffering : Z.
Variables countSize pointLightSize spotlightSize matrixSize : Z.

Local Abbreviation updatePointLights :=
  (Lights.updatePointLights pointUniforms pointTransforms multiBuffering countSize
     pointLightSize matrixSize).
Local Abbreviation updateSpotlights :=
  (Lights.updateSpotlights spotUniforms spotTransforms multiBuffering countSize
     spotlightSize matrixSize).
Local Abbreviation State := (@Lights.t UniformPointLight UniformSpotlight ModelTransform).

Lemma write_transforms_outside {L : Type} (transFunc : L -> ModelTransform) (k i : Z)
  (lights : list L) (memory : gmap (Z * Z) ModelTransform) (k' j : Z) :
  k' <> k \/ j < i \/ i + Z.of_nat (length lights) <= j ->
  Lights.write_transforms transFunc k i lights memory !! (k', j) = memory !! (k', j).
Proof.
  revert i memory. induction lights as [|light rest IH]; intros i memory H; [reflexivity|].
  cbn [Lights.write_transforms]. cbn [length] in H. rewrite IH by lia.
  apply lookup_insert_ne. intros [= -> ->]. lia.
Qed.

Lemma write_transforms_lookup {L : Type} (transFunc : L -> ModelTransform) (k i : Z)
  (lights : list L) (memory : gmap (Z * Z) ModelTransform) (n : nat) light :
  lights !! n = Some light ->
  Lights.write_transforms transFunc k i lights memory !! (k, i + Z.of_nat n)
  = Some (transFunc light).
Proof.
  revert i memory n. induction lights as [|l0 rest IH]; intros i memory n H; [discriminate|].
  cbn [Lights.write_transforms]. destruct n as [|n]; cbn in H.
  - injection H as ->. rewrite write_transforms_outside by lia.
    replace (i + Z.of_nat 0) with i by lia. apply lookup_insert_eq.
  - replace (i + Z.of_nat (S n)) with (i + 1 + Z.of_nat n) by lia. apply IH. exact H.
Qed.

Lemma write_uniforms_outside {L U : Type} (func : L -> bool -> U) scale (i : Z)
  (lights : list L) (objects : gmap Z U) (j : Z) :
  j < i \/ i + Z.of_nat (length lights) <= j ->
  Lights.write_uniforms func scale i lights objects !! j = objects !! j.
Proof.
  revert i objects. induction lights as [|light rest IH]; intros i objects H; [reflexivity|].
  cbn [Lights.write_uniforms]. cbn [length] in H. rewrite IH by lia.
  apply lookup_insert_ne. lia.
Qed.


(** The transforms [processLightVolumes] leaves, when it gets its
    pointer. *)
Lemma processLightVolumes_memory {L U : Type} (self : State) (uniforms : Lights.Block U)
  (lights : list L) (transformOffset : Z) (uniFunc : L -> bool -> U)
  (transFunc : L -> ModelTransform) (lightSize : Z) :
  is_null (PMB.m_mapping (Lights.m_lightTransforms self)) = false ->
  Z.of_nat (length lights) < 2 ^ 32 ->
  exists ranges block,
    Lights.processLightVolumes multiBuffering countSize matrixSize self uniforms lights
      transformOffset uniFunc transFunc lightSize
    = Some (ranges, block,
            Lights.write_transforms transFunc
              (if Lights.m_partition self <? multiBuffering
               then Lights.m_partition self else 0)
              transformOffset lights (Lights.lightTransformMemory self)).
Proof.
  intros Hmap Hc. unfold Lights.processLightVolumes.
  destruct (pointer_mapped multiBuffering _ (Lights.m_partition self) Hmap) as [q ->].
  rewrite (GLuint_id (Z.of_nat (length lights))) by lia.
  rewrite take_ge by lia.
  eexists _, _. reflexivity.
Qed.

(** The two light passes in deferred mode, as far as the transforms go. *)
Lemma updatePointLights_deferred (self : State) (lights : list ScenePointLight)
  (transformOffset : Z) :
  Lights.m_deferredRender self = true ->
  is_null (PMB.m_mapping (Lights.m_lightTransforms self)) = false ->
  Z.of_nat (length lights) < 2 ^ 32 ->
  exists r,
    updatePointLights lights transformOffset self = Some r
    /\ Lights.lightTransformMemory r.2
       = Lights.write_transforms pointTransforms
           (if Lights.m_partition self <? multiBuffering then Lights.m_partition self else 0)
           transformOffset lights (Lights.lightTransformMemory self)
    /\ Lights.m_deferredRender r.2 = true
    /\ Lights.m_lightTransforms r.2 = Lights.m_lightTransforms self
    /\ Lights.m_partition r.2 = Lights.m_partition self.
Proof.
  intros Hd Hmap Hc. unfold Lights.updatePointLights. rewrite Hd.
  destruct (processLightVolumes_memory self (Lights.pointLightBlock self) lights
              transformOffset pointUniforms pointTransforms pointLightSize Hmap Hc)
    as (ranges & block & ->).
  eexists. split; [reflexivity|]. repeat split.
Qed.

Lemma updateSpotlights_deferred (self : State) (lights : list SceneSpotLight)
  (transformOffset : Z) :
  Lights.m_deferredRender self = true ->
  is_null (PMB.m_mapping (Lights.m_lightTransforms self)) = false ->
  Z.of_nat (length lights) < 2 ^ 32 ->
  exists r,
    updateSpotlights lights transformOffset self = Some r
    /\ Lights.lightTransformMemory r.2
       = Lights.write_transforms spotTransforms
           (if Lights.m_partition self <? multiBuffering then Lights.m_partition self else 0)
           transformOffset lights (Lights.lightTransformMemory self)
    /\ Lights.m_deferredRender r.2 = true
    /\ Lights.m_lightTransforms r.2 = Lights.m_lightTransforms self
    /\ Lights.m_partition r.2 = Lights.m_partition self.
Proof.
  intros Hd Hmap Hc. unfold Lights.updateSpotlights. rewrite Hd.
  destruct (processLightVolumes_memory self (Lights.spotlightBlock self) lights
              transformOffset spotUniforms spotTransforms spotlightSize Hmap Hc)
    as (ranges & block & ->).
  eexists. split; [reflexivity|]. repeat split.
Qed.

(** X10.  [render] hands the same [transformOffset] to
    [updatePointLights] and to [updateSpotlights].  In deferred mode, run
    one after the other in that order, the second pass stores the
    transform of spotlight [n] at the index where the first had stored the
    transform of point light [n]: after both, the indices from
    [transformOffset] on hold the transforms of the spotlights, and a
    point-light transform is left only at a position no spotlight has. *)
Theorem spotlights_replace_point_light_transforms (self : State)
  (pointLights : list ScenePointLight) (spotLights : list SceneSpotLight)
  (transformOffset : Z) :
  Lights.m_deferredRender self = true ->
  is_null (PMB.m_mapping (Lights.m_lightTransforms self)) = false ->
  Z.of_nat (length pointLights) < 2 ^ 32 ->
  Z.of_nat (length spotLights) < 2 ^ 32 ->
  exists afterPoint afterSpot,
    updatePointLights pointLights transformOffset self = Some afterPoint
    /\ updateSpotlights spotLights transformOffset afterPoint.2 = Some afterSpot
    /\ let k := if Lights.m_partition self <? multiBuffering
                then Lights.m_partition self else 0 in
       (forall (n : nat) light, pointLights !! n = Some light ->
          Lights.lightTransformMemory afterPoint.2 !! (k, transformOffset + Z.of_nat n)
          = Some (pointTransforms light))
       /\ (forall (n : nat) light, spotLights !! n = Some light ->
             Lights.lightTransformMemory afterSpot.2 !! (k, transformOffset + Z.of_nat n)
             = Some (spotTransforms light))
       /\ (forall (n : nat) light, pointLights !! n = Some light ->
             (length spotLights <= n)%nat ->
             Lights.lightTransformMemory afterSpot.2 !! (k, transformOffset + Z.of_nat n)
             = Some (pointTransforms light)).
Proof.
  intros Hd Hmap Hp Hs.
  destruct (updatePointLights_deferred self pointLights transformOffset Hd Hmap Hp)
    as (r1 & E1 & M1 & D1 & T1 & P1).
  destruct (updateSpotlights_deferred r1.2 spotLights transformOffset D1
              ltac:(rewrite T1; exact Hmap) Hs)
    as (r2 & E2 & M2 & _ & _ & _).
  exists r1, r2. split; [exact E1|]. split; [exact E2|]. cbn zeta.
  rewrite M2, P1, M1.
  split; [|split].
  - intros n light Hn. apply write_transforms_lookup. exact Hn.
  - intros n light Hn. apply write_transforms_lookup. exact Hn.
  - intros n light Hn Hge. rewrite write_transforms_outside by lia.
    apply write_transforms_lookup. exact Hn.
Qed.

End LightVolumes.


(** Three point lights and one spotlight: the transform of the spotlight takes the place of that of the first point light. *)
Lemma spotlights_replace_point_light_transforms_witness :
  let self := Samples.lights true in
  exists afterPoint afterSpot,
    Samples.updatePointLights [7; 8; 9] 1 self = Some afterPoint
    /\ Samples.updateSpotlights [5] 1 afterPoint.2 = Some afterSpot
    /\ (forall (n : nat) light, [7; 8; 9] !! n = Some light ->
          Lights.lightTransformMemory afterPoint.2 !! (1, 1 + Z.of_nat n)
          = Some (Samples.lightTransforms light))
    /\ (forall (n : nat) light, [5] !! n = Some light ->
          Lights.lightTransformMemory afterSpot.2 !! (1, 1 + Z.of_nat n)
          = Some (Samples.lightTransforms light))
    /\ (forall (n : nat) light, [7; 8; 9] !! n = Some light ->
          (length [5] <= n)%nat ->
          Lights.lightTransformMemory afterSpot.2 !! (1, 1 + Z.of_nat n)
          = Some (Samples.lightTransforms light)).
Proof.
  intros self.
  apply (spotlights_replace_point_light_transforms Samples.lightUniforms
           Samples.lightTransforms Samples.lightUniforms Samples.lightTransforms
           3 16 32 48 48 self [7; 8; 9] [5] 1); reflexivity.
Defined.

Section LightDrawCommands.

Variable multiBuffering : Z.
Variable sizeof_DrawCommand : Z.

Local Abbreviation updateLightDrawCommands :=
  (LightDrawing.updateLightDrawCommands multiBuffering sizeof_DrawCommand).


End LightDrawCommands.


(** ** The life of the renderer *)

Section RendererLife.

Variable multiBuffering : Z.
Variable lightVolumeCount : Z.
Variables sizeof_DrawCommand sizeof_ModelTransform sizeof_MaterialID : Z.

Local Abbreviation initialise :=
  (R.initialise multiBuffering lightVolumeCount sizeof_DrawCommand sizeof_ModelTransform
     sizeof_MaterialID).

Lemma PMB_clean_uninitialised (buffer : PMB.t) :
  PMB.isInitialised (PMB.clean buffer).1 = false.
Proof.
  unfold PMB.clean. destruct (PMB.isInitialised buffer) eqn:E; [|exact E].
  unfold PMB.isInitialised in E. unfold Buffer.clean. rewrite E. reflexivity.
Qed.

Lemma PMB_clean_twice (buffer : PMB.t) :
  (PMB.clean (PMB.clean buffer).1).1 = (PMB.clean buffer).1.
Proof.
  unfold PMB.clean at 1. rewrite PMB_clean_uninitialised. reflexivity.
Qed.

(** X12.  [Renderer::clean] leaves a renderer of which nothing is
    initialised: no scene, no program, material, geometry, framebuffer or
    uniform data, five buffers without storage, no dynamic mesh, every
    fence unarmed.  It sets the resolutions to zero and the rendering mode
    back to deferred, and keeps the partition index and the threading
    mode; a second [clean] changes nothing. *)
Theorem clean_resets_all_but_partition_and_threads (self : R.t) :
  R.uninitialised (R.clean self) = true
  /\ R.m_resolution (R.clean self)
     = {| R.internalWidth := 0; R.internalHeight := 0;
          R.displayWidth := 0; R.displayHeight := 0 |}
  /\ R.m_deferredRender (R.clean self) = true
  /\ R.m_partition (R.clean self) = R.m_partition self
  /\ R.m_multiThreaded (R.clean self) = R.m_multiThreaded self
  /\ R.clean (R.clean self) = R.clean self.
Proof.
  split; [|split; [|split; [|split; [|split]]]]; try reflexivity.
  - unfold R.uninitialised, R.clean.
    cbn [R.m_scene R.m_built R.programs R.materials R.geometry R.gbuffer R.lbuffer
         R.uniforms R.m_objectDrawing R.m_objectMaterialIDs R.m_objectTransforms
         R.m_lightDrawing R.m_lightTransforms R.m_syncs R.m_dynamics R.buffer negb andb].
    rewrite !PMB_clean_uninitialised. cbn [negb andb].
    rewrite andb_true_r. apply forallb_forall. intros sync Hin.
    apply in_map_iff in Hin. destruct Hin as (s & <- & _). reflexivity.
  - unfold R.clean.
    cbn [R.m_scene R.m_built R.m_objectDrawing R.m_objectMaterialIDs R.m_objectTransforms
         R.m_lightDrawing R.m_lightTransforms R.m_syncs R.m_dynamics R.buffer R.capacity
         R.count R.m_partition R.m_multiThreaded].
    rewrite !PMB_clean_twice. rewrite map_map. reflexivity.
Qed.

(** X13.  A scene without dynamic instances cannot be rendered:
    [buildDynamicObjectBuffers] asks the buffers for zero bytes, which
    [PersistentMappedBuffer::initialise] refuses, so [Renderer::initialise]
    returns false and never gets to the light buffers, the geometry, the
    framebuffers or the uniforms. *)
Theorem initialise_needs_a_dynamic_instance b resize scene internalRes displayRes
  (self : R.t) :
  R.uniqueDynamicMeshes scene = 0 \/ R.dynamicInstances scene = 0 ->
  let r := initialise b resize scene internalRes displayRes self in
  r.1.1 = false
  /\ (r.2 = [R.BuildPrograms]
      \/ r.2 = [R.BuildPrograms; R.BuildMaterials]
      \/ r.2 = [R.BuildPrograms; R.BuildMaterials; R.BuildDynamicObjectBuffers])
  /\ R.m_lightTransforms r.1.2 = R.m_lightTransforms self
  /\ R.m_dynamics r.1.2 = R.m_dynamics self.
Proof.
  intros Hz r. subst r. unfold R.initialise.
  unfold R.buildPrograms. cbn [fst snd].
  destruct (R.programs_ok b); cbn [negb]; [|repeat split; auto].
  unfold R.buildMaterials. cbn [fst snd].
  destruct (R.materials_ok b); cbn [negb]; [|repeat split; auto].
  assert (Hfail : forall s,
            R.m_scene s = Some scene ->
            (R.buildDynamicObjectBuffers multiBuffering sizeof_DrawCommand
               sizeof_ModelTransform sizeof_MaterialID b s).1 = false
            /\ R.m_lightTransforms
                 (R.buildDynamicObjectBuffers multiBuffering sizeof_DrawCommand
                    sizeof_ModelTransform sizeof_MaterialID b s).2
               = R.m_lightTransforms s
            /\ R.m_dynamics
                 (R.buildDynamicObjectBuffers multiBuffering sizeof_DrawCommand
                    sizeof_ModelTransform sizeof_MaterialID b s).2
               = R.m_dynamics s).
  { intros s Hscene. unfold R.buildDynamicObjectBuffers. rewrite Hscene.
    destruct Hz as [Hz|Hz]; rewrite Hz; rewrite ?Z.mul_0_l.
    - change (ptrdiff_t (size_t 0)) with 0.
      unfold PMB.initialise_size at 1. cbn. repeat split.
    - change (ptrdiff_t (size_t 0)) with 0.
      destruct (PMB.initialise_size multiBuffering (R.objectDrawing_driver b)
                  (R.buffer (R.m_objectDrawing s)) _ false false) as [[ok1 buffer1] c1].
      destruct ok1; cbn [negb]; [|repeat split].
      unfold PMB.initialise_size at 1. cbn. repeat split. }
  match goal with
  | |- context [R.buildDynamicObjectBuffers _ _ _ _ b ?s] =>
      destruct (Hfail s eq_refl) as (H1 & H2 & H3);
      destruct (R.buildDynamicObjectBuffers multiBuffering sizeof_DrawCommand
                  sizeof_ModelTransform sizeof_MaterialID b s) as [ok s'] eqn:E
  end.
  cbn [fst snd] in H1, H2, H3. subst ok. cbn [negb fst snd].
  repeat split; auto.
Qed.

End RendererLife.

(** A scene of static instances, with every builder step willing. *)
Lemma initialise_needs_a_dynamic_instance_witness :
  let r :=
    Renderer.initialise 3 3 20 48 4 Samples.all_ok Samples.all_ok Cases.static_scene
      (1280, 720) (1280, 720) (Renderer.fresh 3) in
  r.1.1 = false
  /\ (r.2 = [R.BuildPrograms]
      \/ r.2 = [R.BuildPrograms; R.BuildMaterials]
      \/ r.2 = [R.BuildPrograms; R.BuildMaterials; R.BuildDynamicObjectBuffers])
  /\ R.m_lightTransforms r.1.2 = R.m_lightTransforms (Renderer.fresh 3)
  /\ R.m_dynamics r.1.2 = R.m_dynamics (Renderer.fresh 3).
Proof.
  apply (initialise_needs_a_dynamic_instance 3 3 20 48 4 Samples.all_ok Samples.all_ok
           Cases.static_scene (1280, 720) (1280, 720) (Renderer.fresh 3)).
  left. reflexivity.
Defined.

(** ** The names the object classes hold *)

Lemma held_app (e1 e2 : list Handles.Event) (names : list Z) :
  Handles.held (e1 ++ e2) names
  = match Handles.held e1 names with
    | Some names' => Handles.held e2 names'
    | None => None
    end.
Proof.
  revert names. induction e1 as [|e e1 IH]; intros names; [reflexivity|].
  destruct e as [n|n]; cbn [app Handles.held].
  - apply IH.
  - destruct (Handles.remove_first n names); [apply IH|reflexivity].
Qed.

Lemma of_buffer_calls_app (c1 c2 : list GLCall) :
  Handles.of_buffer_calls (c1 ++ c2)
  = Handles.of_buffer_calls c1 ++ Handles.of_buffer_calls c2.
Proof. unfold Handles.of_buffer_calls. apply flat_map_app. Qed.

(** Creating [name] and then deleting what was held leaves [name]. *)
Lemma held_replace (initialised : bool) (old name : Z) :
  name <> 0 ->
  Handles.held
    (Handles.Created name :: (if initialised then [Handles.Deleted old] else []))
    (Handles.own initialised old)
  = Some [name].
Proof.
  intros Hn. cbn [Handles.held].
  destruct (Z.eqb_spec name 0) as [|_]; [contradiction|].
  destruct initialised; cbn; [|reflexivity].
  destruct (Z.eqb_spec name old) as [->|Hne]; [reflexivity|].
  rewrite Z.eqb_refl. reflexivity.
Qed.

(** Creating [name] and deleting it again leaves what was held. *)
Lemma held_discard (names : list Z) (name : Z) :
  Handles.held
    (Handles.Created name :: (if negb (name =? 0) then [Handles.Deleted name] else []))
    names
  = Some names.
Proof.
  cbn [Handles.held]. destruct (Z.eqb_spec name 0) as [|Hn]; cbn; [reflexivity|].
  rewrite Z.eqb_refl. reflexivity.
Qed.

(** Case analysis on every test and every pointer of the goal, then
    arithmetic on the names. *)
Ltac settle_names :=
  repeat (match goal with
          | |- context [if ?b then _ else _] => destruct b eqn:?
          | |- context [match ?p with nullptr => _ | Ptr _ _ => _ end] => destruct p
          end; cbn);
  repeat match goal with
         | H : (_ =? _) = true |- _ => apply Z.eqb_eq in H
         | H : (_ =? _) = false |- _ => apply Z.eqb_neq in H
         end;
  subst; try congruence; try reflexivity; try (exfalso; lia).

Section BufferNames.

Variable Partitions : Z.

Lemma step_held op (self : PMB.t) :
  let r := BufferLife.step Partitions op self in
  Handles.held (Handles.of_buffer_calls r.2)
    (Handles.own (PMB.isInitialised self) (PMB.getID self))
  = Some (Handles.own (PMB.isInitialised r.1) (PMB.getID r.1)).
Proof.
  destruct op as [drv size read coherent|drv dataSize read write coherent|]; cbn zeta;
    cbn [BufferLife.step fst snd];
    unfold PMB.initialise_size, PMB.initialise_data, PMB.clean, Buffer.initialise,
      Buffer.mapRange, Buffer.move_assign, Buffer.immutablyFillWith,
      Buffer.allocateImmutableStorage, Buffer.unmap, Buffer.clean, Buffer.default,
      PMB.isInitialised, PMB.getID, Buffer.getID, Buffer.isInitialised, Handles.own;
    cbn; settle_names.
Qed.

Lemma steps_held ops (self : PMB.t) :
  let r := BufferLife.steps Partitions ops self in
  Handles.held (Handles.of_buffer_calls r.2)
    (Handles.own (PMB.isInitialised self) (PMB.getID self))
  = Some (Handles.own (PMB.isInitialised r.1) (PMB.getID r.1)).
Proof.
  revert self. induction ops as [|op ops IH]; intros self; [reflexivity|].
  cbn [BufferLife.steps]. pose proof (step_held op self) as H1. cbn zeta in H1.
  destruct (BufferLife.step Partitions op self) as [self1 c1].
  specialize (IH self1). cbn zeta in IH.
  destruct (BufferLife.steps Partitions ops self1) as [self2 c2].
  cbn [fst snd] in *. rewrite of_buffer_calls_app, held_app, H1. exact IH.
Qed.

(** X14.  A persistently-mapped buffer never leaks a buffer object and
    never deletes one it does not hold.  Through any sequence of
    [initialise] and [clean] calls on a default-constructed object,
    whatever the driver answers and whichever calls fail, every
    [glDeleteBuffers] is of a name that [glGenBuffers] handed out and that
    has not been deleted since, and at the end the names handed out and not
    deleted are the name of the object's buffer when it has one, none
    otherwise. *)
Theorem buffer_names_are_released ops :
  let r := BufferLife.steps Partitions ops PMB.default in
  Handles.held (Handles.of_buffer_calls r.2) []
  = Some (if PMB.isInitialised r.1 then [PMB.getID r.1] else []).
Proof. exact (steps_held ops PMB.default). Qed.

End BufferNames.


Section ObjectClasses.

Lemma framebuffer_step_held op (self : Framebuffer.t) :
  let r := Framebuffer.step op self in
  Handles.held (Framebuffer.events r.2)
    (Handles.own (Framebuffer.isInitialised self) (Framebuffer.getID self))
  = Some (Handles.own (Framebuffer.isInitialised r.1) (Framebuffer.getID r.1)).
Proof.
  destruct op as [name|]; cbn zeta; cbn [Framebuffer.step];
    unfold Framebuffer.initialise, Framebuffer.clean, Framebuffer.isInitialised,
      Framebuffer.getID, Handles.own;
    cbn; settle_names.
Qed.

Lemma framebuffer_steps_held ops (self : Framebuffer.t) :
  let r := Framebuffer.steps ops self in
  Handles.held (Framebuffer.events r.2)
    (Handles.own (Framebuffer.isInitialised self) (Framebuffer.getID self))
  = Some (Handles.own (Framebuffer.isInitialised r.1) (Framebuffer.getID r.1)).
Proof.
  revert self. induction ops as [|op ops IH]; intros self; [reflexivity|].
  cbn [Framebuffer.steps]. pose proof (framebuffer_step_held op self) as H1. cbn zeta in H1.
  destruct (Framebuffer.step op self) as [self1 c1].
  specialize (IH self1). cbn zeta in IH.
  destruct (Framebuffer.steps ops self1) as [self2 c2].
  cbn [fst snd] in *. unfold Framebuffer.events in *.
  rewrite map_app, held_app, H1. exact IH.
Qed.

(** X15.  [Framebuffer::initialise] is all or nothing: it returns false
    exactly when [glGenFramebuffers] hands out no name, and then leaves the
    object as it was and deletes nothing; when it returns true the object
    holds the new name and the framebuffer it held before, if any, has
    been deleted, after the new one was generated.  Through any sequence
    of [initialise] and [clean] calls on a default-constructed object
    every deletion is of a name the object holds, and the names generated
    and not deleted are the object's own name when it has one, none
    otherwise. *)
Theorem framebuffer_initialise_is_all_or_nothing :
  (forall name self,
     let r := Framebuffer.initialise name self in
     r.1.1 = negb (name =? 0)
     /\ (r.1.1 = false -> r.1.2 = self /\ r.2 = [Framebuffer.glGenFramebuffers name])
     /\ (r.1.1 = true ->
         Framebuffer.getID r.1.2 = name
         /\ r.2 = Framebuffer.glGenFramebuffers name
                  :: (if Framebuffer.isInitialised self
                      then [Framebuffer.glDeleteFramebuffers (Framebuffer.getID self)]
                      else [])))
  /\ (forall ops,
        let r := Framebuffer.steps ops Framebuffer.default in
        Handles.held (Framebuffer.events r.2) []
        = Some (if Framebuffer.isInitialised r.1 then [Framebuffer.getID r.1] else [])).
Proof.
  split.
  - intros name self. unfold Framebuffer.initialise, Framebuffer.clean.
    destruct (name =? 0); cbn.
    + repeat split; intros; discriminate.
    + destruct (Framebuffer.isInitialised self); cbn;
        (split; [reflexivity|split; [discriminate|intros _; split; reflexivity]]).
  - intros ops. exact (framebuffer_steps_held ops Framebuffer.default).
Qed.

Lemma program_events_app (c1 c2 : list Program.Call) :
  Program.events (c1 ++ c2) = Program.events c1 ++ Program.events c2.
Proof. unfold Program.events. apply flat_map_app. Qed.

Lemma program_step_held op (self : Program.t) :
  let r := Program.step op self in
  Handles.held (Program.events r.2)
    (Handles.own (Program.isInitialised self) (Program.getID self))
  = Some (Handles.own (Program.isInitialised r.1) (Program.getID r.1)).
Proof.
  destruct op as [name|]; cbn zeta; cbn [Program.step];
    unfold Program.initialise, Program.clean, Program.isInitialised,
      Program.getID, Handles.own;
    cbn; settle_names.
Qed.

Lemma program_steps_held ops (self : Program.t) :
  let r := Program.steps ops self in
  Handles.held (Program.events r.2)
    (Handles.own (Program.isInitialised self) (Program.getID self))
  = Some (Handles.own (Program.isInitialised r.1) (Program.getID r.1)).
Proof.
  revert self. induction ops as [|op ops IH]; intros self; [reflexivity|].
  cbn [Program.steps]. pose proof (program_step_held op self) as H1. cbn zeta in H1.
  destruct (Program.step op self) as [self1 c1].
  specialize (IH self1). cbn zeta in IH.
  destruct (Program.steps ops self1) as [self2 c2].
  cbn [fst snd] in *.
  rewrite program_events_app, held_app, H1. exact IH.
Qed.

(** X16.  [Program::initialise] is all or nothing in the same way: false
    exactly when [glCreateProgram] returns zero, the object then untouched;
    on success the old program deleted after the new one was created, and
    no program leaked or deleted twice through any sequence of
    [initialise] and [clean].  [attachShader] attaches a shader only when
    that shader is initialised.  [link] returns true exactly when the
    driver reports GL_TRUE for the link of an existing program, and asks
    for the log only when it returns false. *)
Theorem program_initialise_is_all_or_nothing :
  (forall name self,
     let r := Program.initialise name self in
     r.1.1 = negb (name =? 0)
     /\ (r.1.1 = false -> r.1.2 = self /\ r.2 = [Program.glCreateProgram name])
     /\ (r.1.1 = true ->
         Program.getID r.1.2 = name
         /\ r.2 = Program.glCreateProgram name
                  :: (if Program.isInitialised self
                      then [Program.glDeleteProgram (Program.getID self)]
                      else [])))
  /\ (forall ops,
        let r := Program.steps ops Program.default in
        Handles.held (Program.events r.2) []
        = Some (if Program.isInitialised r.1 then [Program.getID r.1] else []))
  /\ (forall shader self,
        Program.attachShader shader self
        = if Shader.isInitialised shader
          then [Program.glAttachShader (Program.getID self) (Shader.getID shader)]
          else [])
  /\ (forall status self,
        let r := Program.link status self in
        r.1 = Program.isInitialised self && (status =? GL_TRUE)
        /\ (In (Program.glGetProgramInfoLog (Program.getID self)) r.2 <-> r.1 = false)).
Proof.
  split; [|split; [|split]].
  - intros name self. unfold Program.initialise, Program.clean.
    destruct (name =? 0); cbn.
    + repeat split; intros; discriminate.
    + destruct (Program.isInitialised self); cbn;
        (split; [reflexivity|split; [discriminate|intros _; split; reflexivity]]).
  - intros ops. exact (program_steps_held ops Program.default).
  - reflexivity.
  - intros status self. unfold Program.link, Program.isInitialised, Program.getID.
    destruct (Program.m_program self =? 0); cbn.
    + split; [reflexivity|]. split; [reflexivity|]. intros _. right. right. left. reflexivity.
    + destruct (status =? GL_TRUE); cbn.
      * split; [reflexivity|]. split; [|discriminate].
        intros [H|[H|[]]]; discriminate.
      * split; [reflexivity|]. split; [reflexivity|]. intros _. right. right. left. reflexivity.
Qed.

Lemma remove_first_In (name : Z) (names : list Z) :
  name ∈ names ->
  exists rest, Handles.remove_first name names = Some rest /\ names ≡ₚ name :: rest.
Proof.
  induction names as [|n names IH]; intros Hin; [inversion Hin|].
  cbn [Handles.remove_first]. destruct (Z.eqb_spec n name) as [->|Hne].
  - exists names. split; reflexivity.
  - apply elem_of_cons in Hin. destruct Hin as [->|Hin]; [contradiction|].
    destruct (IH Hin) as (rest & -> & Hp).
    exists (n :: rest). split; [reflexivity|]. rewrite Hp. apply Permutation_swap.
Qed.

Lemma shader_events_app (c1 c2 : list Shader.Call) :
  Shader.events (c1 ++ c2) = Shader.events c1 ++ Shader.events c2.
Proof. unfold Shader.events. apply flat_map_app. Qed.

Lemma shader_step_held op (self : Shader.t) (names extra : list Z) :
  names ≡ₚ Handles.own (Shader.isInitialised self) (Shader.getID self) ++ extra ->
  let r := Shader.step op self in
  let failed :=
    match op with
    | Shader.Initialise drv _ =>
        if negb r.1.1 && negb (Shader.shader_name drv =? 0)
        then [Shader.shader_name drv] else []
    | Shader.Clean => []
    end in
  exists names',
    Handles.held (Shader.events r.2) names = Some names'
    /\ names' ≡ₚ Handles.own (Shader.isInitialised r.1.2) (Shader.getID r.1.2)
                  ++ failed ++ extra.
Proof.
  intros Hp. destruct op as [drv type|]; cbn zeta; cbn [Shader.step].
  - unfold Shader.initialise, Shader.clean, Shader.isInitialised, Shader.getID.
    destruct (Shader.shader_name drv =? 0) eqn:Hb.
    + cbn. rewrite Hb. cbn. exists names. split; [reflexivity|exact Hp].
    + destruct (Shader.compile_status drv =? GL_TRUE) eqn:Hs; cbn; rewrite ?Hb; cbn.
      * unfold Shader.isInitialised, Shader.getID, Handles.own in Hp.
        destruct (Shader.m_shader self =? 0) eqn:Ho; cbn in *; rewrite ?Hb; cbn.
        -- eexists. split; [reflexivity|]. rewrite Hp. reflexivity.
        -- destruct (remove_first_In (Shader.m_shader self)
                       (Shader.shader_name drv :: names)) as (rest & Hr & Hperm).
           { right. rewrite Hp. left. }
           cbn [Handles.remove_first] in Hr. rewrite Hr. exists rest. split; [reflexivity|].
           rewrite Hp in Hperm.
           rewrite (Permutation_swap (Shader.m_shader self) (Shader.shader_name drv) extra)
             in Hperm.
           apply Permutation_cons_inv in Hperm. symmetry. exact Hperm.
      * eexists. split; [reflexivity|]. rewrite Hp.
        apply Permutation_middle.
  - unfold Shader.clean, Shader.isInitialised, Shader.getID in *.
    unfold Handles.own in *.
    destruct (Shader.m_shader self =? 0) eqn:Ho; cbn in *; rewrite ?Ho; cbn.
    + exists names. split; [reflexivity|exact Hp].
    + destruct (remove_first_In (Shader.m_shader self) names) as (rest & Hr & Hperm).
      { rewrite Hp. left. }
      rewrite Hr. exists rest. split; [reflexivity|].
      rewrite Hp in Hperm. apply Permutation_cons_inv in Hperm. symmetry. exact Hperm.
Qed.

Lemma shader_steps_held ops (self : Shader.t) (names extra : list Z) :
  names ≡ₚ Handles.own (Shader.isInitialised self) (Shader.getID self) ++ extra ->
  let r := Shader.steps ops self in
  exists names',
    Handles.held (Shader.events r.1.2) names = Some names'
    /\ names' ≡ₚ Handles.own (Shader.isInitialised r.1.1) (Shader.getID r.1.1)
                  ++ r.2 ++ extra.
Proof.
  revert self names extra. induction ops as [|op ops IH]; intros self names extra Hp.
  - exists names. split; [reflexivity|exact Hp].
  - cbn zeta. cbn [Shader.steps].
    destruct (shader_step_held op self names extra Hp) as (names1 & H1 & Hp1).
    destruct (Shader.step op self) as [[ok self1] c1]. cbn [fst snd] in H1, Hp1.
    specialize (IH self1 names1 _ Hp1). cbn zeta in IH.
    destruct (Shader.steps ops self1) as [[self2 c2] failed].
    destruct IH as (names2 & H2 & Hp2). cbn [fst snd] in *.
    exists names2. split.
    + rewrite shader_events_app, held_app, H1. exact H2.
    + rewrite Hp2. apply Permutation_app_head.
      destruct op as [drv type|]; cbn [app].
      * destruct (negb ok && negb (Shader.shader_name drv =? 0)); cbn [app].
        -- symmetry. apply Permutation_middle.
        -- reflexivity.
      * reflexivity.
Qed.

(** X17.  [Shader::initialise] returns true exactly when the driver
    creates a shader and reports GL_TRUE for its compilation.  When it
    returns false the object is as it was, and the shader that was created
    for the attempt is not deleted: the function makes no [glDeleteShader]
    call.  When it returns true the object holds the new shader and its
    type, and the shader it held before has been deleted.  Through any
    sequence of [initialise] and [clean] calls on a default-constructed
    object, the shaders created and not deleted are the object's own
    shader, when it has one, and one shader for every [initialise] that
    created a shader and returned false. *)
Theorem failed_compilation_keeps_its_shader :
  (forall drv type self,
     let r := Shader.initialise drv type self in
     r.1.1 = negb (Shader.shader_name drv =? 0) && (Shader.compile_status drv =? GL_TRUE)
     /\ (r.1.1 = false ->
         r.1.2 = self
         /\ In (Shader.glCreateShader type (Shader.shader_name drv)) r.2
         /\ forall name, ~ In (Shader.glDeleteShader name) r.2)
     /\ (r.1.1 = true ->
         r.1.2 = {| Shader.m_shader := Shader.shader_name drv; Shader.m_type := type |}
         /\ forall name,
              In (Shader.glDeleteShader name) r.2
              <-> Shader.isInitialised self = true /\ name = Shader.getID self))
  /\ (forall ops,
        let r := Shader.steps ops Shader.default in
        exists names,
          Handles.held (Shader.events r.1.2) [] = Some names
          /\ names ≡ₚ (if Shader.isInitialised r.1.1 then [Shader.getID r.1.1] else [])
                       ++ r.2).
Proof.
  split.
  - intros drv type self. unfold Shader.initialise, Shader.clean.
    destruct (Shader.shader_name drv =? 0); cbn.
    + split; [reflexivity|]. split; [|discriminate]. intros _.
      split; [reflexivity|]. split; [left; reflexivity|].
      intros name [H|[H|[H|[H|[H|[]]]]]]; discriminate.
    + destruct (Shader.compile_status drv =? GL_TRUE); cbn.
      * destruct (Shader.isInitialised self); cbn;
          (split; [reflexivity|]; split; [discriminate|]; intros _).
        -- split; [reflexivity|]. intros name. split.
           ++ intros [H|[H|[H|[H|[H|[]]]]]]; try discriminate.
              injection H as <-. split; reflexivity.
           ++ intros [_ ->]. do 4 right. left. reflexivity.
        -- split; [reflexivity|]. intros name. split.
           ++ intros [H|[H|[H|[H|[]]]]]; discriminate.
           ++ intros [H _]. discriminate.
      * split; [reflexivity|]. split; [|discriminate]. intros _.
        split; [reflexivity|]. split; [left; reflexivity|].
        intros name [H|[H|[H|[H|[H|[]]]]]]; discriminate.
  - intros ops.
    destruct (shader_steps_held ops Shader.default [] [] ltac:(reflexivity))
      as (names & H & Hp).
    exists names. split; [exact H|]. rewrite Hp, app_nil_r. reflexivity.
Qed.

End ObjectClasses.

(** ** The shadow maps *)

Section ShadowMapsUse.

Context {SpotLight LightView : Type}.
Variable getId : SpotLight -> Z.
Variable getCastShadow : SpotLight -> bool.
Variable lookAt : SpotLight -> LightView.
Variable maxResolution : Z.
Variable sizeof_mat4 : Z.

Local Abbreviation State := ShadowMaps.t.
Local Abbreviation casters := (ShadowMaps.casters getId getCastShadow).
Local Abbreviation addShadowCasters := (ShadowMaps.addShadowCasters getId getCastShadow).
Local Abbreviation initialise :=
  (ShadowMaps.initialise getId getCastShadow maxResolution).
Local Abbreviation writeLightViews := (ShadowMaps.writeLightViews getId lookAt).
Local Abbreviation setUniforms := (ShadowMaps.setUniforms getId lookAt sizeof_mat4).

Lemma casters_cons light (spotlights : list SpotLight) :
  casters (light :: spotlights)
  = (if getCastShadow light then [getId light] else []) ++ casters spotlights.
Proof.
  unfold ShadowMaps.casters. cbn [List.filter].
  destruct (getCastShadow light); reflexivity.
Qed.

(** What the loop of [initialise] adds to the vector and to the map. *)
Lemma addShadowCasters_spec (spotlights : list SpotLight) (lights : list Z)
  (ids : gmap Z Z) :
  NoDup (lights ++ casters spotlights) ->
  Z.of_nat (length (lights ++ casters spotlights)) < 2 ^ 31 ->
  let r := addShadowCasters spotlights (lights, ids) in
  r.1 = lights ++ casters spotlights
  /\ (forall (i : nat) id,
        casters spotlights !! i = Some id ->
        r.2 !! id = Some (Z.of_nat (length lights + i)))
  /\ (forall id, id ∉ casters spotlights -> r.2 !! id = ids !! id).
Proof.
  revert lights ids. induction spotlights as [|light rest IH]; intros lights ids Hnd Hlen.
  - cbn. rewrite app_nil_r. split; [reflexivity|]. split; [|reflexivity].
    intros i id H. discriminate.
  - cbn zeta. cbn [ShadowMaps.addShadowCasters fst snd].
    rewrite casters_cons in *.
    destruct (getCastShadow light) eqn:Hc; cbn [app] in *.
    + replace (lights ++ getId light :: casters rest)
        with ((lights ++ [getId light]) ++ casters rest) in Hnd, Hlen
        by (rewrite <- app_assoc; reflexivity).
      destruct (IH (lights ++ [getId light])
                  (<[getId light := GLsizei (Z.of_nat (length lights))]> ids) Hnd Hlen)
        as (H1 & H2 & H3).
      split; [|split].
      * rewrite H1, <- app_assoc. reflexivity.
      * intros [|i] id Hi; cbn in Hi.
        -- injection Hi as <-. rewrite H3.
           ++ rewrite lookup_insert_eq. f_equal.
              rewrite Nat.add_0_r. apply GLsizei_id.
              rewrite !length_app in Hlen. lia.
           ++ intros Hin. apply NoDup_app in Hnd. destruct Hnd as (_ & Hdis & _).
              apply (Hdis (getId light)); [|exact Hin].
              apply elem_of_app. right. left.
        -- rewrite (H2 i id Hi). rewrite length_app. cbn [length]. f_equal. lia.
      * intros id Hid. rewrite H3.
        -- apply lookup_insert_ne. intros <-. apply Hid. left.
        -- intros Hin. apply Hid. right. exact Hin.
    + apply IH; assumption.
Qed.

(** X18.  [ShadowMaps::initialise] returns true exactly when the
    framebuffer and the texture array can be created; on failure the object
    is as it was and no storage is allocated.  On success [m_lights] holds
    the identifiers of the spotlights that cast a shadow, in the order of
    the scene, the texture array gets one layer for each, and [operator[]]
    is the inverse of [m_lights]: it maps the identifier at position [i]
    to [i], and every identifier that is not in [m_lights] to -1.  The
    identifiers of the shadow casters are assumed distinct and fewer than
    2^31. *)
Theorem shadow_casters_are_indexed drv (spotlights : list SpotLight) textureUnit
  (self : State) :
  NoDup (casters spotlights) ->
  Z.of_nat (length (casters spotlights)) < 2 ^ 31 ->
  let r := initialise drv spotlights textureUnit self in
  r.1.1 = negb (ShadowMaps.fbo_name drv =? 0) && ShadowMaps.maps_ok drv
  /\ (r.1.1 = false -> r.1.2 = self /\ r.2 = None)
  /\ (r.1.1 = true ->
      ShadowMaps.isInitialised r.1.2 = true
      /\ ShadowMaps.m_lights r.1.2 = casters spotlights
      /\ (forall (i : nat) id,
            casters spotlights !! i = Some id -> ShadowMaps.lookup r.1.2 id = Z.of_nat i)
      /\ (forall id, id ∉ casters spotlights -> ShadowMaps.lookup r.1.2 id = -1)
      /\ exists resolution,
           r.2 = Some (resolution, resolution, Z.of_nat (length (casters spotlights)))).
Proof.
  intros Hnd Hlen r. subst r. unfold ShadowMaps.initialise, Framebuffer.initialise.
  destruct (ShadowMaps.fbo_name drv =? 0) eqn:Hn; cbn.
  { split; [reflexivity|]. split; [intros _; split; reflexivity|discriminate]. }
  destruct (ShadowMaps.maps_ok drv); cbn;
    [|split; [reflexivity|]; split; [intros _; split; reflexivity|discriminate]].
  destruct (addShadowCasters_spec spotlights [] ∅ Hnd Hlen) as (H1 & H2 & H3).
  destruct (addShadowCasters spotlights ([], ∅)) as [lights ids].
  cbn [fst snd app length Nat.add] in *. subst lights.
  split; [reflexivity|]. split; [discriminate|]. intros _.
  split; [|split; [|split; [|split]]].
  - unfold ShadowMaps.isInitialised, Framebuffer.isInitialised. cbn. rewrite Hn. reflexivity.
  - reflexivity.
  - intros i id Hi. unfold ShadowMaps.lookup. cbn. rewrite (H2 i id Hi). reflexivity.
  - intros id Hid. unfold ShadowMaps.lookup. cbn. rewrite (H3 id Hid). reflexivity.
  - eexists. rewrite (GLsizei_id (Z.of_nat (length (casters spotlights)))) by lia.
    reflexivity.
Qed.

(** The loop of [setUniforms] stays inside [m_lights] and inside the
    first [length m_lights] views. *)
Lemma writeLightViews_bounds (lights : list Z) (spotlights : list SpotLight)
  (i id : Z) (pointer : gmap Z LightView) :
  Z.of_nat (length lights) < 2 ^ 64 ->
  0 <= i < Z.of_nat (length lights) ->
  exists i' pointer',
    writeLightViews lights spotlights i id pointer = Some (i', pointer')
    /\ i <= i' <= Z.of_nat (length lights)
    /\ forall j, j < i \/ i' <= j -> pointer' !! j = pointer !! j.
Proof.
  intros Hn. revert i id pointer.
  induction spotlights as [|spotlight rest IH]; intros i id pointer Hi.
  - exists i, pointer. cbn. split; [reflexivity|]. split; [lia|reflexivity].
  - cbn [ShadowMaps.writeLightViews].
    destruct (getId spotlight =? id).
    + rewrite (size_t_id (i + 1)) by lia.
      destruct (Z.ltb_spec (i + 1) (Z.of_nat (length lights))) as [Hlt|Hge].
      * destruct (lookup_lt_is_Some_2 lights (Z.to_nat (i + 1)) ltac:(lia)) as [next ->].
        destruct (IH (i + 1) next (<[i := lookAt spotlight]> pointer) ltac:(lia))
          as (i' & pointer' & -> & Hr & Hk).
        exists i', pointer'. split; [reflexivity|]. split; [lia|].
        intros j Hj. rewrite Hk by lia. apply lookup_insert_ne. lia.
      * eexists _, _. split; [reflexivity|]. split; [lia|].
        intros j Hj. apply lookup_insert_ne. lia.
    + apply IH. exact Hi.
Qed.

(** X19.  [ShadowMaps::setUniforms] stops at its assertion when it is
    given no scene.  Given one, whatever its spotlights are, it never reads
    [m_lights] past its end and writes no view at or beyond the index
    [m_lights.size()]: it writes the views of some [written] lights at the
    indices below [written], at most as many as there are shadow casters,
    leaves every other view as it was, and returns the range of [written]
    matrices from [start]; with no shadow caster it writes nothing and
    returns the range [(0, 0)]. *)
Theorem light_views_stay_in_bounds (spotlights : list SpotLight)
  (pointer : gmap Z LightView) (start : Z) (self : State) :
  Z.of_nat (length (ShadowMaps.m_lights self)) < 2 ^ 64 ->
  setUniforms None pointer start self = None
  /\ exists range pointer' written,
       setUniforms (Some spotlights) pointer start self = Some (range, pointer')
       /\ 0 <= written <= Z.of_nat (length (ShadowMaps.m_lights self))
       /\ (forall j, j < 0 \/ written <= j -> pointer' !! j = pointer !! j)
       /\ range
          = (if decide (ShadowMaps.m_lights self = [])
             then ModifiedRange.make 0 0
             else ModifiedRange.make start (GLsizei (size_t (sizeof_mat4 * written))))
       /\ (ShadowMaps.m_lights self = [] -> pointer' = pointer).
Proof.
  intros Hn. split; [reflexivity|].
  unfold ShadowMaps.setUniforms.
  destruct (ShadowMaps.m_lights self) as [|currentID lights] eqn:Hl.
  - exists (ModifiedRange.make 0 0), pointer, 0. cbn [length].
    split; [reflexivity|]. split; [lia|]. split; [reflexivity|].
    split; [|reflexivity]. destruct (decide ([] = [])); [reflexivity|contradiction].
  - destruct (writeLightViews_bounds (currentID :: lights) spotlights 0 currentID pointer
                Hn ltac:(cbn [length]; lia))
      as (i' & pointer' & -> & Hr & Hk).
    eexists _, pointer', i'. split; [reflexivity|]. split; [lia|]. split; [exact Hk|].
    split; [|discriminate].
    destruct (decide (currentID :: lights = [])); [discriminate|reflexivity].
Qed.

Lemma drop_casters_cons (lights : list Z) (i : nat) (id : Z) (rest : list Z) :
  drop i lights = id :: rest ->
  lights !! i = Some id /\ drop (S i) lights = rest /\ (i < length lights)%nat.
Proof.
  intros H.
  assert (Hi : lights !! i = Some id).
  { rewrite <- (Nat.add_0_r i). rewrite <- lookup_drop. rewrite H. reflexivity. }
  split; [exact Hi|]. split.
  - rewrite (drop_S _ _ _ Hi) in H. injection H as H. exact H.
  - apply lookup_lt_Some in Hi. exact Hi.
Qed.

(** The loop of [setUniforms] on the spotlights [m_lights] was made
    from. *)
Lemma writeLightViews_all (lights : list Z) (spotlights : list SpotLight)
  (i : nat) (id : Z) (pointer : gmap Z LightView) :
  Z.of_nat (length lights) < 2 ^ 64 ->
  NoDup (map getId spotlights) ->
  drop i lights = casters spotlights ->
  lights !! i = Some id ->
  exists pointer',
    writeLightViews lights spotlights (Z.of_nat i) id pointer
    = Some (Z.of_nat (length lights), pointer')
    /\ (forall (k : nat) light,
          List.filter getCastShadow spotlights !! k = Some light ->
          pointer' !! Z.of_nat (i + k) = Some (lookAt light))
    /\ (forall j, j < Z.of_nat i \/ Z.of_nat (length lights) <= j ->
          pointer' !! j = pointer !! j).
Proof.
  intros Hn. revert i id pointer.
  induction spotlights as [|spotlight rest IH]; intros i id pointer Hnd Hdrop Hi.
  - exfalso. cbn in Hdrop. rewrite (drop_S _ _ _ Hi) in Hdrop. discriminate.
  - cbn [map] in Hnd. apply NoDup_cons in Hnd. destruct Hnd as [Hnotin Hnd].
    rewrite casters_cons in Hdrop.
    cbn [ShadowMaps.writeLightViews List.filter].
    destruct (getCastShadow spotlight) eqn:Hc; cbn [app] in Hdrop.
    + destruct (drop_casters_cons _ _ _ _ Hdrop) as (Hi' & Hdrop' & Hlt).
      rewrite Hi in Hi'. injection Hi' as ->. rewrite Z.eqb_refl.
      rewrite (size_t_id (Z.of_nat i + 1)) by lia.
      replace (Z.of_nat i + 1) with (Z.of_nat (S i)) by lia. rewrite Nat2Z.id.
      destruct (Z.ltb_spec (Z.of_nat (S i)) (Z.of_nat (length lights))) as [Hlt'|Hge].
      * destruct (lookup_lt_is_Some_2 lights (S i) ltac:(lia)) as [next Hnext].
        rewrite Hnext.
        destruct (IH (S i) next (<[Z.of_nat i := lookAt spotlight]> pointer)
                    Hnd Hdrop' Hnext) as (pointer' & -> & Hw & Hk).
        exists pointer'. split; [reflexivity|]. split.
        -- intros [|k] light Hl; cbn in Hl.
           ++ injection Hl as <-. rewrite Nat.add_0_r.
              rewrite Hk by lia. apply lookup_insert_eq.
           ++ replace (i + S k)%nat with (S i + k)%nat by lia. apply Hw. exact Hl.
        -- intros j Hj. rewrite Hk by lia. apply lookup_insert_ne. lia.
      * assert (Hlast : S i = length lights) by lia.
        assert (Hnone : List.filter getCastShadow rest = []).
        { assert (Hd : drop (S i) lights = []) by (apply drop_ge; lia).
          rewrite Hd in Hdrop'. unfold ShadowMaps.casters in Hdrop'.
          symmetry in Hdrop'. apply map_eq_nil in Hdrop'. exact Hdrop'. }
        eexists. split; [rewrite <- Hlast; reflexivity|]. split.
        -- intros [|k] light Hl; cbn in Hl.
           ++ injection Hl as <-. rewrite Nat.add_0_r. apply lookup_insert_eq.
           ++ rewrite Hnone in Hl. discriminate.
        -- intros j Hj. apply lookup_insert_ne. lia.
    + destruct (Z.eqb_spec (getId spotlight) id) as [Heq|Hne].
      * exfalso. apply Hnotin.
        assert (Hin : id ∈ casters rest).
        { rewrite <- Hdrop. rewrite (drop_S _ _ _ Hi). left. }
        unfold ShadowMaps.casters in Hin.
        apply list_elem_of_In, in_map_iff in Hin. destruct Hin as (light & Hid & Hin).
        apply list_elem_of_In, in_map_iff. exists light. split; [congruence|].
        apply filter_In in Hin. tauto.
      * apply IH; assumption.
Qed.

(** X20.  On the spotlights [m_lights] was made from, their identifiers
    distinct and their order unchanged, [setUniforms] writes the view
    transform of every shadow caster: the view of the light at position [i]
    of [m_lights] is stored at index [i], no other view is touched, and the
    range returned starts at [start] and is one matrix per shadow caster
    long. *)
Theorem light_views_are_written (spotlights : list SpotLight)
  (pointer : gmap Z LightView) (start : Z) (self : State) :
  NoDup (map getId spotlights) ->
  ShadowMaps.m_lights self = casters spotlights ->
  let shadowCasters := Z.of_nat (length (casters spotlights)) in
  0 < shadowCasters < 2 ^ 31 ->
  0 <= sizeof_mat4 -> sizeof_mat4 * shadowCasters < 2 ^ 31 ->
  - 2 ^ 63 <= start < 2 ^ 63 ->
  exists pointer',
    setUniforms (Some spotlights) pointer start self
    = Some ({| ModifiedRange.offset := start;
               ModifiedRange.length := sizeof_mat4 * shadowCasters |}, pointer')
    /\ (forall (i : nat) light,
          List.filter getCastShadow spotlights !! i = Some light ->
          ShadowMaps.m_lights self !! i = Some (getId light)
          /\ pointer' !! Z.of_nat i = Some (lookAt light))
    /\ (forall j, j < 0 \/ shadowCasters <= j -> pointer' !! j = pointer !! j).
Proof.
  intros Hnd Hl shadowCasters Hpos Hs Hfit Hstart. subst shadowCasters.
  unfold ShadowMaps.setUniforms. rewrite Hl.
  assert (Hfilter : forall (i : nat) light,
            List.filter getCastShadow spotlights !! i = Some light ->
            casters spotlights !! i = Some (getId light)).
  { intros i light Hi. unfold ShadowMaps.casters. rewrite list_lookup_fmap_Some.
    exists light. split; [reflexivity|exact Hi]. }
  destruct (casters spotlights) as [|currentID lights] eqn:Hc.
  { cbn in Hpos. lia. }
  destruct (writeLightViews_all (currentID :: lights) spotlights 0 currentID pointer
              ltac:(lia) Hnd ltac:(symmetry; exact Hc) eq_refl)
    as (pointer' & Hrun & Hw & Hk).
  change (Z.of_nat 0) with 0 in Hrun. rewrite Hrun.
  exists pointer'. split; [|split].
  - unfold ModifiedRange.make. rewrite ptrdiff_t_id by exact Hstart.
    cbn [length] in *.
    assert (0 <= sizeof_mat4 * Z.of_nat (S (length lights))) by nia.
    rewrite size_t_id by lia.
    rewrite !(GLsizei_id (sizeof_mat4 * Z.of_nat (S (length lights)))) by lia.
    reflexivity.
  - intros i light Hi. split; [exact (Hfilter i light Hi)|apply (Hw i light Hi)].
  - intros j Hj. apply Hk. lia.
Qed.

End ShadowMapsUse.

(** Four spotlights, three of which cast a shadow. *)
Lemma shadow_casters_are_indexed_witness :
  let r :=
    ShadowMaps.initialise fst snd 2048 Cases.shadow_driver Cases.spotlights 5
      ShadowMaps.default in
  NoDup (ShadowMaps.casters fst snd Cases.spotlights)
  /\ r.1.1 = true
  /\ ShadowMaps.isInitialised r.1.2 = true
  /\ ShadowMaps.m_lights r.1.2 = [4; 6; 2]
  /\ (forall (i : nat) id,
        [4; 6; 2] !! i = Some id -> ShadowMaps.lookup r.1.2 id = Z.of_nat i)
  /\ (forall id, id ∉ [4; 6; 2] -> ShadowMaps.lookup r.1.2 id = -1)
  /\ r.2 = Some (2048, 2048, 3).
Proof.
  intros r.
  assert (Hnd : NoDup (ShadowMaps.casters fst snd Cases.spotlights)).
  { apply (bool_decide_unpack _). vm_compute. exact I. }
  split; [exact Hnd|].
  destruct (shadow_casters_are_indexed fst snd 2048 Cases.shadow_driver Cases.spotlights 5
              ShadowMaps.default Hnd ltac:(reflexivity)) as (Hok & _ & Hsuccess).
  fold r in Hok, Hsuccess.
  split; [exact Hok|].
  destruct (Hsuccess Hok) as (Hi & Hl & Hidx & Hmiss & resolution & Hres).
  split; [exact Hi|]. split; [exact Hl|]. split; [exact Hidx|]. split; [exact Hmiss|].
  reflexivity.
Defined.

(** The shadow maps of the sample spotlights, given the lights in another order. *)
Lemma light_views_stay_in_bounds_witness :
  let spotlights := [(6, true); (4, true); (2, true)] in
  ShadowMaps.setUniforms fst Cases.lookAt 64 None ∅ 128 Cases.shadow_maps = None
  /\ exists range pointer' written,
       ShadowMaps.setUniforms fst Cases.lookAt 64 (Some spotlights) ∅ 128 Cases.shadow_maps
       = Some (range, pointer')
       /\ 0 <= written <= 3
       /\ (forall j, j < 0 \/ written <= j -> pointer' !! j = (∅ : gmap Z Z) !! j)
       /\ range = ModifiedRange.make 128 (GLsizei (size_t (64 * written))).
Proof.
  intros spotlights.
  destruct (light_views_stay_in_bounds fst Cases.lookAt 64 spotlights ∅ 128
              Cases.shadow_maps ltac:(reflexivity))
    as (Hnone & range & pointer' & written & Hrun & Hbound & Hrest & Hrange & _).
  split; [exact Hnone|].
  exists range, pointer', written.
  split; [exact Hrun|]. split; [exact Hbound|]. split; [exact Hrest|]. exact Hrange.
Defined.

(** The shadow maps of the sample spotlights, given those spotlights. *)
Lemma light_views_are_written_witness :
  NoDup (map fst Cases.spotlights)
  /\ ShadowMaps.m_lights Cases.shadow_maps = ShadowMaps.casters fst snd Cases.spotlights
  /\ exists pointer',
       ShadowMaps.setUniforms fst Cases.lookAt 64 (Some Cases.spotlights) ∅ 128
         Cases.shadow_maps
       = Some ({| ModifiedRange.offset := 128; ModifiedRange.length := 64 * 3 |}, pointer')
       /\ (forall (i : nat) light,
             List.filter snd Cases.spotlights !! i = Some light ->
             ShadowMaps.m_lights Cases.shadow_maps !! i = Some light.1
             /\ pointer' !! Z.of_nat i = Some (Cases.lookAt light))
       /\ (forall j, j < 0 \/ 3 <= j -> pointer' !! j = (∅ : gmap Z Z) !! j).
Proof.
  assert (Hnd : NoDup (map fst Cases.spotlights)).
  { apply (bool_decide_unpack _). vm_compute. exact I. }
  split; [exact Hnd|]. split; [reflexivity|].
  apply (light_views_are_written fst snd Cases.lookAt 64 Cases.spotlights ∅ 128
           Cases.shadow_maps Hnd eq_refl); first [lia | evaluate_bounds].
Defined.

(** ** The aligned size of a uniform block *)

(** X21.  [Uniforms::calculateAlignedSize] rounds the size of a block up
    to the alignment: for a positive alignment the result is a multiple of
    the alignment, at least the size and less than the size plus the
    alignment, hence the least such multiple; a size that is aligned
    already is returned as it is.  With an alignment of zero the function
    divides by zero. *)
Theorem aligned_size_is_the_least_multiple (alignment size : Z) :
  0 < alignment < 2 ^ 31 -> 0 <= size -> size + alignment < 2 ^ 63 ->
  exists aligned,
    Uniforms.calculateAlignedSize alignment size = Some aligned
    /\ (alignment | aligned)
    /\ size <= aligned < size + alignment
    /\ (forall multiple, (alignment | multiple) -> size <= multiple -> aligned <= multiple)
    /\ ((alignment | size) -> aligned = size)
    /\ Uniforms.calculateAlignedSize alignment aligned = Some aligned
    /\ Uniforms.calculateAlignedSize 0 size = None.
Proof.
  intros Ha Hs Hfit.
  pose proof (Z.mod_pos_bound size alignment ltac:(lia)) as Hr.
  pose proof (Z.div_mod size alignment ltac:(lia)) as Hdm.
  assert (Hcalc : forall s, 0 <= s -> s + alignment < 2 ^ 63 ->
            Uniforms.calculateAlignedSize alignment s
            = Some (if s mod alignment =? 0 then s else s + alignment - s mod alignment)).
  { intros s Hs0 Hs1. unfold Uniforms.calculateAlignedSize.
    pose proof (Z.mod_pos_bound s alignment ltac:(lia)) as Hr'.
    rewrite (size_t_id alignment) by lia.
    destruct (Z.eqb_spec alignment 0) as [|_]; [lia|].
    destruct (Z.eqb_spec (s mod alignment) 0) as [Hz|Hnz]; cbn [negb].
    - rewrite ptrdiff_t_id by lia. reflexivity.
    - rewrite (size_t_id (s + alignment)) by lia.
      rewrite size_t_id, ptrdiff_t_id by lia. reflexivity. }
  set (aligned := if size mod alignment =? 0 then size
                  else size + alignment - size mod alignment).
  assert (Hdiv : (alignment | aligned)).
  { subst aligned. destruct (Z.eqb_spec (size mod alignment) 0) as [Hz|Hnz].
    - apply Z.mod_divide; [lia|exact Hz].
    - exists (size / alignment + 1). lia. }
  assert (Hrange : size <= aligned < size + alignment).
  { subst aligned. destruct (Z.eqb_spec (size mod alignment) 0); lia. }
  exists aligned. split; [apply Hcalc; assumption|].
  split; [exact Hdiv|]. split; [exact Hrange|]. split; [|split; [|split]].
  - intros multiple [q Hq] Hge. destruct Hdiv as [p Hp].
    assert (p < q + 1) by (apply (Z.mul_lt_mono_pos_r alignment); lia).
    assert (p * alignment <= q * alignment) by (apply Z.mul_le_mono_nonneg_r; lia).
    lia.
  - intros Hd. apply Z.mod_divide in Hd; [|lia]. subst aligned. rewrite Hd. reflexivity.
  - apply Z.mod_divide in Hdiv; [|lia].
    unfold Uniforms.calculateAlignedSize. rewrite (size_t_id alignment) by lia.
    destruct (Z.eqb_spec alignment 0) as [|_]; [lia|].
    rewrite Hdiv. cbn [Z.eqb negb]. rewrite ptrdiff_t_id by lia. reflexivity.
  - reflexivity.
Qed.

(** A block of 80 bytes under an alignment of 256. *)
Lemma aligned_size_is_the_least_multiple_witness :
  exists aligned,
    Uniforms.calculateAlignedSize 256 80 = Some aligned
    /\ (256 | aligned)
    /\ 80 <= aligned < 80 + 256
    /\ (forall multiple, (256 | multiple) -> 80 <= multiple -> aligned <= multiple)
    /\ ((256 | 80) -> aligned = 80)
    /\ Uniforms.calculateAlignedSize 256 aligned = Some aligned
    /\ Uniforms.calculateAlignedSize 0 80 = None.
Proof.
  apply (aligned_size_is_the_least_multiple 256 80); lia.
Defined.

(** ** The instances of the scene *)

Section SceneInstances.

Context {Instance InstanceId : Type}.
Variable isStatic : Instance -> bool.
Variable getMeshId : Instance -> Z.
Variable getInstancesByMeshId : Z -> list InstanceId.
Variable getInstanceById : InstanceId -> Instance.

Local Abbreviation countDynamic := (Instances.countDynamic isStatic getMeshId).
Local Abbreviation collateStatic := (Instances.collateStatic isStatic getMeshId).
Local Abbreviation fillDynamicInstances :=
  (Instances.fillDynamicInstances isStatic getInstancesByMeshId getInstanceById).
Local Abbreviation dynamicOf :=
  (Instances.dynamicOf isStatic getInstancesByMeshId getInstanceById).

Lemma countDynamic_from (instances : list Instance) (meshes : gset Z) (count : Z) :
  0 <= count -> count + Z.of_nat (length instances) < 2 ^ 64 ->
  let r := fold_left (fun (st : gset Z * Z) instance =>
             if negb (isStatic instance)
             then ({[getMeshId instance]} ∪ st.1, size_t (st.2 + 1))
             else st) instances (meshes, count) in
  r.2 = count + Z.of_nat (length (List.filter (fun i => negb (isStatic i)) instances))
  /\ (forall m, m ∈ r.1 <->
        m ∈ meshes \/ exists instance,
          In instance instances /\ isStatic instance = false /\ getMeshId instance = m)
  /\ Z.of_nat (size r.1)
     <= Z.of_nat (size meshes)
        + Z.of_nat (length (List.filter (fun i => negb (isStatic i)) instances)).
Proof.
  revert meshes count. induction instances as [|instance rest IH];
    intros meshes count Hc Hfit; cbn zeta.
  - cbn. split; [lia|]. split; [|lia]. intros m. split; [auto|].
    intros [H|(i & [] & _)]. exact H.
  - cbn [fold_left List.filter length] in *.
    destruct (isStatic instance) eqn:Hs; cbn [negb fst snd].
    + destruct (IH meshes count Hc ltac:(lia)) as (H1 & H2 & H3).
      split; [exact H1|]. split; [|exact H3].
      intros m. rewrite H2. split.
      * intros [H|(i & Hin & Hd & Hm)]; [left; exact H|].
        right. exists i. split; [right; exact Hin|]. split; assumption.
      * intros [H|(i & [<-|Hin] & Hd & Hm)]; [left; exact H|congruence|].
        right. exists i. split; [exact Hin|]. split; assumption.
    + rewrite (size_t_id (count + 1)) by lia.
      destruct (IH ({[getMeshId instance]} ∪ meshes) (count + 1) ltac:(lia) ltac:(lia))
        as (H1 & H2 & H3).
      split; [cbn [length]; lia|]. split.
      * intros m. rewrite H2. rewrite elem_of_union, elem_of_singleton. split.
        -- intros [[->|H]|(i & Hin & Hd & Hm)].
           ++ right. exists instance. split; [left; reflexivity|]. split; [exact Hs|reflexivity].
           ++ left. exact H.
           ++ right. exists i. split; [right; exact Hin|]. split; assumption.
        -- intros [H|(i & [<-|Hin] & Hd & Hm)].
           ++ left. right. exact H.
           ++ left. left. symmetry. exact Hm.
           ++ right. exists i. split; [exact Hin|]. split; assumption.
      * pose proof (size_union_alt {[getMeshId instance]} meshes) as Hu.
        assert (size ({[getMeshId instance]} ∪ meshes) <= 1 + size meshes)%nat.
        { rewrite Hu. rewrite size_singleton.
          assert (Hsub : meshes ∖ {[getMeshId instance]} ⊆ meshes)
            by (apply subseteq_difference_l; reflexivity).
          apply subseteq_size in Hsub. lia. }
        cbn [length]. lia.
Qed.

(** X22.  The loop of [buildDynamicObjectBuffers] counts every instance
    of the scene that is not static and collects the meshes of those
    instances: [instanceCount] is the number of dynamic instances,
    [uniqueMeshes] holds exactly the identifiers of the meshes that have
    one, there are at most as many such meshes as dynamic instances, and
    the one is empty exactly when the other is zero. *)
Theorem dynamic_instances_are_counted (instances : list Instance) :
  Z.of_nat (length instances) < 2 ^ 64 ->
  let uniqueMeshes := (countDynamic instances).1 in
  let instanceCount := (countDynamic instances).2 in
  instanceCount
  = Z.of_nat (length (List.filter (fun instance => negb (isStatic instance)) instances))
  /\ (forall meshId, meshId ∈ uniqueMeshes <->
        exists instance,
          In instance instances /\ isStatic instance = false
          /\ getMeshId instance = meshId)
  /\ Z.of_nat (size uniqueMeshes) <= instanceCount
  /\ (instanceCount = 0 <-> uniqueMeshes = ∅).
Proof.
  intros Hn uniqueMeshes instanceCount.
  destruct (countDynamic_from instances ∅ 0 ltac:(lia) ltac:(lia)) as (H1 & H2 & H3).
  fold (countDynamic instances) in H1, H2, H3.
  fold uniqueMeshes in H2, H3. fold instanceCount in H1.
  rewrite size_empty in H3.
  assert (Hmem : forall meshId, meshId ∈ uniqueMeshes <->
            exists instance,
              In instance instances /\ isStatic instance = false
              /\ getMeshId instance = meshId).
  { intros m. rewrite H2. split; [intros [H|H]; [set_solver|exact H]|auto]. }
  split; [lia|]. split; [exact Hmem|]. split; [lia|]. split.
  - intros Hz. apply leibniz_equiv. apply size_empty_iff. lia.
  - intros He. rewrite H1.
    destruct (List.filter (fun i => negb (isStatic i)) instances) as [|i rest] eqn:Hf;
      [reflexivity|exfalso].
    assert (Hin : In i (List.filter (fun i => negb (isStatic i)) instances))
      by (rewrite Hf; left; reflexivity).
    apply filter_In in Hin. destruct Hin as [Hin Hd].
    assert (getMeshId i ∈ uniqueMeshes).
    { apply Hmem. exists i. split; [exact Hin|]. split; [|reflexivity].
      destruct (isStatic i); [discriminate|reflexivity]. }
    rewrite He in H. set_solver.
Qed.

Lemma collateStatic_from (instances : list Instance) (known : gmap Z (list Instance))
  (meshId : Z) :
  fold_left (fun (staticInstances : gmap Z (list Instance)) instance =>
    if isStatic instance
    then <[getMeshId instance :=
             default [] (staticInstances !! getMeshId instance) ++ [instance]]>
           staticInstances
    else staticInstances) instances known !! meshId
  = match List.filter (fun i => isStatic i && (getMeshId i =? meshId)) instances with
    | [] => known !! meshId
    | group => Some (default [] (known !! meshId) ++ group)
    end.
Proof.
  revert known. induction instances as [|instance rest IH]; intros known; [reflexivity|].
  cbn [fold_left List.filter]. rewrite IH.
  destruct (isStatic instance) eqn:Hs; cbn [andb]; [|reflexivity].
  destruct (Z.eqb_spec (getMeshId instance) meshId) as [->|Hne].
  - rewrite lookup_insert_eq. cbn [default].
    destruct (List.filter _ rest) as [|i group].
    + reflexivity.
    + unfold id. rewrite <- app_assoc. reflexivity.
  - rewrite lookup_insert_ne by exact Hne. reflexivity.
Qed.

(** X23.  The loop of [buildGeometry] sorts the static instances of the
    scene by mesh: the entry of a mesh in [staticInstances] is the list of
    the static instances of that mesh, in the order of the scene; a mesh
    without a static instance has no entry, so no entry is empty, and a
    dynamic instance is in none. *)
Theorem static_instances_are_collated (instances : list Instance) (meshId : Z) :
  let group :=
    List.filter (fun instance => isStatic instance && (getMeshId instance =? meshId))
      instances in
  collateStatic instances !! meshId
  = match group with
    | [] => None
    | _ => Some group
    end.
Proof.
  cbn zeta. unfold Instances.collateStatic. rewrite collateStatic_from.
  rewrite lookup_empty. destruct (List.filter _ instances); reflexivity.
Qed.

Lemma fillDynamicInstances_from (sceneMeshes : list (Z * Mesh.t))
  (m_dynamics : list (@DO.MeshInstances InstanceId)) :
  fold_left (fun m_dynamics (pair : Z * Mesh.t) =>
    let instances := getInstancesByMeshId pair.1 in
    let dynamicIDs :=
      List.filter (fun instance => negb (isStatic (getInstanceById instance))) instances in
    if (0 <? Z.of_nat (length dynamicIDs))
    then m_dynamics
           ++ [{| DO.mesh := pair.2; DO.instances := dynamicIDs |}]
    else m_dynamics) sceneMeshes m_dynamics
  = m_dynamics
    ++ List.filter (fun mi => negb (Nat.eqb (length (DO.instances mi)) 0))
         (map (fun pair : Z * Mesh.t =>
                 {| DO.mesh := pair.2; DO.instances := dynamicOf pair.1 |}) sceneMeshes).
Proof.
  revert m_dynamics. induction sceneMeshes as [|pair rest IH]; intros m_dynamics.
  - cbn. rewrite app_nil_r. reflexivity.
  - cbn [fold_left map List.filter DO.instances]. rewrite IH.
    unfold Instances.dynamicOf.
    destruct (List.filter _ (getInstancesByMeshId pair.1)) as [|id ids]; cbn.
    + reflexivity.
    + destruct (Z.ltb_spec 0 (Z.of_nat (S (length ids)))) as [_|Hle]; [|lia].
      rewrite <- app_assoc. reflexivity.
Qed.

(** X24.  [fillDynamicInstances] goes through the meshes of the geometry
    and keeps, for each mesh that has one, the dynamic instances of that
    mesh: [m_dynamics] lists, in the order of the meshes, every mesh with
    at least one dynamic instance together with all its dynamic instances
    in the order of the scene.  No entry is without instances, no entry
    holds a static instance, and there are no more entries than meshes. *)
Theorem dynamic_meshes_have_instances (sceneMeshes : list (Z * Mesh.t)) :
  let m_dynamics := fillDynamicInstances sceneMeshes in
  m_dynamics
  = List.filter (fun mi => negb (Nat.eqb (length (DO.instances mi)) 0))
      (map (fun pair : Z * Mesh.t =>
              {| DO.mesh := pair.2; DO.instances := dynamicOf pair.1 |}) sceneMeshes)
  /\ Forall (fun mi =>
       (0 < length (DO.instances mi))%nat
       /\ Forall (fun instance => isStatic (getInstanceById instance) = false)
            (DO.instances mi)
       /\ exists pair, In pair sceneMeshes /\ DO.mesh mi = pair.2
                       /\ DO.instances mi = dynamicOf pair.1) m_dynamics
  /\ (forall pair, In pair sceneMeshes -> dynamicOf pair.1 <> [] ->
        In {| DO.mesh := pair.2; DO.instances := dynamicOf pair.1 |} m_dynamics)
  /\ (length m_dynamics <= length sceneMeshes)%nat.
Proof.
  intros m_dynamics.
  assert (H : m_dynamics
              = List.filter (fun mi => negb (Nat.eqb (length (DO.instances mi)) 0))
                  (map (fun pair : Z * Mesh.t =>
                          {| DO.mesh := pair.2; DO.instances := dynamicOf pair.1 |})
                     sceneMeshes)).
  { subst m_dynamics. unfold Instances.fillDynamicInstances.
    rewrite fillDynamicInstances_from. reflexivity. }
  split; [exact H|]. split; [|split].
  - rewrite H. apply List.Forall_forall. intros mi Hin.
    apply filter_In in Hin. destruct Hin as [Hin Hne].
    apply in_map_iff in Hin. destruct Hin as (pair & <- & Hpair).
    cbn [DO.instances DO.mesh] in *. split; [|split].
    + destruct (length (dynamicOf pair.1)); [discriminate|lia].
    + apply List.Forall_forall. intros id Hid. unfold Instances.dynamicOf in Hid.
      apply filter_In in Hid. destruct Hid as [_ Hd].
      destruct (isStatic (getInstanceById id)); [discriminate|reflexivity].
    + exists pair. repeat split. exact Hpair.
  - intros pair Hin Hne. rewrite H. apply filter_In. split.
    + apply in_map_iff. exists pair. split; [reflexivity|exact Hin].
    + cbn [DO.instances]. destruct (dynamicOf pair.1); [contradiction|reflexivity].
  - rewrite H.
    etransitivity; [apply filter_length_le|]. rewrite length_map. reflexivity.
Qed.

(** Counting the elements of a list by key: over keys that differ from one
    another the counts add up to the number of elements that have one of
    the keys. *)
Lemma length_filter_key {A : Type} (f : A -> Z) (k : Z) (keys : list Z) (l : list A) :
  k ∉ keys ->
  length (List.filter (fun x => bool_decide (f x ∈ k :: keys)) l)
  = (length (List.filter (fun x => (f x =? k)%Z) l)
     + length (List.filter (fun x => bool_decide (f x ∈ keys)) l))%nat.
Proof.
  intros Hk. induction l as [|x l IH]; [reflexivity|].
  cbn [List.filter].
  destruct (Z.eqb_spec (f x) k) as [Heq|Hne].
  - rewrite (bool_decide_eq_true_2 (f x ∈ k :: keys)) by (rewrite Heq; left).
    rewrite (bool_decide_eq_false_2 (f x ∈ keys)) by (rewrite Heq; exact Hk).
    cbn [length]. rewrite IH. lia.
  - destruct (decide (f x ∈ keys)) as [Hin|Hnin].
    + rewrite (bool_decide_eq_true_2 (f x ∈ k :: keys)) by (right; exact Hin).
      rewrite (bool_decide_eq_true_2 (f x ∈ keys)) by exact Hin.
      cbn [length]. rewrite IH. lia.
    + rewrite (bool_decide_eq_false_2 (f x ∈ k :: keys)).
      * rewrite (bool_decide_eq_false_2 (f x ∈ keys)) by exact Hnin. exact IH.
      * intros H. apply elem_of_cons in H. destruct H; contradiction.
Qed.

Lemma sum_filter_keys {A : Type} (f : A -> Z) (keys : list Z) (l : list A) :
  NoDup keys ->
  DO.sum (map (fun k => Z.of_nat (length (List.filter (fun x => f x =? k) l))) keys)
  = Z.of_nat (length (List.filter (fun x => bool_decide (f x ∈ keys)) l)).
Proof.
  induction 1 as [|k keys Hk Hnd IH].
  - cbn [map DO.sum fold_right].
    induction l as [|x l IHl]; [reflexivity|].
    cbn [List.filter]. rewrite bool_decide_eq_false_2; [exact IHl|]. apply not_elem_of_nil.
  - cbn [map]. unfold DO.sum in *. cbn [fold_right]. rewrite IH.
    rewrite (length_filter_key f k keys l Hk). lia.
Qed.

Lemma filter_filter_comm {A : Type} (p q : A -> bool) (l : list A) :
  List.filter p (List.filter q l) = List.filter q (List.filter p l).
Proof.
  induction l as [|x l IH]; [reflexivity|].
  cbn [List.filter]. destruct (p x) eqn:Hp, (q x) eqn:Hq; cbn [List.filter];
    rewrite ?Hp, ?Hq, IH; reflexivity.
Qed.

Lemma filter_all {A : Type} (p : A -> bool) (l : list A) :
  (forall x, In x l -> p x = true) -> List.filter p l = l.
Proof.
  induction l as [|x l IH]; intros H; [reflexivity|].
  cbn [List.filter]. rewrite (H x (or_introl eq_refl)). f_equal.
  apply IH. intros y Hy. apply H. right. exact Hy.
Qed.

(** The entries of [m_dynamics] and their instances, counted by the mesh
    identifiers. *)
Lemma fillDynamicInstances_counts (sceneMeshes : list (Z * Mesh.t)) :
  length (fillDynamicInstances sceneMeshes)
  = length (List.filter (fun k => negb (Nat.eqb (length (dynamicOf k)) 0))
              (map fst sceneMeshes))
  /\ DO.totalDynamicInstances (fillDynamicInstances sceneMeshes)
     = DO.sum (map (fun k => Z.of_nat (length (dynamicOf k))) (map fst sceneMeshes)).
Proof.
  unfold Instances.fillDynamicInstances. rewrite fillDynamicInstances_from.
  cbn [app]. induction sceneMeshes as [|pair rest [IH1 IH2]]; [split; reflexivity|].
  cbn [map List.filter DO.instances fst].
  destruct (length (dynamicOf pair.1)) as [|n] eqn:Hlen; cbn [Nat.eqb negb].
  - split; [exact IH1|]. rewrite IH2. unfold DO.sum. cbn [fold_right]. lia.
  - cbn [length]. split; [rewrite IH1; reflexivity|].
    rewrite totalDynamicInstances_cons. cbn [DO.instances]. rewrite IH2, Hlen.
    unfold DO.sum. cbn [fold_right]. reflexivity.
Qed.

(** X25.  The buffers of the dynamic objects are large enough for what
    is written to them.  On a scene whose [getInstancesByMeshId] returns,
    of the instances of the scene in their order, those of the mesh asked
    for, [fillDynamicInstances] makes at most as many entries of
    [m_dynamics] as [buildDynamicObjectBuffers] counted unique meshes, and
    the entries hold at most as many instances as it counted dynamic
    instances.  The numbers are equal when every mesh of a dynamic instance
    is a mesh of the geometry. *)
Theorem dynamic_meshes_fit_the_buffers (ids : list InstanceId)
    (sceneMeshes : list (Z * Mesh.t)) :
  (forall meshId,
     getInstancesByMeshId meshId
     = List.filter (fun id => getMeshId (getInstanceById id) =? meshId) ids) ->
  NoDup (map fst sceneMeshes) ->
  Z.of_nat (length ids) < 2 ^ 64 ->
  let counted := countDynamic (map getInstanceById ids) in
  let m_dynamics := fillDynamicInstances sceneMeshes in
  Z.of_nat (length m_dynamics) <= Z.of_nat (size counted.1)
  /\ DO.totalDynamicInstances m_dynamics <= counted.2
  /\ ((forall id, In id ids -> isStatic (getInstanceById id) = false ->
         getMeshId (getInstanceById id) ∈ map fst sceneMeshes) ->
      Z.of_nat (length m_dynamics) = Z.of_nat (size counted.1)
      /\ DO.totalDynamicInstances m_dynamics = counted.2).
Proof.
  intros Hscene Hnd Hn counted m_dynamics.
  set (dynamic := fun id => negb (isStatic (getInstanceById id))).
  set (meshOf := fun id => getMeshId (getInstanceById id)).
  set (keys := map fst sceneMeshes) in *.
  (* the dynamic instances of a mesh, among the dynamic instances *)
  assert (Hof : forall k, dynamicOf k = List.filter (fun id => meshOf id =? k)
                                          (List.filter dynamic ids)).
  { intros k. unfold Instances.dynamicOf. rewrite Hscene. apply filter_filter_comm. }
  (* the count and the set of [buildDynamicObjectBuffers] *)
  destruct (countDynamic_from (map getInstanceById ids) ∅ 0 ltac:(lia)
              ltac:(rewrite length_map; lia)) as (Hcount & Hmem & _).
  fold (countDynamic (map getInstanceById ids)) in Hcount, Hmem. fold counted in Hcount, Hmem.
  assert (Hcount' : counted.2 = Z.of_nat (length (List.filter dynamic ids))).
  { rewrite Hcount, Z.add_0_l. f_equal. clear.
    induction ids as [|id rest IH]; [reflexivity|].
    cbn [map List.filter]. unfold dynamic at 1.
    destruct (negb (isStatic (getInstanceById id))); cbn [length]; rewrite IH; reflexivity. }
  assert (Hmem' : forall m, m ∈ counted.1 <->
            exists id, In id (List.filter dynamic ids) /\ meshOf id = m).
  { intros m. rewrite Hmem. split.
    - intros [H|(instance & Hin & Hs & Hm)]; [set_solver|].
      apply in_map_iff in Hin. destruct Hin as (id & <- & Hid).
      exists id. split; [|exact Hm]. apply filter_In. split; [exact Hid|].
      unfold dynamic. rewrite Hs. reflexivity.
    - intros (id & Hin & Hm). right. apply filter_In in Hin. destruct Hin as [Hid Hd].
      exists (getInstanceById id). split; [apply in_map; exact Hid|].
      split; [|exact Hm]. unfold dynamic in Hd.
      destruct (isStatic (getInstanceById id)); [discriminate|reflexivity]. }
  destruct (fillDynamicInstances_counts sceneMeshes) as [Hlen Htotal].
  fold m_dynamics in Hlen, Htotal. fold keys in Hlen, Htotal.
  set (used := List.filter (fun k => negb (Nat.eqb (length (dynamicOf k)) 0)) keys) in *.
  assert (Hused : forall k, k ∈ used <-> k ∈ keys /\ k ∈ counted.1).
  { intros k. unfold used. rewrite !list_elem_of_In, filter_In, Hmem', Hof.
    split; intros [Hk H]; (split; [exact Hk|]).
    - destruct (List.filter (fun id => meshOf id =? k) (List.filter dynamic ids))
        as [|id rest] eqn:Hf; [discriminate|].
      assert (Hin : In id (List.filter (fun id => meshOf id =? k)
                             (List.filter dynamic ids))) by (rewrite Hf; left; reflexivity).
      apply filter_In in Hin. destruct Hin as [Hin Hm]. exists id. split; [exact Hin|lia].
    - destruct H as (id & Hin & Hm).
      assert (Hin' : In id (List.filter (fun id => meshOf id =? k)
                              (List.filter dynamic ids))).
      { apply filter_In. split; [exact Hin|lia]. }
      destruct (List.filter (fun id => meshOf id =? k) (List.filter dynamic ids));
        [destruct Hin'|reflexivity]. }
  assert (Hnd' : NoDup used).
  { unfold used. apply NoDup_ListNoDup. apply List.NoDup_filter.
    apply NoDup_ListNoDup. exact Hnd. }
  assert (Hsub : (list_to_set used : gset Z) ⊆ counted.1).
  { intros k Hk. apply elem_of_list_to_set in Hk. apply Hused in Hk. tauto. }
  assert (Hsize : size (list_to_set used : gset Z) = length used)
    by (apply size_list_to_set; exact Hnd').
  assert (Htotal' : DO.totalDynamicInstances m_dynamics
                    = Z.of_nat (length (List.filter (fun id => bool_decide (meshOf id ∈ keys))
                                          (List.filter dynamic ids)))).
  { rewrite Htotal. rewrite <- (sum_filter_keys meshOf keys _ Hnd).
    f_equal. apply map_ext. intros k. rewrite Hof. reflexivity. }
  split; [|split].
  - rewrite Hlen, <- Hsize. apply Nat2Z.inj_le. apply subseteq_size. exact Hsub.
  - rewrite Htotal', Hcount'. apply Nat2Z.inj_le. apply filter_length_le.
  - intros Hcover. split.
    + rewrite Hlen, <- Hsize. f_equal. f_equal. apply leibniz_equiv.
      apply set_equiv_subseteq. split; [exact Hsub|].
      intros k Hk. apply elem_of_list_to_set. apply Hused. split; [|exact Hk].
      apply Hmem' in Hk. destruct Hk as (id & Hin & <-).
      apply filter_In in Hin. destruct Hin as [Hid Hd]. apply Hcover; [exact Hid|].
      unfold dynamic in Hd. destruct (isStatic (getInstanceById id)); [discriminate|reflexivity].
    + rewrite Htotal', Hcount'. f_equal. f_equal.
      apply filter_all. intros id Hin. apply bool_decide_eq_true_2.
      apply filter_In in Hin. destruct Hin as [Hid Hd]. apply Hcover; [exact Hid|].
      unfold dynamic in Hd. destruct (isStatic (getInstanceById id)); [discriminate|reflexivity].
Qed.

End SceneInstances.

(** Five instances, three of them dynamic, of two meshes. *)
Lemma dynamic_instances_are_counted_witness :
  let uniqueMeshes := (Instances.countDynamic snd fst Cases.instances).1 in
  let instanceCount := (Instances.countDynamic snd fst Cases.instances).2 in
  instanceCount = 3
  /\ (forall meshId, meshId ∈ uniqueMeshes <->
        exists instance,
          In instance Cases.instances /\ instance.2 = false /\ instance.1 = meshId)
  /\ Z.of_nat (size uniqueMeshes) <= instanceCount
  /\ (instanceCount = 0 <-> uniqueMeshes = ∅).
Proof.
  apply (dynamic_instances_are_counted snd fst Cases.instances). reflexivity.
Defined.

(** The same instances and a geometry of three meshes. *)
Lemma dynamic_meshes_fit_the_buffers_witness :
  let counted := Instances.countDynamic snd fst (map Cases.getInstanceById Cases.instance_ids) in
  let m_dynamics :=
    Instances.fillDynamicInstances snd Cases.getInstancesByMeshId Cases.getInstanceById
      Cases.scene_meshes in
  NoDup (map fst Cases.scene_meshes)
  /\ m_dynamics
     = [ {| DO.mesh := Samples.cube; DO.instances := [2]%nat |};
         {| DO.mesh := Samples.quad; DO.instances := [1; 3]%nat |} ]
  /\ Z.of_nat (length m_dynamics) = Z.of_nat (size counted.1)
  /\ DO.totalDynamicInstances m_dynamics = counted.2
  /\ counted.2 = 3.
Proof.
  intros counted m_dynamics.
  assert (Hnd : NoDup (map fst Cases.scene_meshes)).
  { apply (bool_decide_unpack _). vm_compute. exact I. }
  split; [exact Hnd|]. split; [reflexivity|].
  destruct (dynamic_meshes_fit_the_buffers snd fst Cases.getInstancesByMeshId
              Cases.getInstanceById Cases.instance_ids Cases.scene_meshes
              ltac:(intros meshId; reflexivity) Hnd ltac:(reflexivity))
    as (_ & _ & Hequal).
  destruct Hequal as [Hlen Htotal].
  - intros id Hin _.
    repeat (destruct Hin as [<-|Hin];
            [apply (bool_decide_unpack _); vm_compute; exact I|]).
    destruct Hin.
  - split; [exact Hlen|]. split; [exact Htotal|]. reflexivity.
Defined.

(** ** The geometry of the scene *)

Section SceneGeometry.

Context {SceneMesh Vertex Element Instance MaterialID ModelTransform : Type}.
Variable getId : SceneMesh -> Z.
Variable assembleVertices : SceneMesh -> list Vertex.
Variable getElementArray : SceneMesh -> list Element.
Variable materialOf : Instance -> MaterialID.
Variable transformOf : Instance -> ModelTransform.

Local Abbreviation addMesh := (Geometry.addMesh getId assembleVertices getElementArray).
Local Abbreviation buildMeshData :=
  (Geometry.buildMeshData getId assembleVertices getElementArray).
Local Abbreviation sortMeshes := (Geometry.sortMeshes getId).
Local Abbreviation elements_before := (Geometry.elements_before getElementArray).
Local Abbreviation vertices_before := (Geometry.vertices_before assembleVertices).
Local Abbreviation MeshCursor := (@Geometry.MeshCursor Vertex Element).

(** A part of a concatenation, found by the length of what is before
    it. *)
Lemma concat_slice {A B : Type} (f : A -> list B) (l : list A) (i : nat) (x : A) :
  l !! i = Some x ->
  take (length (f x)) (drop (length (concat (map f (take i l)))) (concat (map f l))) = f x.
Proof.
  intros Hi. rewrite <- (take_drop_middle l i x Hi) at 2.
  rewrite map_app, concat_app. cbn [map concat].
  rewrite drop_app_length. rewrite take_app_length. reflexivity.
Qed.

Lemma length_concat_take {A B : Type} (f : A -> list B) (l : list A) (i : nat) (x : A) :
  l !! i = Some x ->
  (length (concat (map f (take i l))) + length (f x) <= length (concat (map f l)))%nat.
Proof.
  intros Hi. rewrite <- (take_drop_middle l i x Hi) at 2.
  rewrite map_app, concat_app. cbn [map concat]. rewrite !length_app. lia.
Qed.

Lemma length_concat_Permutation {A B : Type} (f : A -> list B) (l l' : list A) :
  l ≡ₚ l' -> length (concat (map f l)) = length (concat (map f l')).
Proof.
  induction 1; cbn [map concat]; rewrite ?length_app; lia.
Qed.

Lemma GLuint_add_mid a b c : GLuint (GLuint (a + GLuint b) + c) = GLuint (a + (b + c)).
Proof.
  rewrite GLuint_add_l. rewrite <- Z.add_assoc, (Z.add_comm (GLuint b)), Z.add_assoc.
  rewrite GLuint_add_r. f_equal. lia.
Qed.

(** The loop of [buildMeshData], from any state of its locals. *)
Lemma fold_addMesh (meshes : list SceneMesh) (st : MeshCursor) :
  NoDup (map getId meshes) ->
  GLuint (Geometry.vertexIndex st) = Geometry.vertexIndex st ->
  GLuint (Geometry.elementsIndex st) = Geometry.elementsIndex st ->
  let r := fold_left addMesh meshes st in
  Geometry.vertices (Geometry.data r)
  = Geometry.vertices (Geometry.data st) ++ concat (map assembleVertices meshes)
  /\ Geometry.elements (Geometry.data r)
     = Geometry.elements (Geometry.data st) ++ concat (map getElementArray meshes)
  /\ (forall (i : nat) sceneMesh, meshes !! i = Some sceneMesh ->
        Geometry.sceneMeshes (Geometry.data r) !! getId sceneMesh
        = Some {| Mesh.verticesIndex :=
                    GLuint (Geometry.vertexIndex st + vertices_before meshes i);
                  Mesh.elementsIndex :=
                    GLuint (Geometry.elementsIndex st + elements_before meshes i);
                  Mesh.elementCount :=
                    GLuint (Z.of_nat (length (getElementArray sceneMesh))) |})
  /\ (forall id, ~ In id (map getId meshes) ->
        Geometry.sceneMeshes (Geometry.data r) !! id
        = Geometry.sceneMeshes (Geometry.data st) !! id).
Proof.
  revert st. induction meshes as [|m rest IH]; intros st Hnd Hvi Hei; cbn zeta.
  - cbn. rewrite !app_nil_r. repeat split. intros i sceneMesh H. discriminate.
  - cbn [map] in Hnd. apply NoDup_cons in Hnd. destruct Hnd as [Hnotin Hnd].
    cbn [fold_left].
    destruct (IH (addMesh st m) Hnd) as (Hv & He & Hl & Ho).
    { cbn. unfold GLuint. apply Z.mod_mod. lia. }
    { cbn. unfold GLuint. apply Z.mod_mod. lia. }
    split; [|split; [|split]].
    + rewrite Hv. cbn. rewrite <- app_assoc. reflexivity.
    + rewrite He. cbn. rewrite <- app_assoc. reflexivity.
    + intros [|i] sceneMesh Hi; cbn in Hi.
      * injection Hi as <-. rewrite Ho.
        -- cbn. rewrite lookup_insert_eq.
           unfold Geometry.vertices_before, Geometry.elements_before. cbn.
           rewrite !Z.add_0_r, Hvi, Hei. reflexivity.
        -- intros Hin. apply Hnotin. apply list_elem_of_In. exact Hin.
      * rewrite (Hl i sceneMesh Hi). cbn [Geometry.vertexIndex Geometry.elementsIndex
                                           Geometry.addMesh Mesh.elementCount].
        unfold Geometry.vertices_before, Geometry.elements_before.
        cbn [take map concat]. rewrite !length_app, !Nat2Z.inj_add.
        rewrite !GLuint_add_mid. reflexivity.
    + intros id Hid. rewrite Ho.
      * cbn. apply lookup_insert_ne. intros <-. apply Hid. left. reflexivity.
      * intros Hin. apply Hid. right. exact Hin.
Qed.

Lemma sortMeshes_Permutation (allMeshes : list SceneMesh) :
  sortMeshes allMeshes ≡ₚ allMeshes.
Proof. unfold Geometry.sortMeshes. apply merge_sort_Permutation. Qed.

Lemma sortMeshes_sorted (allMeshes : list SceneMesh) :
  StronglySorted (Geometry.ordered getId) (sortMeshes allMeshes).
Proof.
  unfold Geometry.sortMeshes. apply StronglySorted_merge_sort.
  - intros a b c. unfold Geometry.ordered. lia.
  - intros a b. unfold Geometry.ordered. lia.
Qed.

(** X26.  [buildMeshData] lays the meshes of the scene out in the order of
    their identifiers, whatever the order they come in, and the [Mesh] it
    records for each of them locates the vertices and the elements of that
    mesh in the two vectors the buffers are filled with: they start at
    [verticesIndex] and at [elementsIndex], and there are [elementCount]
    elements.  This needs the identifiers to differ from one another and
    the totals to fit [GLuint].  Other entries of [sceneMeshes] are
    kept. *)
Theorem mesh_offsets_locate_the_mesh_data
    (known : gmap Z Mesh.t) (allMeshes : list SceneMesh) :
  NoDup (map getId allMeshes) ->
  Z.of_nat (length (concat (map assembleVertices allMeshes))) < 2 ^ 32 ->
  Z.of_nat (length (concat (map getElementArray allMeshes))) < 2 ^ 32 ->
  let meshes := sortMeshes allMeshes in
  let r := buildMeshData known allMeshes in
  meshes ≡ₚ allMeshes
  /\ StronglySorted (fun a b => getId a <= getId b) meshes
  /\ Geometry.vertices r = concat (map assembleVertices meshes)
  /\ Geometry.elements r = concat (map getElementArray meshes)
  /\ (forall (i : nat) sceneMesh, meshes !! i = Some sceneMesh ->
        exists mesh,
          Geometry.sceneMeshes r !! getId sceneMesh = Some mesh
          /\ Mesh.verticesIndex mesh = vertices_before meshes i
          /\ Mesh.elementsIndex mesh = elements_before meshes i
          /\ Mesh.elementCount mesh = Z.of_nat (length (getElementArray sceneMesh))
          /\ take (length (assembleVertices sceneMesh))
                  (drop (Z.to_nat (Mesh.verticesIndex mesh)) (Geometry.vertices r))
             = assembleVertices sceneMesh
          /\ take (Z.to_nat (Mesh.elementCount mesh))
                  (drop (Z.to_nat (Mesh.elementsIndex mesh)) (Geometry.elements r))
             = getElementArray sceneMesh)
  /\ (forall id, ~ In id (map getId allMeshes) ->
        Geometry.sceneMeshes r !! id = known !! id).
Proof.
  intros Hnd Hv He meshes r.
  pose proof (sortMeshes_Permutation allMeshes) as Hperm. fold meshes in Hperm.
  assert (Hnd' : NoDup (map getId meshes)).
  { rewrite (Permutation_map getId Hperm). exact Hnd. }
  rewrite (length_concat_Permutation assembleVertices _ _ (Permutation_sym Hperm)) in Hv.
  rewrite (length_concat_Permutation getElementArray _ _ (Permutation_sym Hperm)) in He.
  destruct (fold_addMesh meshes
              {| Geometry.data :=
                   {| Geometry.sceneMeshes := known; Geometry.vertices := [];
                      Geometry.elements := [] |};
                 Geometry.vertexIndex := GLuint 0;
                 Geometry.elementsIndex := GLuint 0 |} Hnd' eq_refl eq_refl)
    as (Hvs & Hes & Hl & Ho).
  cbn [Geometry.data Geometry.vertices Geometry.elements Geometry.sceneMeshes
       Geometry.vertexIndex Geometry.elementsIndex app] in Hvs, Hes, Hl, Ho.
  assert (Hr : r = Geometry.data (fold_left addMesh meshes
              {| Geometry.data :=
                   {| Geometry.sceneMeshes := known; Geometry.vertices := [];
                      Geometry.elements := [] |};
                 Geometry.vertexIndex := GLuint 0;
                 Geometry.elementsIndex := GLuint 0 |})) by reflexivity.
  rewrite <- Hr in Hvs, Hes, Hl, Ho.
  split; [exact Hperm|]. split; [apply sortMeshes_sorted|].
  split; [exact Hvs|]. split; [exact Hes|]. split.
  - intros i sceneMesh Hi. eexists. split; [apply (Hl i sceneMesh Hi)|].
    cbn [Mesh.verticesIndex Mesh.elementsIndex Mesh.elementCount].
    pose proof (length_concat_take assembleVertices meshes i sceneMesh Hi) as Hlv.
    pose proof (length_concat_take getElementArray meshes i sceneMesh Hi) as Hle.
    change (GLuint 0) with 0. rewrite !Z.add_0_l.
    unfold Geometry.vertices_before, Geometry.elements_before.
    rewrite !GLuint_id by lia. rewrite !Nat2Z.id.
    repeat split.
    + rewrite Hvs. apply concat_slice. exact Hi.
    + rewrite Hes. apply concat_slice. exact Hi.
  - intros id Hid. apply Ho. intros Hin. apply Hid.
    apply list_elem_of_In. rewrite <- Hperm. apply list_elem_of_In. exact Hin.
Qed.

Local Abbreviation addStaticMesh :=
  (@Geometry.addStaticMesh Instance MaterialID ModelTransform materialOf transformOf).
Local Abbreviation fillStaticBuffers :=
  (@Geometry.fillStaticBuffers Instance MaterialID ModelTransform materialOf transformOf).
Local Abbreviation static_before := (@Geometry.static_before Instance).

(** The mesh [internals.sceneMeshes[meshID]] gives: the one recorded, or a
    default one. *)
Local Abbreviation mesh_of known meshID :=
  (default Geometry.default_mesh (known !! meshID) : Mesh.t).

(** The loop of [fillStaticBuffers], from any state of its locals. *)
Lemma fold_addStaticMesh (staticInstances : list (Z * list Instance))
    (st : Geometry.StaticData) :
  length (Geometry.materialIDs st) = length (Geometry.transforms st) ->
  let r := fold_left addStaticMesh staticInstances st in
  length (Geometry.commands r)
  = (length (Geometry.commands st) + length staticInstances)%nat
  /\ Geometry.materialIDs r
     = Geometry.materialIDs st ++ map materialOf (concat (map snd staticInstances))
  /\ Geometry.transforms r
     = Geometry.transforms st ++ map transformOf (concat (map snd staticInstances))
  /\ (forall (i : nat) command, Geometry.commands st !! i = Some command ->
        Geometry.commands r !! i = Some command)
  /\ (forall (i : nat) meshID instances,
        staticInstances !! i = Some (meshID, instances) ->
        Geometry.commands r !! (length (Geometry.commands st) + i)%nat
        = Some {| DrawCommand.elementCount :=
                    Mesh.elementCount (mesh_of (Geometry.meshes_after st) meshID);
                  DrawCommand.instanceCount := GLuint (Z.of_nat (length instances));
                  DrawCommand.elementOffset :=
                    Mesh.elementsIndex (mesh_of (Geometry.meshes_after st) meshID);
                  DrawCommand.vertexOffset :=
                    Mesh.verticesIndex (mesh_of (Geometry.meshes_after st) meshID);
                  DrawCommand.baseInstance :=
                    GLuint (Z.of_nat (length (Geometry.materialIDs st))
                            + static_before staticInstances i) |})
  /\ (forall meshID,
        Geometry.meshes_after r !! meshID
        = if decide (meshID ∈ map fst staticInstances)
          then Some (mesh_of (Geometry.meshes_after st) meshID)
          else Geometry.meshes_after st !! meshID).
Proof.
  revert st. induction staticInstances as [|[id instances] rest IH]; intros st Hlen; cbn zeta.
  - cbn [fold_left length map concat]. rewrite !app_nil_r, Nat.add_0_r.
    split; [reflexivity|]. split; [reflexivity|]. split; [reflexivity|].
    split; [tauto|]. split; [intros i meshID instances H; discriminate|].
    intros meshID. destruct (decide _) as [H|]; [inversion H|reflexivity].
  - cbn [fold_left].
    assert (Hkeep : forall meshID,
              mesh_of (Geometry.meshes_after (addStaticMesh st (id, instances))) meshID
              = mesh_of (Geometry.meshes_after st) meshID).
    { intros meshID. cbn. destruct (decide (id = meshID)) as [->|Hne].
      - rewrite lookup_insert_eq. reflexivity.
      - rewrite lookup_insert_ne by exact Hne. reflexivity. }
    destruct (IH (addStaticMesh st (id, instances))) as (Hc & Hm & Ht & Hold & Hnew & Hafter).
    { cbn. rewrite !length_app, !length_map. lia. }
    split; [|split; [|split; [|split; [|split]]]].
    + rewrite Hc. cbn. rewrite length_app. cbn. lia.
    + rewrite Hm. cbn. rewrite map_app, <- app_assoc. reflexivity.
    + rewrite Ht. cbn. rewrite map_app, <- app_assoc. reflexivity.
    + intros i command Hi. apply Hold. cbn. apply lookup_app_l_Some. exact Hi.
    + intros [|i] meshID instances' Hi; cbn in Hi.
      * injection Hi as <- <-. rewrite Nat.add_0_r. apply Hold. cbn.
        rewrite lookup_app_r by lia. rewrite Nat.sub_diag. cbn.
        unfold Geometry.static_before. cbn. rewrite Z.add_0_r. reflexivity.
      * specialize (Hnew i meshID instances' Hi). rewrite !Hkeep in Hnew.
        cbn [Geometry.commands Geometry.materialIDs Geometry.addStaticMesh] in Hnew.
        rewrite length_app in Hnew. cbn [length] in Hnew.
        replace (length (Geometry.commands st) + S i)%nat
          with (length (Geometry.commands st) + 1 + i)%nat by lia.
        rewrite Hnew. f_equal. f_equal.
        unfold Geometry.static_before. cbn [take map concat snd].
        rewrite !length_app, length_map. f_equal. lia.
    + intros meshID. rewrite Hafter, Hkeep. cbn [map fst].
      destruct (decide (meshID ∈ map fst rest)) as [Hin|Hnin].
      * destruct (decide _) as [|Hn]; [reflexivity|]. exfalso. apply Hn.
        apply elem_of_cons. right. exact Hin.
      * cbn. destruct (decide (id = meshID)) as [->|Hne].
        -- rewrite lookup_insert_eq.
           destruct (decide _) as [|Hn]; [reflexivity|]. exfalso. apply Hn.
           apply elem_of_cons. left. reflexivity.
        -- rewrite lookup_insert_ne by exact Hne.
           destruct (decide _) as [H|]; [|reflexivity].
           apply elem_of_cons in H. destruct H; [congruence|contradiction].
Qed.

(** X27.  [fillStaticBuffers] makes one draw command for each group of
    the map it is given, in its order, and [count] and [capacity] are their
    number.  The command of a group draws the mesh recorded for the
    identifier of the group and as many instances as the group has; its
    base instance is the number of instances of the groups before it, and
    from there on the material and the transform vector hold those of the
    instances of the group, in their order.  An identifier that
    [sceneMeshes] does not hold is drawn as a mesh of no elements and is
    added to [sceneMeshes] as such. *)
Theorem static_commands_locate_the_instances
    (known : gmap Z Mesh.t) (staticInstances : list (Z * list Instance)) :
  Z.of_nat (length staticInstances) < 2 ^ 31 ->
  Z.of_nat (length (concat (map snd staticInstances))) < 2 ^ 32 ->
  let r := fillStaticBuffers known staticInstances in
  let st := r.1.1 in
  r.1.2 = Z.of_nat (length staticInstances)
  /\ r.2 = Z.of_nat (length staticInstances)
  /\ length (Geometry.commands st) = length staticInstances
  /\ Geometry.materialIDs st = map materialOf (concat (map snd staticInstances))
  /\ Geometry.transforms st = map transformOf (concat (map snd staticInstances))
  /\ (forall (i : nat) meshID instances,
        staticInstances !! i = Some (meshID, instances) ->
        exists command,
          Geometry.commands st !! i = Some command
          /\ DrawCommand.elementCount command = Mesh.elementCount (mesh_of known meshID)
          /\ DrawCommand.elementOffset command = Mesh.elementsIndex (mesh_of known meshID)
          /\ DrawCommand.vertexOffset command = Mesh.verticesIndex (mesh_of known meshID)
          /\ DrawCommand.instanceCount command = Z.of_nat (length instances)
          /\ DrawCommand.baseInstance command = static_before staticInstances i
          /\ take (length instances)
                  (drop (Z.to_nat (DrawCommand.baseInstance command))
                        (Geometry.materialIDs st))
             = map materialOf instances
          /\ take (length instances)
                  (drop (Z.to_nat (DrawCommand.baseInstance command))
                        (Geometry.transforms st))
             = map transformOf instances)
  /\ (forall meshID,
        Geometry.meshes_after st !! meshID
        = if decide (meshID ∈ map fst staticInstances)
          then Some (mesh_of known meshID)
          else known !! meshID).
Proof.
  intros Hn Htotal r st.
  destruct (fold_addStaticMesh staticInstances
              {| Geometry.commands := []; Geometry.materialIDs := [];
                 Geometry.transforms := []; Geometry.meshes_after := known |} eq_refl)
    as (Hc & Hm & Ht & _ & Hnew & Hafter).
  cbn [Geometry.commands Geometry.materialIDs Geometry.transforms Geometry.meshes_after
       length app Nat.add] in Hc, Hm, Ht, Hnew, Hafter.
  assert (Hst : st = fold_left addStaticMesh staticInstances
              {| Geometry.commands := []; Geometry.materialIDs := [];
                 Geometry.transforms := []; Geometry.meshes_after := known |})
    by reflexivity.
  rewrite <- Hst in Hc, Hm, Ht, Hnew, Hafter.
  assert (Hcount : r.1.2 = Z.of_nat (length staticInstances) /\ r.2 = r.1.2).
  { assert (Hr : r.1.2 = GLsizei (Z.of_nat (length (Geometry.commands st)))) by reflexivity.
    split; [|reflexivity]. rewrite Hr, Hc. apply GLsizei_id. lia. }
  destruct Hcount as [Hcount Hcap].
  split; [exact Hcount|]. split; [rewrite Hcap; exact Hcount|].
  split; [exact Hc|]. split; [exact Hm|]. split; [exact Ht|]. split; [|exact Hafter].
  intros i meshID instances Hi. eexists. split; [apply (Hnew i meshID instances Hi)|].
  cbn [DrawCommand.elementCount DrawCommand.elementOffset DrawCommand.vertexOffset
       DrawCommand.instanceCount DrawCommand.baseInstance].
  pose proof (length_concat_take snd staticInstances i _ Hi) as Hle. cbn [snd] in Hle.
  rewrite Z.add_0_l. unfold Geometry.static_before. rewrite !GLuint_id by lia.
  rewrite Nat2Z.id. repeat split.
  - rewrite Hm, skipn_map, firstn_map. f_equal.
    apply (concat_slice snd staticInstances i _ Hi).
  - rewrite Ht, skipn_map, firstn_map. f_equal.
    apply (concat_slice snd staticInstances i _ Hi).
Qed.

End SceneGeometry.

(** Three meshes that come out of order, one of them empty. *)
Lemma mesh_offsets_locate_the_mesh_data_witness :
  let getId := fst : Z * (list Z * list Z) -> Z in
  let assembleVertices := fun sceneMesh : Z * (list Z * list Z) => sceneMesh.2.1 in
  let getElementArray := fun sceneMesh : Z * (list Z * list Z) => sceneMesh.2.2 in
  let r := Geometry.buildMeshData getId assembleVertices getElementArray ∅ Cases.meshes in
  NoDup (map getId Cases.meshes)
  /\ Geometry.sortMeshes getId Cases.meshes
     = [(2, ([20; 21], [0; 1; 0; 1])); (5, ([50; 51; 52], [0; 1; 2])); (9, ([], []))]
  /\ Geometry.vertices r = [20; 21; 50; 51; 52]
  /\ Geometry.elements r = [0; 1; 0; 1; 0; 1; 2]
  /\ (forall (i : nat) sceneMesh,
        Geometry.sortMeshes getId Cases.meshes !! i = Some sceneMesh ->
        exists mesh,
          Geometry.sceneMeshes r !! getId sceneMesh = Some mesh
          /\ Mesh.verticesIndex mesh
             = Geometry.vertices_before assembleVertices
                 (Geometry.sortMeshes getId Cases.meshes) i
          /\ Mesh.elementsIndex mesh
             = Geometry.elements_before getElementArray
                 (Geometry.sortMeshes getId Cases.meshes) i
          /\ Mesh.elementCount mesh = Z.of_nat (length (getElementArray sceneMesh))
          /\ take (length (assembleVertices sceneMesh))
                  (drop (Z.to_nat (Mesh.verticesIndex mesh)) (Geometry.vertices r))
             = assembleVertices sceneMesh
          /\ take (Z.to_nat (Mesh.elementCount mesh))
                  (drop (Z.to_nat (Mesh.elementsIndex mesh)) (Geometry.elements r))
             = getElementArray sceneMesh)
  /\ Geometry.sceneMeshes r !! 5
     = Some {| Mesh.verticesIndex := 2; Mesh.elementsIndex := 4; Mesh.elementCount := 3 |}.
Proof.
  intros getId assembleVertices getElementArray r.
  assert (Hnd : NoDup (map getId Cases.meshes)).
  { apply (bool_decide_unpack _). vm_compute. exact I. }
  split; [exact Hnd|].
  destruct (mesh_offsets_locate_the_mesh_data getId assembleVertices getElementArray ∅
              Cases.meshes Hnd ltac:(reflexivity) ltac:(reflexivity))
    as (_ & _ & Hv & He & Hmesh & _).
  split; [reflexivity|]. split; [exact Hv|]. split; [exact He|]. split; [exact Hmesh|].
  vm_compute. reflexivity.
Defined.

(** Two groups of static instances, the second of a mesh the geometry does not hold. *)
Lemma static_commands_locate_the_instances_witness :
  let r :=
    Geometry.fillStaticBuffers Samples.materialIDOf Samples.toModelTransform
      Cases.known_meshes Cases.static_instances in
  r.1.2 = 2 /\ r.2 = 2
  /\ Geometry.materialIDs r.1.1 = [2; 3; 0]
  /\ Geometry.transforms r.1.1 = [110; 111; 120]
  /\ Geometry.commands r.1.1
     = [ {| DrawCommand.elementCount := 6; DrawCommand.instanceCount := 2;
            DrawCommand.elementOffset := 36; DrawCommand.vertexOffset := 24;
            DrawCommand.baseInstance := 0 |};
         {| DrawCommand.elementCount := 0; DrawCommand.instanceCount := 1;
            DrawCommand.elementOffset := 0; DrawCommand.vertexOffset := 0;
            DrawCommand.baseInstance := 2 |} ]
  /\ (forall meshID,
        Geometry.meshes_after r.1.1 !! meshID
        = if decide (meshID ∈ map fst Cases.static_instances)
          then Some (default Geometry.default_mesh (Cases.known_meshes !! meshID))
          else Cases.known_meshes !! meshID).
Proof.
  intros r.
  destruct (static_commands_locate_the_instances Samples.materialIDOf
              Samples.toModelTransform Cases.known_meshes Cases.static_instances
              ltac:(reflexivity) ltac:(reflexivity))
    as (Hcount & Hcap & _ & Hm & Ht & _ & Hafter).
  split; [exact Hcount|]. split; [exact Hcap|]. split; [exact Hm|]. split; [exact Ht|].
  split; [vm_compute; reflexivity|exact Hafter].
Defined.

(** ** The tasks of a frame *)

Section FrameTasks.

Variable multiBuffering : Z.

(** X28.  In a frame that [render] completes, each of the five update
    tasks is launched once and the task of the light draw commands once
    when the renderer is in deferred mode and not at all in forward mode;
    and the body of every task that is launched runs once, on one thread or
    on several and whenever the threads start. *)
Theorem every_launched_task_runs_once
    (device : Renderer.Device) (self self' : Renderer.t) (trace : list Renderer.Event) :
  Renderer.render multiBuffering device self = (Renderer.Completed self', trace) ->
  forall task,
    Tasks.launches task trace
    = (match task with
       | Renderer.LightDrawCommands => if Renderer.m_deferredRender self then 1 else 0
       | _ => 1
       end)%nat
    /\ Tasks.runs task trace = Tasks.launches task trace.
Proof.
  intros Hrender task.
  unfold Renderer.render, Renderer.syncWithGPUIfNecessary in Hrender.
  destruct device as [poll wait created starts].
  cbn [Renderer.reached_at_poll Renderer.reached_in_wait] in Hrender.
  unfold Renderer.frame, Renderer.launch_all, Renderer.async, Renderer.forwardRender,
    Renderer.deferredRender, Renderer.destroy_actions in Hrender.
  cbn [Renderer.starts_at_once Renderer.fence_created] in Hrender.
  destruct (Renderer.sync_at self (Renderer.m_partition self));
    destruct poll, wait; cbn in Hrender; try discriminate;
  ( destruct (Renderer.m_multiThreaded self), (Renderer.m_deferredRender self);
    destruct (starts Renderer.SceneUniforms), (starts Renderer.DynamicObjects),
      (starts Renderer.DirectionalLights), (starts Renderer.PointLights),
      (starts Renderer.SpotLights), (starts Renderer.LightDrawCommands);
    cbn in Hrender;
    repeat match type of Hrender with
           | context [Sync.initialise ?c ?s] => destruct (Sync.initialise c s) as [[] ?]
           end;
    cbn in Hrender; try discriminate;
    injection Hrender as _ <-; destruct task; split; reflexivity ).
Qed.
End FrameTasks.

(** A deferred frame on which the threads of two tasks start late. *)
Lemma every_launched_task_runs_once_witness :
  exists self' trace,
    Renderer.render 3 Cases.mixed Samples.ready = (Renderer.Completed self', trace)
    /\ Renderer.m_deferredRender Samples.ready = true
    /\ Tasks.launches Renderer.LightDrawCommands trace = 1%nat
    /\ Tasks.runs Renderer.LightDrawCommands trace = 1%nat
    /\ Tasks.launches Renderer.PointLights trace = 1%nat
    /\ Tasks.runs Renderer.PointLights trace = 1%nat.
Proof.
  eexists _, _. split; [vm_compute; reflexivity|]. split; [reflexivity|].
  pose proof (every_launched_task_runs_once 3 Cases.mixed Samples.ready _ _
                ltac:(vm_compute; reflexivity)) as H.
  destruct (H Renderer.LightDrawCommands) as [Hl Hr].
  destruct (H Renderer.PointLights) as [Hl' Hr'].
  split; [exact Hl|]. split; [rewrite Hr; exact Hl|]. split; [exact Hl'|].
  rewrite Hr'. exact Hl'.
Defined.
